(** * Resumable streaming requests of claude-code-webui

    A shallow embedding of the resumable streaming subsystem:

    - backend/streaming/streamingFileManager.ts : the request registry
      ([requestStatuses]), the per-request stream log ([appendMessage],
      [readStreamingFile]) and the sweeper ([cleanupExpiredFiles]);
    - backend/handlers/resume.ts and status.ts : the read-only handlers;
    - backend/handlers/chat.ts : the generator [executeClaudeCommand]
      that drives the engine, persists and yields;
    - frontend/src/hooks/useNetworkRecovery.ts and ChatPage.tsx : the
      client-side recovery loop.

    Conventions.  JavaScript strings are [string]s of 8-bit code units.
    The module-level [Map]s are [gmap]s keyed by request id, the file
    system is a [gmap] from paths to file contents.  Exceptions are a sum
    type; [async] functions are sequential state passing (one operation
    runs to completion before the next one starts).  Integers that the
    code keeps in JavaScript numbers are exact ([nat], [Z]); delays, which
    involve [Math.random], are exact rationals.

    The file has four parts: the embedding (definitions only), the
    properties of the embedding, the claims of the specification, and
    further properties of the code around them. *)

From Stdlib Require Import Ascii String ZArith QArith Qminmax Qpower Lia Lqa.
From stdpp Require Import gmap strings list.

Local Open Scope Z_scope.
Local Open Scope nat_scope.

(** String concatenation unfolds on a literal prefix. *)
#[local] Arguments String.append !_ _ / : simpl nomatch.

(** * Part I: the embedding *)

(** ** JavaScript string primitives used by the code *)

Module JsString.

Definition LF : ascii := "010"%char.

(** [WhiteSpace] and [LineTerminator] code units below 256: TAB, LF, VT,
    FF, CR, SP and NBSP.  These are what [String.prototype.trim] strips. *)
Definition isWhiteSpace (c : ascii) : bool :=
  let n := nat_of_ascii c in
  ((9 <=? n) && (n <=? 13)) || (n =? 32) || (n =? 160).

Fixpoint trimStart (s : string) : string :=
  match s with
  | EmptyString => EmptyString
  | String c s' => if isWhiteSpace c then trimStart s' else s
  end.

Fixpoint trimEnd (s : string) : string :=
  match s with
  | EmptyString => EmptyString
  | String c s' =>
      match trimEnd s' with
      | EmptyString =>
          if isWhiteSpace c then EmptyString else String c EmptyString
      | t => String c t
      end
  end.

(** [s.trim()] *)
Definition trim (s : string) : string := trimEnd (trimStart s).

(** [s.split(sep)] for a one-character separator: never the empty array,
    [("").split(sep)] is [[""]]. *)
Fixpoint split (sep : ascii) (s : string) : list string :=
  match s with
  | EmptyString => [EmptyString]
  | String c s' =>
      if Ascii.eqb c sep then EmptyString :: split sep s'
      else match split sep s' with
           | [] => [String c EmptyString]
           | x :: xs => String c x :: xs
           end
  end.

(** Truthiness of a string: non-empty. *)
Definition truthy (s : string) : bool := negb (String.eqb s EmptyString).

(** [hay.startsWith(needle)] and [hay.includes(needle)] *)
Fixpoint startsWith (needle hay : string) : bool :=
  match needle, hay with
  | EmptyString, _ => true
  | String a n', String b h' => Ascii.eqb a b && startsWith n' h'
  | String _ _, EmptyString => false
  end.

Fixpoint includes (needle hay : string) : bool :=
  startsWith needle hay ||
  match hay with
  | EmptyString => false
  | String _ h' => includes needle h'
  end.

(** [arr.indexOf(x)] on an array of strings: [None] stands for -1. *)
Fixpoint indexOf (x : string) (arr : list string) : option nat :=
  match arr with
  | [] => None
  | y :: ys =>
      if String.eqb y x then Some 0
      else match indexOf x ys with
           | Some i => Some (S i)
           | None => None
           end
  end.

(** [s.replace(/c/g, d)] for single characters. *)
Fixpoint replaceAll (c d : ascii) (s : string) : string :=
  match s with
  | EmptyString => EmptyString
  | String a s' => String (if Ascii.eqb a c then d else a) (replaceAll c d s')
  end.

(** The string has no occurrence of the character [c]. *)
Fixpoint lacks (c : ascii) (s : string) : bool :=
  match s with
  | EmptyString => true
  | String a s' => negb (Ascii.eqb a c) && lacks c s'
  end.

(** A JavaScript number as the resume handler meets it: the result of
    [parseInt] is [NaN] or an integer.  (Beyond 2^53 the real value is the
    nearest double; the comparisons made with it below are against array
    lengths, which rounding does not change.) *)
Inductive JsNumber := NaN | Num (z : Z).

Definition digitValue (c : ascii) : option Z :=
  let n := nat_of_ascii c in
  if (48 <=? n) && (n <=? 57) then Some (Z.of_nat (n - 48)) else None.

(** The longest prefix of decimal digits, as a number; [acc] is [None]
    until a first digit has been read. *)
Fixpoint parseDigits (s : string) (acc : option Z) : option Z :=
  match s with
  | EmptyString => acc
  | String c s' =>
      match digitValue c with
      | Some d => parseDigits s' (Some (10 * default 0 acc + d)%Z)
      | None => acc
      end
  end.

(** What [parseInt] reads digits from: the text after leading white
    space and one optional sign. *)
Definition afterSign (s : string) : string :=
  match trimStart s with
  | String "-"%char r => r
  | String "+"%char r => r
  | body => body
  end.

(** [parseInt(s, 10)]: leading white space, an optional sign, digits. *)
Definition parseInt (s : string) : JsNumber :=
  let negative := startsWith "-" (trimStart s) in
  match parseDigits (afterSign s) None with
  | None => NaN
  | Some z => Num (if negative then (- z)%Z else z)
  end.

Definition hexDigit (n : nat) : ascii :=
  ascii_of_nat (if n <? 10 then 48 + n else 55 + n).

Definition percentByte (n : nat) : string :=
  String "%"%char (String (hexDigit (n / 16)) (String (hexDigit (n mod 16)) EmptyString)).

(** The characters [encodeURIComponent] leaves alone. *)
Definition uriUnreserved (c : ascii) : bool :=
  let n := nat_of_ascii c in
  ((48 <=? n) && (n <=? 57)) || ((65 <=? n) && (n <=? 90)) ||
  ((97 <=? n) && (n <=? 122)) ||
  existsb (Nat.eqb n) [45; 95; 46; 33; 126; 42; 39; 40; 41].

(** [encodeURIComponent(s)]: every other code unit becomes the
    percent-escapes of its UTF-8 bytes (one byte below 128, two above). *)
Fixpoint encodeURIComponent (s : string) : string :=
  match s with
  | EmptyString => EmptyString
  | String c s' =>
      let n := nat_of_ascii c in
      (if uriUnreserved c then String c EmptyString
       else if n <? 128 then percentByte n
       else percentByte (192 + n / 64) +:+ percentByte (128 + n mod 64))
      +:+ encodeURIComponent s'
  end.

End JsString.

Import JsString.

(** ** shared/types.ts *)

Module StreamResponse.

(** [type: "claude_json" | "error" | "done" | "aborted"] *)
Inductive Tag := claude_json | error | done | aborted.

(** [data?: unknown] carries the engine's message, of a type [Data] the
    backend never inspects; [error?: string]. *)
Record t (Data : Type) := mk {
  type : Tag;
  data : option Data;
  errorText : option string
}.

Arguments mk {Data}.
Arguments type {Data}.
Arguments data {Data}.
Arguments errorText {Data}.


End StreamResponse.

Abbreviation StreamResponse := StreamResponse.t.

Inductive RequestStatus :=
  IN_PROGRESS | COMPLETED | FAILED | ABORTED | NOT_FOUND.

Definition RequestStatus_eqb (a b : RequestStatus) : bool :=
  match a, b with
  | IN_PROGRESS, IN_PROGRESS | COMPLETED, COMPLETED | FAILED, FAILED
  | ABORTED, ABORTED | NOT_FOUND, NOT_FOUND => true
  | _, _ => false
  end.

Module ResumeResponse.

Record t (Data : Type) := mk {
  messages : list (StreamResponse Data);
  totalMessages : nat;
  isComplete : bool
}.

Arguments mk {Data}.
Arguments messages {Data}.
Arguments totalMessages {Data}.
Arguments isComplete {Data}.

End ResumeResponse.

Abbreviation ResumeResponse := ResumeResponse.t.

Module StatusResponse.

Record t := mk {
  requestId : string;
  status : RequestStatus;
  totalMessages : nat;
  lastUpdated : Z
}.

End StatusResponse.

Abbreviation StatusResponse := StatusResponse.t.

(** What a handler answers: [c.json(body)] or [c.json({error}, code)]. *)
Inductive HttpResponse (A : Type) :=
| Json (body : A)
| JsonError (code : nat) (error : string).

Arguments Json {A}.
Arguments JsonError {A}.

(** Thrown values on the backend: the SDK's [AbortError], or anything
    else, kept as the text the code derives from it
    ([error instanceof Error ? error.message : String(error)]). *)
Inductive Exn := AbortError (message : string) | OtherError (message : string).

Definition exnMessage (e : Exn) : string :=
  match e with
  | AbortError text => text
  | OtherError text => text
  end.

(** [JSON.stringify] and [JSON.parse] (which throws on bad input: [None])
    at the type of stream responses.  They are the platform's. *)
Class JsonCodec (Data : Type) := {
  JSON_stringify : StreamResponse Data -> string;
  JSON_parse : string -> option (StreamResponse Data)
}.

(** ** backend/runtime/types.ts *)

(** The part of [Runtime] the subsystem calls.  Files are the [files]
    field of the server state below; [removeThrows path] tells whether
    [runtime.remove(path)] fails (permissions, a busy file, ...). *)
Record Runtime := {
  getEnv : string -> option string;
  removeThrows : string -> bool
}.

(** ** backend/streaming/streamingFileManager.ts *)

Module StreamingFileInfo.

Record t := mk {
  requestId : string;
  filePath : string;
  status : RequestStatus;
  totalMessages : nat;
  lastUpdated : Z
}.

End StreamingFileInfo.

Abbreviation StreamingFileInfo := StreamingFileInfo.t.

(** The module state and its surroundings: the [requestStatuses] map, the
    files on disk, the [requestAbortControllers] map of the chat handler
    (only its keys matter here) and the wall clock read by [new Date()],
    in milliseconds. *)
Record Server := {
  requestStatuses : gmap string StreamingFileInfo;
  files : gmap string string;
  requestAbortControllers : gset string;
  clock : Z
}.

Definition setStatuses (m : gmap string StreamingFileInfo) (s : Server) : Server :=
  {| requestStatuses := m; files := files s;
     requestAbortControllers := requestAbortControllers s; clock := clock s |}.

Definition setFiles (f : gmap string string) (s : Server) : Server :=
  {| requestStatuses := requestStatuses s; files := f;
     requestAbortControllers := requestAbortControllers s; clock := clock s |}.

Definition setControllers (c : gset string) (s : Server) : Server :=
  {| requestStatuses := requestStatuses s; files := files s;
     requestAbortControllers := c; clock := clock s |}.

(** Time passing between two operations. *)
Definition advance (ms : Z) (s : Server) : Server :=
  {| requestStatuses := requestStatuses s; files := files s;
     requestAbortControllers := requestAbortControllers s;
     clock := (clock s + ms)%Z |}.

Definition CLEANUP_INTERVAL_MS : Z := 5 * 60 * 1000.

Definition getStreamingDir (runtime : Runtime) (encodedProjectName : string)
  : Exn + string :=
  match getEnv runtime "HOME" with
  | Some homeDir =>
      if truthy homeDir
      then inr (homeDir +:+ "/.claude/projects/" +:+ encodedProjectName +:+ "/streaming")
      else inl (OtherError "HOME environment variable not found")
  | None => inl (OtherError "HOME environment variable not found")
  end.

Definition getStreamingFilePath (runtime : Runtime)
    (encodedProjectName requestId : string) : Exn + string :=
  match getStreamingDir runtime encodedProjectName with
  | inl e => inl e
  | inr streamingDir => inr (streamingDir +:+ "/" +:+ requestId +:+ ".jsonl")
  end.

(** [runtime.ensureDir] creates directories; directories are not part of
    the file map, so only the two path computations (which may throw) and
    the [requestStatuses.set] remain. *)
Definition initializeStreaming (runtime : Runtime)
    (encodedProjectName requestId : string) (s : Server) : Exn + Server :=
  match getStreamingDir runtime encodedProjectName with
  | inl e => inl e
  | inr _ =>
      match getStreamingFilePath runtime encodedProjectName requestId with
      | inl e => inl e
      | inr filePath =>
          let info :=
            StreamingFileInfo.mk requestId filePath IN_PROGRESS 0 (clock s) in
          inr (setStatuses (<[requestId := info]> (requestStatuses s)) s)
      end
  end.

(** [runtime.appendTextFile(path, line)]: creates the file when absent. *)
Definition appendTextFile (path line : string) (f : gmap string string)
  : gmap string string :=
  <[path := default EmptyString (f !! path) +:+ line]> f.

Definition statusAfter {Data} (message : StreamResponse Data)
    (old : RequestStatus) : RequestStatus :=
  match StreamResponse.type message with
  | StreamResponse.done => COMPLETED
  | StreamResponse.error => FAILED
  | StreamResponse.aborted => ABORTED
  | StreamResponse.claude_json => old
  end.

Definition appendMessage {Data} `{!JsonCodec Data} (runtime : Runtime)
    (encodedProjectName requestId : string) (message : StreamResponse Data)
    (s : Server) : Exn + Server :=
  match getStreamingFilePath runtime encodedProjectName requestId with
  | inl e => inl e
  | inr filePath =>
      match requestStatuses s !! requestId with
      | None =>
          inl (OtherError ("Request " +:+ requestId +:+ " not initialized"))
      | Some info =>
          let line := JSON_stringify message +:+ String LF EmptyString in
          let s1 := setFiles (appendTextFile filePath line (files s)) s in
          let info' :=
            StreamingFileInfo.mk
              (StreamingFileInfo.requestId info)
              (StreamingFileInfo.filePath info)
              (statusAfter message (StreamingFileInfo.status info))
              (S (StreamingFileInfo.totalMessages info))
              (clock s) in
          inr (setStatuses (<[requestId := info']> (requestStatuses s1)) s1)
      end
  end.

(** [content.trim().split("\n").filter((line) => line.trim())] *)
Definition fileLines (content : string) : list string :=
  List.filter (fun line => truthy (trim line)) (split LF (trim content)).

(** [lines[i]] for a number [i]: [undefined] outside the array. *)
Definition lineAt (lines : list string) (i : Z) : option string :=
  if (i <? 0)%Z then None else lines !! Z.to_nat i.

(** One round of the loop body: [JSON.parse(lines[i])] pushed on success;
    [JSON.parse(undefined)] and a malformed line throw, which the [catch]
    logs and skips. *)
Definition parseLine {Data} `{!JsonCodec Data} (line : option string)
  : list (StreamResponse Data) :=
  match line with
  | Some text =>
      match JSON_parse text with
      | Some message => [message]
      | None => []
      end
  | None => []
  end.

(** [for (let i = fromIndex; i < lines.length; i++)], [rounds] bounding
    the number of rounds. *)
Fixpoint readLoop {Data} `{!JsonCodec Data} (rounds : nat) (i : Z)
    (lines : list string) : list (StreamResponse Data) :=
  match rounds with
  | 0 => []
  | S rounds' =>
      if (i <? Z.of_nat (length lines))%Z
      then parseLine (lineAt lines i) ++ readLoop rounds' (i + 1)%Z lines
      else []
  end.

(** The loop from [fromIndex]: [NaN < n] is false, so [NaN] never enters
    it; from an integer [i] it makes [lines.length - i] rounds. *)
Definition readMessages {Data} `{!JsonCodec Data} (fromIndex : JsNumber)
    (lines : list string) : list (StreamResponse Data) :=
  match fromIndex with
  | NaN => []
  | Num i => readLoop (Z.to_nat (Z.of_nat (length lines) - i)) i lines
  end.

Definition readStreamingFile {Data} `{!JsonCodec Data} (runtime : Runtime)
    (encodedProjectName requestId : string) (fromIndex : JsNumber)
    (s : Server) : Exn + list (StreamResponse Data) :=
  match getStreamingFilePath runtime encodedProjectName requestId with
  | inl e => inl e
  | inr filePath =>
      match files s !! filePath with
      | None => inr []
      | Some content => inr (readMessages fromIndex (fileLines content))
      end
  end.

Definition getRequestStatus (requestId : string) (s : Server)
  : option StreamingFileInfo :=
  requestStatuses s !! requestId.

(** The test of the sweeper's first loop. *)
Definition isExpired (now : Z) (info : StreamingFileInfo) : bool :=
  (CLEANUP_INTERVAL_MS <? now - StreamingFileInfo.lastUpdated info)%Z &&
  negb (RequestStatus_eqb (StreamingFileInfo.status info) IN_PROGRESS).

(** The body of the sweeper's second loop: remove the file, delete the
    entry.  A throw of [runtime.remove] is caught and logged and leaves
    the files as they are (so does the removal of a file that is not
    there); the entry is deleted in every case. *)
Definition sweepOne (runtime : Runtime) (s : Server) (requestId : string)
  : Server :=
  match requestStatuses s !! requestId with
  | Some info =>
      let path := StreamingFileInfo.filePath info in
      let s1 :=
        if removeThrows runtime path then s
        else setFiles (delete path (files s)) s in
      setStatuses (delete requestId (requestStatuses s1)) s1
  | None => s
  end.

Definition expiredRequests (now : Z) (m : gmap string StreamingFileInfo)
  : list string :=
  (List.filter (fun kv => isExpired now (snd kv)) (map_to_list m)).*1.

Definition cleanupExpiredFiles (runtime : Runtime) (s : Server) : Server :=
  foldl (sweepOne runtime) s (expiredRequests (clock s) (requestStatuses s)).

(** ** backend/handlers/resume.ts and status.ts *)

(** [c.req.query("fromIndex") || "0"] *)
Definition fromIndexText (query : option string) : string :=
  match query with
  | Some text => if truthy text then text else "0"
  | None => "0"
  end.

(** The [try] block of the resume handler: read, then build the body from
    the registry entry. *)
Definition resumeBody {Data} `{!JsonCodec Data} (runtime : Runtime)
    (status : StreamingFileInfo) (encodedProjectName requestId : string)
    (fromIndex : JsNumber) (s : Server) : HttpResponse (ResumeResponse Data) :=
  match readStreamingFile runtime encodedProjectName requestId fromIndex s with
  | inr messages =>
      Json (ResumeResponse.mk messages
              (StreamingFileInfo.totalMessages status)
              (negb (RequestStatus_eqb (StreamingFileInfo.status status) IN_PROGRESS)))
  | inl _ => JsonError 500 "Failed to read streaming data"
  end.

Definition handleResumeRequest {Data} `{!JsonCodec Data} (runtime : Runtime)
    (requestId : string) (query : option string) (s : Server)
  : HttpResponse (ResumeResponse Data) :=
  let fromIndex := parseInt (fromIndexText query) in
  if negb (truthy requestId) then JsonError 400 "Request ID is required"
  else
    match getRequestStatus requestId s with
    | None => JsonError 404 "Request not found"
    | Some status =>
        let pathParts := split "/" (StreamingFileInfo.filePath status) in
        match indexOf "projects" pathParts with
        | None => JsonError 500 "Invalid file path structure"
        | Some projectsIndex =>
            if length pathParts <=? projectsIndex + 2
            then JsonError 500 "Invalid file path structure"
            else
              let encodedProjectName :=
                nth (projectsIndex + 1) pathParts EmptyString in
              resumeBody runtime status encodedProjectName requestId fromIndex s
        end
    end.

Definition handleStatusRequest (requestId : string) (s : Server)
  : HttpResponse StatusResponse :=
  if negb (truthy requestId) then JsonError 400 "Request ID is required"
  else
    match getRequestStatus requestId s with
    | None => Json (StatusResponse.mk requestId NOT_FOUND 0 (clock s))
    | Some status =>
        Json (StatusResponse.mk requestId
                (StreamingFileInfo.status status)
                (StreamingFileInfo.totalMessages status)
                (StreamingFileInfo.lastUpdated status))
    end.

(** ** backend/handlers/chat.ts *)

Module ChatRequest.

Record t := mk {
  message : string;
  sessionId : option string;
  requestId : string;
  allowedTools : option (list string);
  workingDirectory : option string;
  authMode : option string
}.

End ChatRequest.

Abbreviation ChatRequest := ChatRequest.t.

Definition getEncodedProjectName (workingDirectory : option string)
  : option string :=
  match workingDirectory with
  | Some dir =>
      if truthy dir
      then Some (encodeURIComponent (replaceAll "/" "_" dir))
      else None
  | None => None
  end.

(** How one call of the SDK's [query] goes: the messages it yields, then
    a normal end or a throw. *)
Inductive EngineEnd := Returns | Throws (e : Exn).

Record EngineRun (Data : Type) := {
  sdkMessages : list Data;
  ending : EngineEnd
}.

Arguments sdkMessages {Data}.
Arguments ending {Data}.

(** The engine: from the prompt and the options [resume], [allowedTools]
    and [cwd] to a run.  (The abort controller is the engine's way to be
    told to stop; a run that honours it ends in [Throws (AbortError _)].) *)
Definition Engine (Data : Type) : Type :=
  string -> option string -> option (list string) -> option string ->
  EngineRun Data.

(** What an observer of the generator sees, in order: a message written
    to the stream log, a message yielded to the consumer. *)
Inductive Event (Data : Type) :=
| Persisted (requestId : string) (message : StreamResponse Data)
| Yielded (message : StreamResponse Data).

Arguments Persisted {Data}.
Arguments Yielded {Data}.

(** A generator body: state passing, a trace of events, and a result or a
    thrown value. *)
Definition Gen (Data A : Type) : Type :=
  Server -> Server * list (Event Data) * (Exn + A).

Definition ret {Data A} (a : A) : Gen Data A := fun s => (s, [], inr a).

Definition throw {Data A} (e : Exn) : Gen Data A := fun s => (s, [], inl e).

Definition bind {Data A B} (c : Gen Data A) (k : A -> Gen Data B)
  : Gen Data B :=
  fun s =>
    match c s with
    | (s1, t1, inl e) => (s1, t1, inl e)
    | (s1, t1, inr a) => let '(s2, t2, r) := k a s1 in (s2, t1 ++ t2, r)
    end.

(** [try { c } catch (e) { handler(e) }] *)
Definition tryCatch {Data A} (c : Gen Data A) (handler : Exn -> Gen Data A)
  : Gen Data A :=
  fun s =>
    match c s with
    | (s1, t1, inl e) => let '(s2, t2, r) := handler e s1 in (s2, t1 ++ t2, r)
    | finished => finished
    end.

(** [try { c } finally { cleanup }], for a [cleanup] that does not throw. *)
Definition tryFinally {Data A} (c : Gen Data A) (cleanup : Server -> Server)
  : Gen Data A :=
  fun s => let '(s1, t1, r) := c s in (cleanup s1, t1, r).

(** An [await]ed call of a state-passing function. *)
Definition await {Data} (f : Server -> Exn + Server) : Gen Data unit :=
  fun s =>
    match f s with
    | inl e => (s, [], inl e)
    | inr s' => (s', [], inr tt)
    end.

Definition yield {Data} (response : StreamResponse Data) : Gen Data unit :=
  fun s => (s, [Yielded response], inr tt).

Definition modify {Data} (f : Server -> Server) : Gen Data unit :=
  fun s => (f s, [], inr tt).

(** A generator body keeps the state invariant [P] and leaves traces in
    [T]. *)
Definition respects {Data A} (P : Server -> Prop)
    (T : list (Event Data) -> Prop) (c : Gen Data A) : Prop :=
  forall s, P s -> P (c s).1.1 /\ T (c s).1.2.

Declare Scope gen_scope.
Delimit Scope gen_scope with gen.
Notation "c1 ;; c2" := (bind c1 (fun _ => c2))
  (at level 100, c2 at level 200, right associativity) : gen_scope.

Section ChatHandler.

Context {Data : Type} `{!JsonCodec Data}.
Variable runtime : Runtime.
Variable query : Engine Data.

Local Open Scope gen_scope.

(** [await appendMessage(...)], leaving a [Persisted] event when the
    write went through. *)
Definition awaitAppendMessage (encodedProjectName requestId : string)
    (response : StreamResponse Data) : Gen Data unit :=
  fun s =>
    match appendMessage runtime encodedProjectName requestId response s with
    | inl e => (s, [], inl e)
    | inr s' => (s', [Persisted requestId response], inr tt)
    end.

(** The pair of statements the generator repeats for every response:
    [if (encodedProjectName) { await appendMessage(...) }  yield response]. *)
Definition writeThenYield (encodedProjectName : option string)
    (requestId : string) (response : StreamResponse Data) : Gen Data unit :=
  match encodedProjectName with
  | Some name =>
      if truthy name
      then awaitAppendMessage name requestId response ;; yield response
      else yield response
  | None => yield response
  end.

(** The [for await (const sdkMessage of query(...))] loop. *)
Fixpoint forAwait (encodedProjectName : option string) (requestId : string)
    (items : list Data) (ending : EngineEnd) : Gen Data unit :=
  match items with
  | [] =>
      match ending with
      | Returns => ret tt
      | Throws e => throw e
      end
  | sdkMessage :: rest =>
      writeThenYield encodedProjectName requestId
        (StreamResponse.mk StreamResponse.claude_json (Some sdkMessage) None) ;;
      forAwait encodedProjectName requestId rest ending
  end.

(** The authentication-mode block.  [api_key] mode throws without a key;
    the temporary clearing and restoring of the key in [subscription]
    mode touches neither the registry nor the log and is left out. *)
Definition checkAuthMode (authMode : option string) : Gen Data unit :=
  match authMode with
  | Some mode =>
      if String.eqb mode "api_key" then
        match getEnv runtime "ANTHROPIC_API_KEY" with
        | Some key =>
            if truthy key then ret tt
            else throw (OtherError "API Key mode requested but ANTHROPIC_API_KEY not found")
        | None =>
            throw (OtherError "API Key mode requested but ANTHROPIC_API_KEY not found")
        end
      else ret tt
  | None => ret tt
  end.

Definition doneResponse : StreamResponse Data :=
  StreamResponse.mk StreamResponse.done None None.

Definition abortedResponse : StreamResponse Data :=
  StreamResponse.mk StreamResponse.aborted None None.

Definition errorResponse (message : string) : StreamResponse Data :=
  StreamResponse.mk StreamResponse.error None (Some message).

(** The generator, driven to its end by its consumer.
    ([getClaudeExecutionConfig] only prepares options of the engine and
    catches what it throws; it is left out.) *)
Definition executeClaudeCommand (request : ChatRequest) : Gen Data unit :=
  let message := ChatRequest.message request in
  let requestId := ChatRequest.requestId request in
  let workingDirectory := ChatRequest.workingDirectory request in
  let encodedProjectName := getEncodedProjectName workingDirectory in
  tryFinally
    (tryCatch
       (let processedMessage :=
          if startsWith "/" message
          then String.substring 1 (String.length message - 1) message
          else message in
        modify (fun s =>
          setControllers ({[requestId]} ∪ requestAbortControllers s) s) ;;
        match encodedProjectName with
        | Some name =>
            if truthy name
            then await (initializeStreaming runtime name requestId)
            else ret tt
        | None => ret tt
        end ;;
        checkAuthMode (ChatRequest.authMode request) ;;
        let run :=
          query processedMessage (ChatRequest.sessionId request)
            (ChatRequest.allowedTools request) workingDirectory in
        forAwait encodedProjectName requestId (sdkMessages run) (ending run) ;;
        writeThenYield encodedProjectName requestId doneResponse)
       (fun error =>
          match error with
          | AbortError _ =>
              writeThenYield encodedProjectName requestId abortedResponse
          | OtherError text =>
              writeThenYield encodedProjectName requestId (errorResponse text)
          end))
    (fun s => setControllers (requestAbortControllers s ∖ {[requestId]}) s).

(** The consumer in [handleChatRequest]: every chunk of the generator is
    enqueued on the response stream; a throw out of the generator is
    turned into one more error chunk.  The result is the server state and
    the chunks enqueued, in order. *)
Definition yielded (trace : list (Event Data)) : list (StreamResponse Data) :=
  flat_map (fun ev => match ev with Yielded m => [m] | Persisted _ _ => [] end)
    trace.

Definition persisted (requestId : string) (trace : list (Event Data))
  : list (StreamResponse Data) :=
  flat_map (fun ev =>
              match ev with
              | Persisted r m => if String.eqb r requestId then [m] else []
              | Yielded _ => []
              end) trace.

Definition handleChatRequest (request : ChatRequest) (s : Server)
  : Server * list (StreamResponse Data) :=
  match executeClaudeCommand request s with
  | (s', trace, inr _) => (s', yielded trace)
  | (s', trace, inl e) =>
      (s', yielded trace ++ [errorResponse (exnMessage e)])
  end.

End ChatHandler.

(** ** frontend/src/hooks/useNetworkRecovery.ts and ChatPage.tsx *)

Module Recovery.

(** A value thrown on the client: whether it is a [TypeError], and its
    message. *)
Record JsError := {
  isTypeError : bool;
  message : string
}.

Definition networkErrorMessages : list string :=
  ["Failed to fetch"; "NetworkError"; "Network request failed";
   "ERR_INTERNET_DISCONNECTED"; "ERR_NETWORK_CHANGED"]%string.

Definition isNetworkError (error : JsError) : bool :=
  if isTypeError error
  then existsb (fun msg => includes msg (message error)) networkErrorMessages
  else false.

Record Options := {
  maxRetries : nat;
  initialRetryDelay : Q;
  maxRetryDelay : Q
}.

(** The defaults of [useNetworkRecovery], which [ChatPage] does not
    override. *)
Definition defaultOptions : Options :=
  {| maxRetries := 5; initialRetryDelay := 1000; maxRetryDelay := 30000 |}.

(** [calculateRetryDelay(retryCount)], [random] being the value that
    [Math.random()] returns in this call. *)
Definition calculateRetryDelay (options : Options) (retryCount : nat)
    (random : Q) : Q :=
  let delay :=
    Qmin (initialRetryDelay options * 2 ^ Z.of_nat retryCount)
         (maxRetryDelay options) in
  (delay + random * 1000)%Q.

(** What [fetch] does: it rejects, or it resolves to a response with its
    [ok] flag, status code and JSON body. *)
Inductive FetchResult (A : Type) :=
| Rejects (error : JsError)
| Resolves (ok : bool) (code : nat) (body : A).

Arguments Rejects {A}.
Arguments Resolves {A}.

(** What the recovery loop calls out to, in order. *)
Inductive Call :=
| OnNetworkError
| OnRecoveryStart
| OnRecoverySuccess
| OnRecoveryFailed
| FetchStatus (requestId : string)
| FetchResume (requestId : string) (fromIndex : nat)
| SetTimeout (delay : Q)
| ClearTimeout (timer : nat).

(** The hook's React state and refs, the lines handed to the message
    processor ([processStreamLine]) and the calls made so far. *)
Record Client := {
  isRecovering : bool;
  retryCount : nat;
  lastError : option JsError;
  retryTimeoutRef : option nat;
  messageIndexRef : nat;
  messageHistoryRef : list (nat * string);
  processed : list string;
  calls : list Call
}.

Definition initialClient : Client :=
  {| isRecovering := false; retryCount := 0; lastError := None;
     retryTimeoutRef := None; messageIndexRef := 0; messageHistoryRef := [];
     processed := []; calls := [] |}.

(** [setState(prev => ({...prev, isRecovering, retryCount}))] *)
Definition setRecovering (recovering : bool) (count : nat) (c : Client)
  : Client :=
  {| isRecovering := recovering; retryCount := count;
     lastError := lastError c; retryTimeoutRef := retryTimeoutRef c;
     messageIndexRef := messageIndexRef c;
     messageHistoryRef := messageHistoryRef c;
     processed := processed c; calls := calls c |}.

Definition setLastError (error : option JsError) (c : Client) : Client :=
  {| isRecovering := isRecovering c; retryCount := retryCount c;
     lastError := error; retryTimeoutRef := retryTimeoutRef c;
     messageIndexRef := messageIndexRef c;
     messageHistoryRef := messageHistoryRef c;
     processed := processed c; calls := calls c |}.

Definition setRetryTimeout (timer : option nat) (c : Client) : Client :=
  {| isRecovering := isRecovering c; retryCount := retryCount c;
     lastError := lastError c; retryTimeoutRef := timer;
     messageIndexRef := messageIndexRef c;
     messageHistoryRef := messageHistoryRef c;
     processed := processed c; calls := calls c |}.

Definition setTracking (index : nat) (history : list (nat * string))
    (c : Client) : Client :=
  {| isRecovering := isRecovering c; retryCount := retryCount c;
     lastError := lastError c; retryTimeoutRef := retryTimeoutRef c;
     messageIndexRef := index; messageHistoryRef := history;
     processed := processed c; calls := calls c |}.

Definition call (what : Call) (c : Client) : Client :=
  {| isRecovering := isRecovering c; retryCount := retryCount c;
     lastError := lastError c; retryTimeoutRef := retryTimeoutRef c;
     messageIndexRef := messageIndexRef c;
     messageHistoryRef := messageHistoryRef c;
     processed := processed c; calls := calls c ++ [what] |}.

(** [processStreamLine(line, streamingContext)], as far as the recovery
    hook is concerned: the line reaches the message processor. *)
Definition processStreamLine (line : string) (c : Client) : Client :=
  {| isRecovering := isRecovering c; retryCount := retryCount c;
     lastError := lastError c; retryTimeoutRef := retryTimeoutRef c;
     messageIndexRef := messageIndexRef c;
     messageHistoryRef := messageHistoryRef c;
     processed := processed c ++ [line]; calls := calls c |}.

(** [trackMessage(message)]: the id is the cursor before its increment;
    the history keeps the last 100 entries. *)
Definition trackMessage (line : string) (c : Client) : nat * Client :=
  let id := messageIndexRef c in
  let history := messageHistoryRef c ++ [(id, line)] in
  let history' := if 100 <? length history then tail history else history in
  (id, setTracking (S id) history' c).

Definition resetTracking (c : Client) : Client :=
  setTracking 0 (messageHistoryRef c) c.

(** The body of the read loop of [sendMessage] for one line of the live
    stream: track, then process. *)
Definition receiveLine (line : string) (c : Client) : Client :=
  processStreamLine line (snd (trackMessage line c)).

(** The [window.setTimeout] handle: timers are numbered from 1. *)
Definition nextTimer (c : Client) : nat :=
  S (length (List.filter (fun what => match what with
                                      | SetTimeout _ => true
                                      | _ => false
                                      end) (calls c))).

Section Hook.

Context {Data : Type} `{!JsonCodec Data}.
Variable options : Options.

(** The network as the recovery loop meets it: what the status and the
    resume fetch of the attempt made after [n] failed ones do (the resume
    fetch also depends on the [fromIndex] sent), and what [Math.random()]
    returns when the delay after the [n]-th failure is computed. *)
Record Network := {
  statusFetch : nat -> FetchResult StatusResponse;
  resumeFetch : nat -> nat -> FetchResult (ResumeResponse Data);
  random : nat -> Q
}.

Variable network : Network.

Definition httpError (what : string) : JsError :=
  {| isTypeError := false; message := what |}.

(** [checkRequestStatus(requestId)].  A response that is not [ok] makes
    it throw a plain [Error] (whose message also carries the status
    code). *)
Definition checkRequestStatus (attempt : nat) (requestId : string)
    (c : Client) : Client * (JsError + StatusResponse) :=
  let c1 := call (FetchStatus requestId) c in
  match statusFetch network attempt with
  | Rejects error => (c1, inl error)
  | Resolves ok code body =>
      if ok then (c1, inr body)
      else (c1, inl (httpError "Status check failed"))
  end.

(** [resumeStreaming(requestId, fromIndex)] *)
Definition resumeStreaming (attempt : nat) (requestId : string)
    (fromIndex : nat) (c : Client)
  : Client * (JsError + ResumeResponse Data) :=
  let c1 := call (FetchResume requestId fromIndex) c in
  match resumeFetch network attempt fromIndex with
  | Rejects error => (c1, inl error)
  | Resolves ok code body =>
      if ok then (c1, inr body)
      else (c1, inl (httpError "Resume failed"))
  end.

(** The callback [ChatPage] passes as [onResumeMessages]: every resumed
    message is stringified and processed. *)
Definition onResumeMessages (resumedMessages : list (StreamResponse Data))
    (c : Client) : Client :=
  foldl (fun c message => processStreamLine (JSON_stringify message) c)
    c resumedMessages.

(** The [try] block of [attemptRecovery]. *)
Definition tryRecover (attempt : nat) (requestId : string) (c : Client)
  : Client * (JsError + unit) :=
  match checkRequestStatus attempt requestId c with
  | (c1, inl error) => (c1, inl error)
  | (c1, inr status) =>
      if RequestStatus_eqb (StatusResponse.status status) NOT_FOUND
      then (c1, inl (httpError "Request not found"))
      else
        match resumeStreaming attempt requestId (messageIndexRef c1) c1 with
        | (c2, inl error) => (c2, inl error)
        | (c2, inr resumeResponse) =>
            let c3 :=
              if 0 <? length (ResumeResponse.messages resumeResponse)
              then onResumeMessages (ResumeResponse.messages resumeResponse) c2
              else c2 in
            let c4 := setLastError None (setRecovering false 0 c3) in
            (call OnRecoverySuccess c4, inr tt)
        end
  end.

(** [attemptRecovery], the closure variable [retryCount] made an
    argument.  A timer that was set always fires.  [rounds] bounds the
    number of calls; [handleNetworkError] gives it enough. *)
Fixpoint attemptRecovery (rounds : nat) (requestId : string)
    (retryCount : nat) (c : Client) : option (bool * Client) :=
  match rounds with
  | 0 => None
  | S rounds' =>
      if maxRetries options <=? retryCount
      then Some (false, call OnRecoveryFailed (setRecovering false 0 c))
      else
        let c1 := setRecovering true (retryCount + 1) c in
        let c2 := if retryCount =? 0 then call OnRecoveryStart c1 else c1 in
        match tryRecover retryCount requestId c2 with
        | (c3, inr _) => Some (true, c3)
        | (c3, inl recoveryError) =>
            if negb (isNetworkError recoveryError)
            then Some (false, call OnRecoveryFailed (setRecovering false 0 c3))
            else
              let retryCount' := S retryCount in
              let delay :=
                calculateRetryDelay options retryCount'
                  (random network retryCount') in
              let timer := nextTimer c3 in
              let c4 := setRetryTimeout (Some timer) (call (SetTimeout delay) c3) in
              attemptRecovery rounds' requestId retryCount' c4
        end
  end.

Definition handleNetworkError (error : JsError) (requestId : string)
    (c : Client) : option (bool * Client) :=
  if negb (isNetworkError error) then Some (false, c)
  else
    let c1 := call OnNetworkError (setLastError (Some error) c) in
    let c2 :=
      match retryTimeoutRef c1 with
      | Some timer => call (ClearTimeout timer) c1
      | None => c1
      end in
    attemptRecovery (S (maxRetries options)) requestId 0 c2.

(** The number of recovery attempts made: each one starts with exactly
    one status poll. *)
Definition attempts (c : Client) : nat :=
  length (List.filter (fun what => match what with
                                   | FetchStatus _ => true
                                   | _ => false
                                   end) (calls c)).

(** What the network gives the [try] block of an attempt that sends the
    cursor [fromIndex]: the error thrown, or the resume response. *)
Definition networkOutcome (attempt fromIndex : nat)
  : JsError + ResumeResponse Data :=
  match statusFetch network attempt with
  | Rejects error => inl error
  | Resolves ok _ status =>
      if negb ok then inl (httpError "Status check failed")
      else if RequestStatus_eqb (StatusResponse.status status) NOT_FOUND
      then inl (httpError "Request not found")
      else
        match resumeFetch network attempt fromIndex with
        | Rejects error => inl error
        | Resolves ok' _ body =>
            if ok' then inr body else inl (httpError "Resume failed")
        end
  end.

(** The attempt fails with an error that classifies as a network error. *)
Definition networkFails (attempt fromIndex : nat) : Prop :=
  exists error,
    networkOutcome attempt fromIndex = inl error /\
    isNetworkError error = true.

(** The attempt gets its resume response. *)
Definition succeeds (attempt fromIndex : nat) : Prop :=
  exists response, networkOutcome attempt fromIndex = inr response.

(** The timers set so far. *)
Definition timers (c : Client) : nat :=
  length (List.filter (fun what => match what with
                                   | SetTimeout _ => true
                                   | _ => false
                                   end) (calls c)).

End Hook.

End Recovery.

(** ** Vocabulary of the properties *)

Section Vocabulary.

Context {Data : Type} `{!JsonCodec Data}.

(** The response the generator builds for an engine message. *)
Definition dataResponse (sdkMessage : Data) : StreamResponse Data :=
  StreamResponse.mk StreamResponse.claude_json (Some sdkMessage) None.

(** The text [appendMessage] has written after appending the given
    messages, one after the other, to an empty file. *)
Definition logText (entries : list (StreamResponse Data)) : string :=
  foldr (fun m rest => JSON_stringify m +:+ String LF rest) EmptyString entries.

(** The same text without its last line feed, for a first entry and the
    ones after it. *)
Fixpoint joined (first : StreamResponse Data)
    (entries : list (StreamResponse Data)) : string :=
  match entries with
  | [] => JSON_stringify first
  | next :: rest => JSON_stringify first +:+ String LF (joined next rest)
  end.

(** The state after [appendMessage] was called for the given messages,
    one after the other. *)
Fixpoint appendAll (runtime : Runtime) (encodedProjectName requestId : string)
    (entries : list (StreamResponse Data)) (s : Server) : Exn + Server :=
  match entries with
  | [] => inr s
  | m :: rest =>
      match appendMessage runtime encodedProjectName requestId m s with
      | inl e => inl e
      | inr s1 => appendAll runtime encodedProjectName requestId rest s1
      end
  end.

(** The trace in which each of the given messages is written to the log
    of [requestId] and then yielded. *)
Definition writtenThenYielded (requestId : string)
    (entries : list (StreamResponse Data)) : list (Event Data) :=
  flat_map (fun m => [Persisted requestId m; Yielded m]) entries.

(** The registry status after the given messages were recorded. *)
Definition statusAfterAll (entries : list (StreamResponse Data))
    (old : RequestStatus) : RequestStatus :=
  foldl (fun status m => statusAfter m status) old entries.

(** What the code relies on from the platform's JSON for one message:
    [JSON.parse] undoes [JSON.stringify], and the text of an object is on
    one line, from its opening to its closing brace. *)
Definition wellEncoded (m : StreamResponse Data) : Prop :=
  JSON_parse (JSON_stringify m) = Some m /\
  lacks LF (JSON_stringify m) = true /\
  exists body, JSON_stringify m = String "{"%char (body +:+ "}").

(** The terminal response for the way the [try] block ends. *)
Definition terminalOf (ending : EngineEnd) : StreamResponse Data :=
  match ending with
  | Returns => doneResponse
  | Throws (AbortError _) => abortedResponse
  | Throws (OtherError text) => errorResponse text
  end.


(** Whether the authentication block lets the run reach the engine. *)
Definition authPasses (runtime : Runtime) (request : ChatRequest) : bool :=
  match ChatRequest.authMode request with
  | Some mode =>
      if String.eqb mode "api_key" then
        match getEnv runtime "ANTHROPIC_API_KEY" with
        | Some key => truthy key
        | None => false
        end
      else true
  | None => true
  end.

(** What the loop of the generator meets: the engine's run, or, when the
    authentication block throws, no message and that throw. *)
Definition runOf (runtime : Runtime) (query : Engine Data)
    (request : ChatRequest) : EngineRun Data :=
  if authPasses runtime request then
    let message := ChatRequest.message request in
    query
      (if startsWith "/" message
       then String.substring 1 (String.length message - 1) message
       else message)
      (ChatRequest.sessionId request) (ChatRequest.allowedTools request)
      (ChatRequest.workingDirectory request)
  else
    {| sdkMessages := [];
       ending := Throws (OtherError "API Key mode requested but ANTHROPIC_API_KEY not found") |}.


End Vocabulary.

Definition emptyServer : Server :=
  {| requestStatuses := ∅; files := ∅; requestAbortControllers := ∅;
     clock := 0 |}.


(** ** A concrete codec and concrete scenarios *)

(** JSON for stream responses whose [data] is a boolean and whose error
    text needs no escaping. *)
Module BoolJson.

Definition DQ : ascii := "034"%char.

Definition quoted (s : string) : string :=
  String DQ (s +:+ String DQ EmptyString).

Definition tagText (tag : StreamResponse.Tag) : string :=
  match tag with
  | StreamResponse.claude_json => "claude_json"
  | StreamResponse.error => "error"
  | StreamResponse.done => "done"
  | StreamResponse.aborted => "aborted"
  end.

Definition stringify (m : StreamResponse bool) : string :=
  "{" +:+ quoted "type" +:+ ":" +:+ quoted (tagText (StreamResponse.type m))
  +:+ match StreamResponse.data m with
      | Some true => "," +:+ quoted "data" +:+ ":true"
      | Some false => "," +:+ quoted "data" +:+ ":false"
      | None => EmptyString
      end
  +:+ match StreamResponse.errorText m with
      | Some text => "," +:+ quoted "error" +:+ ":" +:+ quoted text
      | None => EmptyString
      end
  +:+ "}".

Definition errorPrefix : string :=
  "{" +:+ quoted "type" +:+ ":" +:+ quoted "error" +:+ "," +:+ quoted "error"
  +:+ ":" +:+ String DQ EmptyString.

Definition parse (line : string) : option (StreamResponse bool) :=
  let fixed :=
    [StreamResponse.mk StreamResponse.done None None;
     StreamResponse.mk StreamResponse.aborted None None;
     StreamResponse.mk StreamResponse.claude_json (Some true) None;
     StreamResponse.mk StreamResponse.claude_json (Some false) None] in
  match List.find (fun m => String.eqb (stringify m) line) fixed with
  | Some m => Some m
  | None =>
      let n := String.length line in
      let k := String.length errorPrefix in
      if startsWith errorPrefix line &&
         String.eqb (String.substring (n - 2) 2 line) (String DQ "}")
      then Some (StreamResponse.mk StreamResponse.error None
                   (Some (String.substring k (n - k - 2) line)))
      else None
  end.

#[export] Instance codec : JsonCodec bool :=
  {| JSON_stringify := stringify; JSON_parse := parse |}.

End BoolJson.

Module Scenario.

Import BoolJson.

(** A runtime whose only environment variable is [HOME]. *)
Definition runtimeAt (home : string) : Runtime :=
  {| getEnv := fun key => if String.eqb key "HOME" then Some home else None;
     removeThrows := fun _ => false |}.

(** The same, with every removal of a file failing. *)
Definition runtimeNoRemove (home : string) : Runtime :=
  {| getEnv := fun key => if String.eqb key "HOME" then Some home else None;
     removeThrows := fun _ => true |}.

(** An engine that yields [true] then [false] and ends normally. *)
Definition twoMessages : Engine bool :=
  fun _ _ _ _ => {| sdkMessages := [true; false]; ending := Returns |}.

Definition chat (requestId : string) (workingDirectory : option string)
  : ChatRequest :=
  ChatRequest.mk "hello" None requestId None workingDirectory None.

(** The server after one chat turn [r1] in project [/w]. *)
Definition afterTurn (home : string) : Server :=
  (executeClaudeCommand (runtimeAt home) twoMessages
     (chat "r1" (Some "/w"%string)) emptyServer).1.1.


(** The log file of request [r1] in project [/w]. *)
Definition logPath (home : string) : string :=
  home +:+ "/.claude/projects/_w/streaming/r1.jsonl".

(** A network whose first [failures] attempts fail with
    [Failed to fetch] and which answers after that: the request has
    completed with five messages, and the resume call returns the ones
    from [fromIndex] on. *)
Definition fetchFailed : Recovery.JsError :=
  {| Recovery.isTypeError := true; Recovery.message := "Failed to fetch" |}.

Definition serverLog : list (StreamResponse bool) :=
  [dataResponse true; dataResponse false; dataResponse true;
   dataResponse false; doneResponse].

Definition flaky (failures : nat) : Recovery.Network :=
  {| Recovery.statusFetch := fun attempt =>
       if attempt <? failures then Recovery.Rejects fetchFailed
       else Recovery.Resolves true 200
              (StatusResponse.mk "r1" COMPLETED 5 0);
     Recovery.resumeFetch := fun _ fromIndex =>
       Recovery.Resolves true 200
         (ResumeResponse.mk (drop fromIndex serverLog) 5 true);
     Recovery.random := fun _ => 1 # 2 |}.

(** A client that has received two lines of the live stream. *)
Definition twoLinesIn : Recovery.Client :=
  Recovery.receiveLine (JSON_stringify (dataResponse false))
    (Recovery.receiveLine (JSON_stringify (dataResponse true))
       (Recovery.resetTracking Recovery.initialClient)).

End Scenario.

(** ** More of the same files *)

(** *** streamingFileManager.ts: the sweeper's timer and the shutdown *)

Module CleanupTimer.

(** The module variable [cleanupInterval] and the interval timers of the
    process: the handles that are running and the number of timers ever
    started ([setInterval] numbers its handles from 1, so a handle is
    truthy). *)
Record t := mk {
  cleanupInterval : option nat;
  running : gset nat;
  started : nat
}.

Definition initial : t := mk None ∅ 0.

Definition startCleanupInterval (s : t) : t :=
  match cleanupInterval s with
  | Some _ => s
  | None =>
      let handle := S (started s) in
      mk (Some handle) ({[handle]} ∪ running s) handle
  end.

Definition stopCleanupInterval (s : t) : t :=
  match cleanupInterval s with
  | Some handle => mk None (running s ∖ {[handle]}) (started s)
  | None => s
  end.

(** The calls the rest of the backend makes, in any order. *)
Inductive Call := Start | Stop.

Definition call (s : t) (what : Call) : t :=
  match what with
  | Start => startCleanupInterval s
  | Stop => stopCleanupInterval s
  end.

End CleanupTimer.

(** [runtime.removeDir(dir)] removes the directory with all it holds: the
    files whose path goes through [dir]. *)
Definition underDirectory (dir path : string) : bool :=
  startsWith (dir +:+ "/") path.

Definition removeDir (dir : string) (f : gmap string string)
  : gmap string string :=
  filter (fun entry => underDirectory dir entry.1 = false) f.

(** [cleanupAllStreamingFiles]: the path computation is outside the
    [try]; [removeDirThrows] tells whether [runtime.removeDir] fails, in
    which case the [catch] logs and the registry is not cleared. *)
Definition cleanupAllStreamingFiles (runtime : Runtime)
    (removeDirThrows : bool) (encodedProjectName : string) (s : Server)
  : Exn + Server :=
  match getStreamingDir runtime encodedProjectName with
  | inl e => inl e
  | inr streamingDir =>
      if removeDirThrows then inr s
      else inr (setStatuses ∅ (setFiles (removeDir streamingDir (files s)) s))
  end.

(** *** The number in a template literal *)

Definition decimalDigit (n : nat) : ascii := ascii_of_nat (48 + n).

Fixpoint decimalFrom (rounds n : nat) (text : string) : string :=
  match rounds with
  | 0 => text
  | S rounds' =>
      let text' := String (decimalDigit (n mod 10)) text in
      if n <? 10 then text' else decimalFrom rounds' (n / 10) text'
  end.

(** [`${n}`] for a non-negative integer [n] below 10^21: its decimal
    digits.  This is how [resumeStreaming] puts [fromIndex] in the URL. *)
Definition decimal (n : nat) : string := decimalFrom (S n) n EmptyString.

(** *** useNetworkRecovery.ts and ChatPage.tsx: the live stream *)

Module ChatPage.

Import Recovery.

(** The delays of the timers set so far, in order. *)
Definition delays (c : Client) : list Q :=
  flat_map (fun what => match what with
                        | SetTimeout delay => [delay]
                        | _ => []
                        end) (calls c).

(** [chunk.split("\n").filter((line) => line.trim())] *)
Definition chunkLines (chunk : string) : list string :=
  List.filter (fun line => truthy (trim line)) (split LF chunk).

Section Page.

Context {Data : Type} `{!JsonCodec Data}.
Variable options : Options.
Variable network : Network (Data := Data).

(** Whether the message processor, handed this line, calls
    [onAbortRequest] (which sets [shouldAbort]). *)
Variable aborts : string -> bool.

(** The [for (const line of lines)] loop of [sendMessage]; the result
    carries [shouldAbort]. *)
Fixpoint processLines (lines : list string) (c : Client) : bool * Client :=
  match lines with
  | [] => (false, c)
  | line :: rest =>
      let c1 := receiveLine line c in
      if aborts line then (true, c1) else processLines rest c1
  end.

(** The [while (true)] loop over the chunks the reader delivers before it
    is done or throws. *)
Fixpoint readStream (chunks : list string) (c : Client) : bool * Client :=
  match chunks with
  | [] => (false, c)
  | chunk :: rest =>
      match processLines (chunkLines chunk) c with
      | (true, c1) => (true, c1)
      | (false, c1) => readStream rest c1
      end
  end.

(** How the [try] block ends after the chunks: the reader reports
    [done], or something throws: a [read()], or, before any chunk, the
    [fetch] or the check of the response body. *)
Inductive StreamEnd := Done | ReadThrows (error : JsError).

(** [sendMessage] for a message that is sent, from [resetTracking()] on
    (the chat messages and the request state of the page are left out).
    The result is what [handleNetworkError] returned, when it was called,
    and the client; [None] only when the recovery loop runs out of
    rounds. *)
Definition sendMessage (requestId : string) (chunks : list string)
    (ending : StreamEnd) (c : Client) : option (option bool * Client) :=
  match readStream chunks (resetTracking c) with
  | (true, c1) => Some (None, c1)
  | (false, c1) =>
      match ending with
      | Done => Some (None, c1)
      | ReadThrows error =>
          match handleNetworkError options network error requestId c1 with
          | Some (recovered, c2) => Some (Some recovered, c2)
          | None => None
          end
      end
  end.

End Page.

End ChatPage.

(** *** useAuthMode *)

Module AuthMode.

(** [type AuthMode = "api_key" | "subscription" | "auto"] *)
Inductive AuthMode := api_key | subscription | auto.

Definition AUTH_MODE_STORAGE_KEY : string := "claude-webui-auth-mode".

(** The string a mode is at run time. *)
Definition text (mode : AuthMode) : string :=
  match mode with
  | api_key => "api_key"
  | subscription => "subscription"
  | auto => "auto"
  end.

(** [["api_key", "subscription", "auto"].includes(saved)] with the cast
    [saved as AuthMode]. *)
Definition ofText (saved : string) : option AuthMode :=
  if String.eqb saved "api_key" then Some api_key
  else if String.eqb saved "subscription" then Some subscription
  else if String.eqb saved "auto" then Some auto
  else None.

(** The effect run on mount: the state [authMode] after it. *)
Definition loadAuthMode (localStorage : gmap string string)
    (authMode : AuthMode) : AuthMode :=
  match localStorage !! AUTH_MODE_STORAGE_KEY with
  | Some saved =>
      if truthy saved
      then match ofText saved with
           | Some mode => mode
           | None => authMode
           end
      else authMode
  | None => authMode
  end.

(** [setAuthMode(mode)]: the state and the storage after it. *)
Definition setAuthMode (mode : AuthMode) (localStorage : gmap string string)
  : AuthMode * gmap string string :=
  (mode, <[AUTH_MODE_STORAGE_KEY := text mode]> localStorage).

End AuthMode.

(** ** More vocabulary *)


(** A line as the stream carries it: no line feed inside, and neither
    empty nor white space at either end. *)
Definition cleanLine (line : string) : Prop :=
  lacks LF line = true /\ truthy line = true /\ trim line = line.

(** The text of the given lines, each ended by a line feed. *)
Definition linesText (lines : list string) : string :=
  foldr (fun line rest => line +:+ String LF rest) EmptyString lines.



(** ** More scenarios *)

Module MoreScenarios.

Import BoolJson Scenario.

(** A server whose only file is the log of request [r1] in project [/w],
    with a line in the middle that is not JSON. *)
Definition damagedLog : Server :=
  setFiles
    {[ logPath "/home/user" :=
         (logText [dataResponse true] +:+ "garbage"
          +:+ String LF (logText [doneResponse (Data:=bool)]))%string ]}
    emptyServer.

(** The server after one more message was appended to the log of the
    finished turn. *)
Definition afterOneMore : Server :=
  match appendAll (runtimeAt "/home/user") "_w" "r1" [dataResponse true]
          (afterTurn "/home/user") with
  | inr s => s
  | inl _ => emptyServer
  end.

(** A chat request in [api_key] mode, and an engine that yields nothing. *)
Definition apiKeyChat : ChatRequest :=
  ChatRequest.mk "hello" None "r1" None (Some "/w"%string)
    (Some "api_key"%string).

Definition silent : Engine bool :=
  fun _ _ _ _ => {| sdkMessages := []; ending := Returns |}.

(** A runtime without environment. *)
Definition runtimeNoEnv : Runtime :=
  {| getEnv := fun _ => None; removeThrows := fun _ => false |}.

(** A network whose first [failures] attempts fail with [Failed to
    fetch] and whose later attempts reach the backend in state [s]: the
    two fetches get what the two handlers answer. *)
Definition reconnecting (failures : nat) (runtime : Runtime) (s : Server)
  : Recovery.Network :=
  {| Recovery.statusFetch := fun attempt =>
       if attempt <? failures then Recovery.Rejects fetchFailed
       else match handleStatusRequest "r1" s with
            | Json body => Recovery.Resolves true 200 body
            | JsonError code _ =>
                Recovery.Resolves false code
                  (StatusResponse.mk "r1" NOT_FOUND 0 0)
            end;
     Recovery.resumeFetch := fun attempt fromIndex =>
       match handleResumeRequest runtime "r1" (Some (decimal fromIndex)) s with
       | Json body => Recovery.Resolves true 200 body
       | JsonError code _ =>
           Recovery.Resolves false code (ResumeResponse.mk [] 0 false)
       end;
     Recovery.random := fun _ => 1 # 2 |}.

(** The registry entry of request [r1] after its turn. *)
Definition turnInfo : StreamingFileInfo :=
  StreamingFileInfo.mk "r1" (logPath "/home/user") COMPLETED 3 0.

End MoreScenarios.


(** * Part II: the properties *)

(** ** Strings *)

Section StringFacts.

Implicit Types (s t : string) (c : ascii).

Lemma append_assoc s t u : (s +:+ t) +:+ u = s +:+ (t +:+ u).
Proof. induction s as [|c s IH]; simpl; [reflexivity | now rewrite IH]. Qed.

Lemma append_empty_r s : s +:+ EmptyString = s.
Proof. induction s as [|c s IH]; simpl; [reflexivity | now rewrite IH]. Qed.

Lemma truthy_true s : truthy s = true <-> s <> EmptyString.
Proof.
  unfold truthy. destruct (String.eqb_spec s EmptyString); simpl; split;
    congruence.
Qed.

Lemma split_nonempty c s : split c s <> [].
Proof.
  destruct s as [|a s]; simpl; [discriminate|].
  destruct (Ascii.eqb a c); [discriminate|].
  destruct (split c s); discriminate.
Qed.

(** Splitting distributes over a separator. *)
Lemma split_app c s t :
  split c (s +:+ String c t) = split c s ++ split c t.
Proof.
  induction s as [|a s IH]; simpl.
  - now rewrite Ascii.eqb_refl.
  - destruct (Ascii.eqb a c); [now rewrite IH|].
    rewrite IH. pose proof (split_nonempty c s).
    destruct (split c s); [congruence | reflexivity].
Qed.

Lemma split_lacks c s : lacks c s = true -> split c s = [s].
Proof.
  induction s as [|a s IH]; simpl; [reflexivity|].
  destruct (Ascii.eqb a c); simpl; [discriminate|].
  intros H. now rewrite (IH H).
Qed.

Lemma lacks_app c s t :
  lacks c (s +:+ t) = lacks c s && lacks c t.
Proof.
  induction s as [|a s IH]; simpl; [reflexivity|].
  rewrite IH. now rewrite andb_assoc.
Qed.

Lemma trimEnd_app s t :
  trimEnd t <> EmptyString -> trimEnd (s +:+ t) = s +:+ trimEnd t.
Proof.
  intros Ht. induction s as [|a s IH]; simpl; [reflexivity|].
  rewrite IH. destruct (s +:+ trimEnd t) eqn:E; [|reflexivity].
  destruct s; simpl in E; [congruence | discriminate].
Qed.

Lemma indexOf_app x (l k : list string) :
  indexOf x (l ++ k) =
  match indexOf x l with
  | Some i => Some i
  | None => (fun j => length l + j) <$> indexOf x k
  end.
Proof.
  induction l as [|y l IH]; simpl.
  - now destruct (indexOf x k).
  - destruct (String.eqb y x); [reflexivity|].
    rewrite IH. destruct (indexOf x l); [reflexivity|].
    now destruct (indexOf x k).
Qed.

Lemma indexOf_lt x (l : list string) i : indexOf x l = Some i -> i < length l.
Proof.
  revert i. induction l as [|y l IH]; simpl; [discriminate|].
  intros i. destruct (String.eqb y x).
  - intros [= <-]. lia.
  - destruct (indexOf x l) as [j|]; [|discriminate].
    intros [= <-]. specialize (IH j eq_refl). lia.
Qed.

Lemma indexOf_None x (l : list string) :
  indexOf x l = None <-> ~ List.In x l.
Proof.
  induction l as [|y l IH]; simpl; [tauto|].
  destruct (String.eqb_spec y x) as [->|Hne].
  - split; [discriminate | tauto].
  - destruct (indexOf x l) as [j|].
    + split; [discriminate|]. intros Hnot.
      assert (Hl : ~ List.In x l) by tauto. apply IH in Hl. discriminate.
    + split; [|reflexivity]. intros _ [Heq|Hin]; [congruence|].
      now apply IH in Hin.
Qed.

Lemma parseDigits_Some s z : parseDigits s (Some z) <> None.
Proof.
  revert z. induction s as [|c s IH]; intros z; simpl; [discriminate|].
  destruct (digitValue c); [apply IH | discriminate].
Qed.

(** [parseInt] gives [NaN] exactly when no digit follows the white space
    and the sign. *)
Lemma parseInt_NaN s :
  parseInt s = NaN <->
  match afterSign s with
  | EmptyString => True
  | String c _ => digitValue c = None
  end.
Proof.
  unfold parseInt.
  destruct (afterSign s) as [|c digits]; simpl; [tauto|].
  destruct (digitValue c) as [d|]; [|tauto].
  destruct (parseDigits digits (Some (10 * 0 + d)%Z)) eqn:Hd.
  - split; discriminate.
  - now apply parseDigits_Some in Hd.
Qed.

End StringFacts.

(** ** The stream log: what is written is what is read *)

Section StreamLog.

Context {Data : Type} `{!JsonCodec Data}.

Implicit Types (m : StreamResponse Data) (entries : list (StreamResponse Data)).

Lemma logText_app entries1 entries2 :
  logText (entries1 ++ entries2) = logText entries1 +:+ logText entries2.
Proof.
  induction entries1 as [|m l IH]; simpl; [reflexivity|].
  now rewrite IH, append_assoc.
Qed.

Lemma wellEncoded_trimStart m rest :
  wellEncoded m -> trimStart (JSON_stringify m +:+ rest) = JSON_stringify m +:+ rest.
Proof. intros (_ & _ & body & ->). reflexivity. Qed.

Lemma wellEncoded_trimEnd m :
  wellEncoded m ->
  trimEnd (JSON_stringify m +:+ String LF EmptyString) = JSON_stringify m.
Proof.
  intros (_ & _ & body & ->).
  change (String "{" (body +:+ "}") +:+ String LF EmptyString)
    with (String "{"%char ((body +:+ "}") +:+ String LF EmptyString)).
  rewrite append_assoc.
  change (String "{" (body +:+ "}" +:+ String LF EmptyString))
    with (String "{" body +:+ ("}" +:+ String LF EmptyString)).
  rewrite trimEnd_app; [reflexivity | discriminate].
Qed.

Lemma wellEncoded_truthy m : wellEncoded m -> truthy (trim (JSON_stringify m)) = true.
Proof.
  intros (_ & _ & body & ->). apply truthy_true.
  unfold trim. simpl trimStart.
  change (String "{" (body +:+ "}")) with (String "{" body +:+ "}").
  rewrite trimEnd_app; [|discriminate].
  discriminate.
Qed.

Lemma joined_nonempty m entries : wellEncoded m -> joined m entries <> EmptyString.
Proof. intros (_ & _ & body & E). destruct entries; simpl; rewrite E; discriminate. Qed.

Lemma trimEnd_logText m entries :
  Forall wellEncoded (m :: entries) ->
  trimEnd (logText (m :: entries)) = joined m entries.
Proof.
  revert m. induction entries as [|next rest IH]; intros m Hall.
  - simpl. apply wellEncoded_trimEnd. now inversion Hall.
  - inversion Hall as [|? ? Hm Hrest]; subst.
    change (logText (m :: next :: rest))
      with (JSON_stringify m +:+ String LF (logText (next :: rest))).
    change (String LF (logText (next :: rest)))
      with (String LF EmptyString +:+ logText (next :: rest)).
    rewrite <- append_assoc, trimEnd_app.
    + rewrite (IH next Hrest). now rewrite append_assoc.
    + rewrite (IH next Hrest). apply joined_nonempty. now inversion Hrest.
Qed.

Lemma split_joined m entries :
  Forall wellEncoded (m :: entries) ->
  split LF (joined m entries) = map JSON_stringify (m :: entries).
Proof.
  revert m. induction entries as [|next rest IH]; intros m Hall;
    inversion Hall as [|? ? Hm Hrest]; subst.
  - simpl. apply split_lacks. apply Hm.
  - simpl joined. rewrite split_app, (IH next Hrest).
    rewrite split_lacks by apply Hm. reflexivity.
Qed.

Lemma filter_written entries :
  Forall wellEncoded entries ->
  List.filter (fun line => truthy (trim line)) (map JSON_stringify entries)
  = map JSON_stringify entries.
Proof.
  induction 1 as [|x l Hx Hl IH]; [reflexivity|].
  cbn [map List.filter]. now rewrite (wellEncoded_truthy x Hx), IH.
Qed.

(** The lines the reader sees are the lines that were written. *)
Lemma fileLines_logText entries :
  Forall wellEncoded entries ->
  fileLines (logText entries) = map JSON_stringify entries.
Proof.
  intros Hall. destruct entries as [|m entries]; [reflexivity|].
  assert (Htrim : trim (logText (m :: entries)) = joined m entries).
  { unfold trim.
    replace (trimStart (logText (m :: entries))) with (logText (m :: entries)).
    - now apply trimEnd_logText.
    - symmetry. simpl. apply (wellEncoded_trimStart m). now inversion Hall. }
  unfold fileLines. rewrite Htrim, split_joined by assumption.
  now apply filter_written.
Qed.

(** The loop makes exactly the rounds it needs: more change nothing. *)
Lemma readLoop_rounds (lines : list string) rounds i :
  (Z.of_nat (length lines) - i <= Z.of_nat rounds)%Z ->
  readLoop (Data:=Data) rounds i lines
  = readLoop (Z.to_nat (Z.of_nat (length lines) - i)) i lines.
Proof.
  revert i. induction rounds as [|rounds IH]; intros i Hle.
  - replace (Z.to_nat (Z.of_nat (length lines) - i)) with 0 by lia.
    reflexivity.
  - simpl. destruct (Z.ltb_spec i (Z.of_nat (length lines))) as [Hlt|Hge].
    + replace (Z.to_nat (Z.of_nat (length lines) - i))
        with (S (Z.to_nat (Z.of_nat (length lines) - (i + 1)))) by lia.
      simpl. destruct (Z.ltb_spec i (Z.of_nat (length lines))); [|lia].
      f_equal. apply IH. lia.
    + replace (Z.to_nat (Z.of_nat (length lines) - i)) with 0 by lia.
      reflexivity.
Qed.

(** From a natural index, the loop parses the lines from there on. *)
Lemma readLoop_drop (lines : list string) rounds k :
  length lines - k <= rounds ->
  readLoop rounds (Z.of_nat k) lines
  = flat_map (fun line => parseLine (Some line)) (drop k lines).
Proof.
  revert k. induction rounds as [|rounds IH]; intros k Hle.
  - rewrite drop_ge by lia. reflexivity.
  - simpl. destruct (Z.ltb_spec (Z.of_nat k) (Z.of_nat (length lines))) as [Hlt|Hge].
    + assert (Hk : k < length lines) by lia.
      destruct (lookup_lt_is_Some_2 lines k Hk) as [line Hline].
      unfold lineAt. destruct (Z.ltb_spec (Z.of_nat k) 0); [lia|].
      rewrite Nat2Z.id, Hline.
      rewrite (drop_S _ _ _ Hline). simpl.
      replace (Z.of_nat k + 1)%Z with (Z.of_nat (S k)) by lia.
      rewrite IH by lia. reflexivity.
    + rewrite drop_ge by lia. reflexivity.
Qed.

Lemma readMessages_nat (lines : list string) k :
  readMessages (Num (Z.of_nat k)) lines
  = flat_map (fun line => parseLine (Some line)) (drop k lines).
Proof. unfold readMessages. apply readLoop_drop. lia. Qed.

Lemma parse_written entries :
  Forall wellEncoded entries ->
  flat_map (fun line => parseLine (Some line)) (map JSON_stringify entries)
  = entries.
Proof.
  induction 1 as [|m l Hm Hl IH]; [reflexivity|].
  cbn [map flat_map]. rewrite IH. unfold parseLine.
  destruct Hm as (-> & _). reflexivity.
Qed.

(** Reading a written log from index [k] gives the entries from [k] on;
    beyond the end this is the empty list. *)
Lemma readMessages_logText entries k :
  Forall wellEncoded entries ->
  readMessages (Num (Z.of_nat k)) (fileLines (logText entries))
  = drop k entries.
Proof.
  intros Hall. rewrite fileLines_logText, readMessages_nat by assumption.
  rewrite <- fmap_drop. apply parse_written. now apply Forall_drop.
Qed.

Lemma readMessages_NaN (lines : list string) :
  readMessages (Data:=Data) NaN lines = [].
Proof. reflexivity. Qed.

End StreamLog.

(** ** Paths of log files *)

Section Paths.

Variable runtime : Runtime.

Lemma getStreamingFilePath_inr encodedProjectName requestId path :
  getStreamingFilePath runtime encodedProjectName requestId = inr path <->
  exists home,
    getEnv runtime "HOME" = Some home /\ truthy home = true /\
    path = home +:+ "/.claude/projects/" +:+ encodedProjectName
           +:+ "/streaming/" +:+ requestId +:+ ".jsonl".
Proof.
  unfold getStreamingFilePath, getStreamingDir.
  destruct (getEnv runtime "HOME") as [home|].
  - destruct (truthy home) eqn:Hhome.
    + rewrite !append_assoc. simpl. split.
      * intros [= <-]. now exists home.
      * intros (home' & [= <-] & _ & ->). reflexivity.
    + split; [discriminate|]. intros (home' & [= <-] & ? & _). congruence.
  - split; [discriminate|]. intros (home' & ? & _). congruence.
Qed.

(** With [HOME] set, the path does not depend on anything else. *)
Lemma getStreamingFilePath_home home encodedProjectName requestId :
  getEnv runtime "HOME" = Some home -> truthy home = true ->
  getStreamingFilePath runtime encodedProjectName requestId
  = inr (home +:+ "/.claude/projects/" +:+ encodedProjectName
         +:+ "/streaming/" +:+ requestId +:+ ".jsonl").
Proof. intros Hh Ht. apply getStreamingFilePath_inr. now exists home. Qed.


End Paths.

(** The components of a log file's path. *)
Lemma split_logPath home encodedProjectName requestId :
  split "/" (home +:+ "/.claude/projects/" +:+ encodedProjectName
             +:+ "/streaming/" +:+ requestId +:+ ".jsonl")
  = split "/" home ++ [".claude"; "projects"]%string
    ++ split "/" encodedProjectName ++ ["streaming"%string]
    ++ split "/" (requestId +:+ ".jsonl").
Proof.
  change ("/.claude/projects/" +:+ encodedProjectName +:+ "/streaming/"
          +:+ requestId +:+ ".jsonl")
    with (String "/" (".claude" +:+ String "/" ("projects" +:+
            String "/" (encodedProjectName +:+ String "/" ("streaming" +:+
              String "/" (requestId +:+ ".jsonl")))))).
  now rewrite !split_app.
Qed.

(** The handler's structural check never rejects a path made by
    [getStreamingFilePath]. *)
Lemma logPath_structure home encodedProjectName requestId :
  exists projectsIndex,
    indexOf "projects"
      (split "/" (home +:+ "/.claude/projects/" +:+ encodedProjectName
                  +:+ "/streaming/" +:+ requestId +:+ ".jsonl"))
    = Some projectsIndex /\
    (length (split "/" (home +:+ "/.claude/projects/" +:+ encodedProjectName
                        +:+ "/streaming/" +:+ requestId +:+ ".jsonl"))
     <=? projectsIndex + 2) = false.
Proof.
  rewrite split_logPath, indexOf_app.
  pose proof (split_nonempty "/" encodedProjectName) as Hp.
  pose proof (split_nonempty "/" (requestId +:+ ".jsonl")) as Hr.
  assert (Hlen : 1 <= length (split "/" encodedProjectName)
                 /\ 1 <= length (split "/" (requestId +:+ ".jsonl"))).
  { destruct (split "/" encodedProjectName), (split "/" (requestId +:+ ".jsonl"));
      simpl; try congruence; lia. }
  destruct (indexOf "projects" (split "/" home)) as [i|] eqn:Hi.
  - exists i. split; [reflexivity|]. apply indexOf_lt in Hi.
    apply Nat.leb_gt. rewrite !length_app. simpl. lia.
  - exists (length (split "/" home) + 1). split; [reflexivity|].
    apply Nat.leb_gt. rewrite !length_app. simpl. lia.
Qed.

(** When no directory on the way to [HOME] is called [projects] and the
    project name has no slash, the handler recovers the project name. *)
Lemma logPath_projectName home encodedProjectName requestId :
  ~ List.In "projects"%string (split "/" home) ->
  lacks "/" encodedProjectName = true ->
  let pathParts :=
    split "/" (home +:+ "/.claude/projects/" +:+ encodedProjectName
               +:+ "/streaming/" +:+ requestId +:+ ".jsonl") in
  exists projectsIndex,
    indexOf "projects" pathParts = Some projectsIndex /\
    (length pathParts <=? projectsIndex + 2) = false /\
    nth (projectsIndex + 1) pathParts EmptyString = encodedProjectName.
Proof.
  intros Hhome Hp pathParts. subst pathParts.
  destruct (logPath_structure home encodedProjectName requestId)
    as (i & Hi & Hlen).
  exists i. split; [exact Hi|]. split; [exact Hlen|].
  rewrite split_logPath, indexOf_app in Hi.
  apply indexOf_None in Hhome. rewrite Hhome in Hi. simpl in Hi.
  injection Hi as <-.
  rewrite split_logPath, (split_lacks _ _ Hp).
  rewrite app_nth2 by lia.
  replace (length (split "/" home) + 1 + 1 - length (split "/" home)) with 2 by lia.
  reflexivity.
Qed.

Lemma encodeURIComponent_lacks_slash s :
  lacks "/" (encodeURIComponent s) = true.
Proof.
  induction s as [|c s IH]; [reflexivity|].
  cbn [encodeURIComponent]. rewrite lacks_app, IH, andb_true_r.
  destruct c as [[] [] [] [] [] [] [] []]; vm_compute; reflexivity.
Qed.

Lemma getEncodedProjectName_Some workingDirectory name :
  getEncodedProjectName workingDirectory = Some name ->
  truthy name = true /\ lacks "/" name = true.
Proof.
  unfold getEncodedProjectName.
  destruct workingDirectory as [dir|]; [|discriminate].
  destruct (truthy dir) eqn:Hdir; [|discriminate].
  intros [= <-]. split; [|apply encodeURIComponent_lacks_slash].
  destruct dir as [|c dir]; [discriminate|].
  apply truthy_true. cbn [replaceAll encodeURIComponent].
  destruct (uriUnreserved _); [discriminate|].
  destruct (_ <? 128); discriminate.
Qed.

(** ** The registry and the log under [initializeStreaming] and
    [appendMessage] *)

Section Registry.

Context {Data : Type} `{!JsonCodec Data}.
Variable runtime : Runtime.

Implicit Types (m : StreamResponse Data) (entries : list (StreamResponse Data)).

Lemma initializeStreaming_inr encodedProjectName requestId path s :
  getStreamingFilePath runtime encodedProjectName requestId = inr path ->
  initializeStreaming runtime encodedProjectName requestId s
  = inr (setStatuses
           (<[requestId := StreamingFileInfo.mk requestId path IN_PROGRESS 0 (clock s)]>
              (requestStatuses s)) s).
Proof.
  intros Hpath. unfold initializeStreaming. rewrite Hpath.
  unfold getStreamingFilePath in Hpath.
  destruct (getStreamingDir runtime encodedProjectName); [discriminate|].
  reflexivity.
Qed.

Lemma initializeStreaming_inl encodedProjectName requestId e s :
  getStreamingFilePath runtime encodedProjectName requestId = inl e ->
  initializeStreaming runtime encodedProjectName requestId s = inl e.
Proof.
  unfold initializeStreaming, getStreamingFilePath.
  destruct (getStreamingDir runtime encodedProjectName); congruence.
Qed.

Lemma appendMessage_inr encodedProjectName requestId path info m s :
  getStreamingFilePath runtime encodedProjectName requestId = inr path ->
  requestStatuses s !! requestId = Some info ->
  appendMessage runtime encodedProjectName requestId m s
  = inr (setStatuses
           (<[requestId :=
                StreamingFileInfo.mk
                  (StreamingFileInfo.requestId info)
                  (StreamingFileInfo.filePath info)
                  (statusAfter m (StreamingFileInfo.status info))
                  (S (StreamingFileInfo.totalMessages info))
                  (clock s)]> (requestStatuses s))
           (setFiles
              (appendTextFile path (JSON_stringify m +:+ String LF EmptyString)
                 (files s)) s)).
Proof. intros Hpath Hinfo. unfold appendMessage. now rewrite Hpath, Hinfo. Qed.

(** [appendMessage] fails exactly when the path cannot be made or the
    request is not in the registry, and then changes nothing. *)
Lemma appendMessage_inl_inv encodedProjectName requestId m s e :
  appendMessage runtime encodedProjectName requestId m s = inl e ->
  getStreamingFilePath runtime encodedProjectName requestId = inl e \/
  requestStatuses s !! requestId = None.
Proof.
  unfold appendMessage.
  destruct (getStreamingFilePath runtime encodedProjectName requestId);
    [intros [= <-]; now left|].
  destruct (requestStatuses s !! requestId); [discriminate | now right].
Qed.

Lemma appendAll_app encodedProjectName requestId entries1 entries2 s :
  appendAll runtime encodedProjectName requestId (entries1 ++ entries2) s
  = match appendAll runtime encodedProjectName requestId entries1 s with
    | inl e => inl e
    | inr s1 => appendAll runtime encodedProjectName requestId entries2 s1
    end.
Proof.
  revert s. induction entries1 as [|m l IH]; intros s; simpl; [reflexivity|].
  destruct (appendMessage runtime encodedProjectName requestId m s);
    [reflexivity | apply IH].
Qed.

(** The effect of a sequence of appends for a registered request: the
    texts are added to the end of its file, in order; its entry counts
    them and takes the status of the last terminal one; nothing else
    changes. *)
Lemma appendAll_effect encodedProjectName requestId path entries :
  getStreamingFilePath runtime encodedProjectName requestId = inr path ->
  forall s info,
    requestStatuses s !! requestId = Some info ->
    exists s' info',
      appendAll runtime encodedProjectName requestId entries s = inr s' /\
      requestStatuses s' !! requestId = Some info' /\
      StreamingFileInfo.requestId info' = StreamingFileInfo.requestId info /\
      StreamingFileInfo.filePath info' = StreamingFileInfo.filePath info /\
      StreamingFileInfo.totalMessages info'
      = StreamingFileInfo.totalMessages info + length entries /\
      StreamingFileInfo.status info'
      = statusAfterAll entries (StreamingFileInfo.status info) /\
      default EmptyString (files s' !! path)
      = default EmptyString (files s !! path) +:+ logText entries /\
      (entries <> [] -> is_Some (files s' !! path)) /\
      (forall other, other <> path -> files s' !! other = files s !! other) /\
      (forall other, other <> requestId ->
         requestStatuses s' !! other = requestStatuses s !! other) /\
      requestAbortControllers s' = requestAbortControllers s /\
      clock s' = clock s.
Proof.
  intros Hpath. induction entries as [|m l IH]; intros s info Hinfo.
  - exists s, info. simpl. rewrite append_empty_r. repeat split; try done; lia.
  - simpl appendAll. rewrite (appendMessage_inr _ _ _ _ _ _ Hpath Hinfo).
    set (s1 := setStatuses _ _).
    set (info1 := StreamingFileInfo.mk _ _ _ _ _) in s1.
    assert (Hinfo1 : requestStatuses s1 !! requestId = Some info1)
      by apply lookup_insert_eq.
    destruct (IH s1 info1 Hinfo1)
      as (s' & info' & Hrun & Hl & Hid & Hfp & Htot & Hst & Hfile & _ & Hfiles
          & Hothers & Hctl & Hclk).
    exists s', info'. rewrite Hrun. repeat split; try done.
    + rewrite Htot. simpl. lia.
    + rewrite Hfile. subst s1. simpl. unfold appendTextFile.
      rewrite lookup_insert_eq. simpl. now rewrite !append_assoc.
    + intros _. destruct l as [|m' l'].
      * injection Hrun as <-. subst s1. simpl. unfold appendTextFile.
        rewrite lookup_insert_eq. eauto.
      * destruct (IH s1 info1 Hinfo1)
          as (s'' & ? & Hrun' & _ & _ & _ & _ & _ & _ & Hsome & _).
        rewrite Hrun in Hrun'. injection Hrun' as <-. now apply Hsome.
    + intros other Hne. rewrite (Hfiles other Hne). subst s1. simpl.
      unfold appendTextFile. now rewrite lookup_insert_ne.
    + intros other Hne. rewrite (Hothers other Hne). subst s1. simpl.
      now rewrite lookup_insert_ne.
Qed.

(** *** The invariant of the registry *)




End Registry.

(** ** The sweeper *)

Section Sweeper.

Variable runtime : Runtime.

Lemma sweepOne_statuses s requestId :
  requestStatuses (sweepOne runtime s requestId)
  = delete requestId (requestStatuses s).
Proof.
  unfold sweepOne. destruct (requestStatuses s !! requestId) eqn:Hl.
  - now destruct (removeThrows runtime _).
  - symmetry. now apply delete_id.
Qed.

Lemma sweepOne_clock s requestId : clock (sweepOne runtime s requestId) = clock s.
Proof.
  unfold sweepOne. destruct (requestStatuses s !! requestId); [|reflexivity].
  now destruct (removeThrows runtime _).
Qed.

Lemma sweep_statuses (requestIds : list string) s r :
  requestStatuses (foldl (sweepOne runtime) s requestIds) !! r
  = if decide (r ∈ requestIds) then None else requestStatuses s !! r.
Proof.
  revert s. induction requestIds as [|k ks IH]; intros s; cbn [foldl].
  - destruct (decide (r ∈ [])) as [Hin|]; [|reflexivity].
    now apply elem_of_nil in Hin.
  - rewrite IH, sweepOne_statuses.
    destruct (decide (r = k)) as [->|Hne].
    + rewrite lookup_delete_eq.
      destruct (decide (k ∈ k :: ks)) as [_|Hnot]; [now case_decide|].
      exfalso. apply Hnot. left.
    + rewrite lookup_delete_ne by done.
      destruct (decide (r ∈ ks)) as [Hin|Hnin];
        destruct (decide (r ∈ k :: ks)) as [Hin'|Hnin']; try reflexivity.
      * exfalso. apply Hnin'. now right.
      * apply elem_of_cons in Hin' as [?|?]; contradiction.
Qed.

Lemma elem_of_expiredRequests now (m : gmap string StreamingFileInfo) r :
  r ∈ expiredRequests now m <->
  exists info, m !! r = Some info /\ isExpired now info = true.
Proof.
  unfold expiredRequests. rewrite list_elem_of_fmap. split.
  - intros ([k info] & -> & Hin). apply list_elem_of_In, filter_In in Hin.
    destruct Hin as [Hin Hexp]. apply list_elem_of_In, elem_of_map_to_list in Hin.
    now exists info.
  - intros (info & Hl & Hexp). exists (r, info). split; [reflexivity|].
    apply list_elem_of_In, filter_In. split; [|exact Hexp].
    now apply list_elem_of_In, elem_of_map_to_list.
Qed.

(** One sweep, entry by entry. *)
Lemma cleanupExpiredFiles_lookup s r :
  requestStatuses (cleanupExpiredFiles runtime s) !! r
  = match requestStatuses s !! r with
    | Some info => if isExpired (clock s) info then None else Some info
    | None => None
    end.
Proof.
  unfold cleanupExpiredFiles. rewrite sweep_statuses.
  destruct (requestStatuses s !! r) as [info|] eqn:Hl.
  - destruct (isExpired (clock s) info) eqn:Hexp.
    + rewrite decide_True; [reflexivity|].
      apply elem_of_expiredRequests. now exists info.
    + rewrite decide_False; [reflexivity|].
      intros (info' & Hl' & Hexp')%elem_of_expiredRequests. congruence.
  - now case_decide.
Qed.

Lemma cleanupExpiredFiles_clock s :
  clock (cleanupExpiredFiles runtime s) = clock s.
Proof.
  unfold cleanupExpiredFiles.
  generalize (expiredRequests (clock s) (requestStatuses s)) as ks.
  intros ks. revert s. induction ks as [|k ks IH]; intros s; simpl;
    [reflexivity|]. now rewrite IH, sweepOne_clock.
Qed.

(** An entry in progress outlives every sweep. *)
Lemma cleanupExpiredFiles_in_progress s r info :
  requestStatuses s !! r = Some info ->
  StreamingFileInfo.status info = IN_PROGRESS ->
  requestStatuses (cleanupExpiredFiles runtime s) !! r = Some info.
Proof.
  intros Hl Hst. rewrite cleanupExpiredFiles_lookup, Hl.
  unfold isExpired. rewrite Hst. simpl. now rewrite andb_false_r.
Qed.

(** The files: a file whose removal throws stays; the log of an evicted
    entry whose removal goes through is gone. *)
Lemma sweep_files_kept (requestIds : list string) s path :
  removeThrows runtime path = true ->
  files (foldl (sweepOne runtime) s requestIds) !! path = files s !! path.
Proof.
  intros Hthrows. revert s.
  induction requestIds as [|k ks IH]; intros s; cbn [foldl]; [reflexivity|].
  rewrite IH. unfold sweepOne.
  destruct (requestStatuses s !! k) as [info|]; [|reflexivity].
  destruct (removeThrows runtime (StreamingFileInfo.filePath info)) eqn:Hk;
    [reflexivity|].
  simpl. apply lookup_delete_ne. congruence.
Qed.

Lemma sweep_files_gone (requestIds : list string) s path :
  files s !! path = None ->
  files (foldl (sweepOne runtime) s requestIds) !! path = None.
Proof.
  revert s. induction requestIds as [|k ks IH]; intros s Hnone; cbn [foldl];
    [exact Hnone|].
  apply IH. unfold sweepOne.
  destruct (requestStatuses s !! k) as [info|]; [|exact Hnone].
  destruct (removeThrows runtime (StreamingFileInfo.filePath info));
    [exact Hnone|].
  simpl. destruct (decide (StreamingFileInfo.filePath info = path)) as [->|Hne].
  - apply lookup_delete_eq.
  - now rewrite lookup_delete_ne.
Qed.

Lemma cleanupExpiredFiles_removes_log s r info :
  requestStatuses s !! r = Some info ->
  isExpired (clock s) info = true ->
  removeThrows runtime (StreamingFileInfo.filePath info) = false ->
  files (cleanupExpiredFiles runtime s) !! StreamingFileInfo.filePath info = None.
Proof.
  intros Hl Hexp Hok. unfold cleanupExpiredFiles.
  assert (Hin : r ∈ expiredRequests (clock s) (requestStatuses s))
    by (apply elem_of_expiredRequests; now exists info).
  apply list_elem_of_split_l in Hin as (before & after & -> & Hfirst).
  rewrite foldl_app. cbn [foldl]. apply sweep_files_gone.
  unfold sweepOne at 1. rewrite sweep_statuses, decide_False, Hl by exact Hfirst.
  rewrite Hok. simpl. apply lookup_delete_eq.
Qed.


End Sweeper.

(** ** The resume and status handlers *)

Section Handlers.

Context {Data : Type} `{!JsonCodec Data}.
Variable runtime : Runtime.

Implicit Types (m : StreamResponse Data) (entries : list (StreamResponse Data)).



(** The handler on a log that holds the given entries, when it finds the
    log: the entries from [k] on. *)
Lemma handleResumeRequest_suffix home encodedProjectName requestId query s
    info entries k :
  getEnv runtime "HOME" = Some home -> truthy home = true ->
  ~ List.In "projects"%string (split "/" home) ->
  lacks "/" encodedProjectName = true ->
  truthy requestId = true ->
  requestStatuses s !! requestId = Some info ->
  StreamingFileInfo.filePath info
  = home +:+ "/.claude/projects/" +:+ encodedProjectName
    +:+ "/streaming/" +:+ requestId +:+ ".jsonl" ->
  files s !! StreamingFileInfo.filePath info = Some (logText entries) ->
  Forall wellEncoded entries ->
  parseInt (fromIndexText query) = Num (Z.of_nat k) ->
  handleResumeRequest runtime requestId query s
  = Json (ResumeResponse.mk (drop k entries)
            (StreamingFileInfo.totalMessages info)
            (negb (RequestStatus_eqb (StreamingFileInfo.status info) IN_PROGRESS))).
Proof.
  intros Hhome Htruthy Hnoproj Hslash Hr Hinfo Hfp Hfile Hall Hk.
  destruct (logPath_projectName home encodedProjectName requestId Hnoproj Hslash)
    as (i & Hi & Hlen & Hnth).
  unfold handleResumeRequest, getRequestStatus.
  rewrite Hr, Hinfo. simpl. rewrite Hfp, Hi, Hlen, Hnth, Hk.
  unfold resumeBody, readStreamingFile.
  rewrite (getStreamingFilePath_home runtime home _ _ Hhome Htruthy).
  rewrite <- Hfp, Hfile. now rewrite readMessages_logText.
Qed.

(** Without a registry entry the handler answers 404. *)
Lemma handleResumeRequest_unknown requestId query s :
  truthy requestId = true ->
  requestStatuses s !! requestId = None ->
  handleResumeRequest (Data:=Data) runtime requestId query s
  = JsonError 404 "Request not found".
Proof.
  intros Hr Hnone. unfold handleResumeRequest, getRequestStatus.
  now rewrite Hr, Hnone.
Qed.

Lemma handleStatusRequest_unknown requestId s :
  truthy requestId = true ->
  requestStatuses s !! requestId = None ->
  handleStatusRequest requestId s
  = Json (StatusResponse.mk requestId NOT_FOUND 0 (clock s)).
Proof.
  intros Hr Hnone. unfold handleStatusRequest, getRequestStatus.
  now rewrite Hr, Hnone.
Qed.

End Handlers.

(** ** The generator *)

Section GenRules.

Context {Data : Type}.
Variable P : Server -> Prop.
Variable T : list (Event Data) -> Prop.
Hypothesis T_nil : T [].
Hypothesis T_app : forall t1 t2, T t1 -> T t2 -> T (t1 ++ t2).

Lemma respects_ret {A} (a : A) : respects P T (ret a).
Proof. intros s HP. now split. Qed.

Lemma respects_throw {A} e : respects P T (throw (A:=A) e).
Proof. intros s HP. now split. Qed.

Lemma respects_bind {A B} (c : Gen Data A) (k : A -> Gen Data B) :
  respects P T c -> (forall a, respects P T (k a)) -> respects P T (bind c k).
Proof.
  intros Hc Hk s HP. unfold bind. specialize (Hc s HP).
  destruct (c s) as [[s1 t1] [e|a]]; simpl in *; [exact Hc|].
  destruct Hc as [HP1 HT1]. specialize (Hk a s1 HP1).
  destruct (k a s1) as [[s2 t2] r]; simpl in *.
  split; [apply Hk | apply T_app; [exact HT1 | apply Hk]].
Qed.

Lemma respects_tryCatch {A} (c : Gen Data A) (handler : Exn -> Gen Data A) :
  respects P T c -> (forall e, respects P T (handler e)) ->
  respects P T (tryCatch c handler).
Proof.
  intros Hc Hh s HP. unfold tryCatch. specialize (Hc s HP).
  destruct (c s) as [[s1 t1] [e|a]]; simpl in *; [|exact Hc].
  destruct Hc as [HP1 HT1]. specialize (Hh e s1 HP1).
  destruct (handler e s1) as [[s2 t2] r]; simpl in *.
  split; [apply Hh | apply T_app; [exact HT1 | apply Hh]].
Qed.

Lemma respects_tryFinally {A} (c : Gen Data A) (cleanup : Server -> Server) :
  respects P T c -> (forall s, P s -> P (cleanup s)) ->
  respects P T (tryFinally c cleanup).
Proof.
  intros Hc Hcl s HP. unfold tryFinally. specialize (Hc s HP).
  destruct (c s) as [[s1 t1] r]; simpl in *.
  split; [apply Hcl, Hc | apply Hc].
Qed.

Lemma respects_await (f : Server -> Exn + Server) :
  (forall s s', P s -> f s = inr s' -> P s') -> respects P T (await f).
Proof.
  intros Hf s HP. unfold await. destruct (f s) as [e|s'] eqn:E; simpl.
  - now split.
  - split; [now apply (Hf s) | exact T_nil].
Qed.

Lemma respects_modify (f : Server -> Server) :
  (forall s, P s -> P (f s)) -> respects P T (modify f).
Proof. intros Hf s HP. split; [now apply Hf | exact T_nil]. Qed.

End GenRules.

Section Generator.

Context {Data : Type} `{!JsonCodec Data}.
Variable runtime : Runtime.
Variable query : Engine Data.

Implicit Types (m : StreamResponse Data) (entries : list (StreamResponse Data)).

Local Open Scope gen_scope.

Lemma bind_inr {A B} (c : Gen Data A) (k : A -> Gen Data B) s s1 t1 a :
  c s = (s1, t1, inr a) ->
  bind c k s = (let '(s2, t2, r) := k a s1 in (s2, t1 ++ t2, r)).
Proof. intros Hc. unfold bind. now rewrite Hc. Qed.

Lemma bind_inl {A B} (c : Gen Data A) (k : A -> Gen Data B) s s1 t1 e :
  c s = (s1, t1, inl e) -> bind c k s = (s1, t1, inl e).
Proof. intros Hc. unfold bind. now rewrite Hc. Qed.

Lemma writtenThenYielded_app requestId entries1 entries2 :
  writtenThenYielded requestId (entries1 ++ entries2)
  = writtenThenYielded requestId entries1 ++ writtenThenYielded requestId entries2.
Proof. unfold writtenThenYielded. now rewrite flat_map_app. Qed.

(** With a project, a response is written and then yielded, or, when
    the write throws, neither. *)
Lemma writeThenYield_written name requestId m s s' :
  truthy name = true ->
  appendMessage runtime name requestId m s = inr s' ->
  writeThenYield runtime (Some name) requestId m s
  = (s', writtenThenYielded requestId [m], inr tt).
Proof.
  intros Hname Happend. unfold writeThenYield. rewrite Hname.
  unfold bind, awaitAppendMessage. now rewrite Happend.
Qed.

Lemma writeThenYield_throws name requestId m s e :
  truthy name = true ->
  appendMessage runtime name requestId m s = inl e ->
  writeThenYield runtime (Some name) requestId m s = (s, [], inl e).
Proof.
  intros Hname Happend. unfold writeThenYield. rewrite Hname.
  unfold bind, awaitAppendMessage. now rewrite Happend.
Qed.

(** The loop over an engine run whose messages can all be appended. *)
Lemma forAwait_written name requestId items ending s s' :
  truthy name = true ->
  appendAll runtime name requestId (map dataResponse items) s = inr s' ->
  forAwait runtime (Some name) requestId items ending s
  = (s', writtenThenYielded requestId (map dataResponse items),
     match ending with
     | Returns => inr tt
     | Throws e => inl e
     end).
Proof.
  intros Hname. revert s. induction items as [|d items IH]; intros s Hall.
  - injection Hall as <-. simpl. now destruct ending.
  - simpl in Hall.
    destruct (appendMessage runtime name requestId (dataResponse d) s)
      as [e|s1] eqn:Happend; [discriminate|].
    cbn [forAwait].
    rewrite (bind_inr _ _ _ _ _ _ (writeThenYield_written _ _ _ _ _ Hname Happend)).
    now rewrite (IH s1 Hall).
Qed.

Lemma checkAuthMode_passes request s :
  authPasses runtime request = true ->
  checkAuthMode (Data:=Data) runtime (ChatRequest.authMode request) s
  = (s, [], inr tt).
Proof.
  unfold authPasses, checkAuthMode.
  destruct (ChatRequest.authMode request) as [mode|]; [|reflexivity].
  destruct (String.eqb mode "api_key"); [|reflexivity].
  destruct (getEnv runtime "ANTHROPIC_API_KEY") as [key|]; [|discriminate].
  now intros ->.
Qed.

Lemma checkAuthMode_throws request s :
  authPasses runtime request = false ->
  checkAuthMode (Data:=Data) runtime (ChatRequest.authMode request) s
  = (s, [], inl (OtherError "API Key mode requested but ANTHROPIC_API_KEY not found")).
Proof.
  unfold authPasses, checkAuthMode.
  destruct (ChatRequest.authMode request) as [mode|]; [|discriminate].
  destruct (String.eqb mode "api_key"); [|discriminate].
  destruct (getEnv runtime "ANTHROPIC_API_KEY") as [key|]; [|reflexivity].
  now intros ->.
Qed.

(** A whole run for a request with a project, on a machine where [HOME]
    is set: the registry entry is made afresh, every message of the run
    and then the terminal response are appended and yielded, and the
    abort controller is removed. *)
Lemma executeClaudeCommand_project request name path s :
  getEncodedProjectName (ChatRequest.workingDirectory request) = Some name ->
  getStreamingFilePath runtime name (ChatRequest.requestId request) = inr path ->
  let requestId := ChatRequest.requestId request in
  let run := runOf runtime query request in
  let entries := map dataResponse (sdkMessages run) ++ [terminalOf (ending run)] in
  exists s2 s4,
    initializeStreaming runtime name requestId
      (setControllers ({[requestId]} ∪ requestAbortControllers s) s) = inr s2 /\
    appendAll runtime name requestId entries s2 = inr s4 /\
    executeClaudeCommand runtime query request s
    = (setControllers (requestAbortControllers s4 ∖ {[requestId]}) s4,
       writtenThenYielded requestId entries, inr tt).
Proof.
  intros Hname Hpath requestId run entries.
  destruct (getEncodedProjectName_Some _ _ Hname) as [Htruthy _].
  set (s1 := setControllers ({[requestId]} ∪ requestAbortControllers s) s).
  pose proof (initializeStreaming_inr runtime name requestId path s1 Hpath) as Hinit.
  set (s2 := setStatuses _ s1) in Hinit.
  assert (Hentry : requestStatuses s2 !! requestId
                   = Some (StreamingFileInfo.mk requestId path IN_PROGRESS 0 (clock s1)))
    by apply lookup_insert_eq.
  destruct (appendAll_effect runtime name requestId path entries Hpath s2 _ Hentry)
    as (s4 & info4 & Hall & _).
  exists s2, s4. split; [exact Hinit|]. split; [exact Hall|].
  subst entries. rewrite appendAll_app in Hall.
  destruct (appendAll runtime name requestId (map dataResponse (sdkMessages run)) s2)
    as [e|s3] eqn:Hdata; [discriminate|].
  simpl in Hall.
  destruct (appendMessage runtime name requestId (terminalOf (ending run)) s3)
    as [e|s4'] eqn:Hterm; [discriminate|]. injection Hall as ->.
  unfold executeClaudeCommand, tryFinally, tryCatch. fold requestId.
  rewrite Hname, Htruthy.
  assert (Hstart :
    modify (Data:=Data)
      (fun s => setControllers ({[requestId]} ∪ requestAbortControllers s) s) s
    = (s1, [], inr tt)) by reflexivity.
  rewrite (bind_inr _ _ _ _ _ _ Hstart).
  assert (Hawait :
    await (Data:=Data) (initializeStreaming runtime name requestId) s1
    = (s2, [], inr tt)) by (unfold await; now rewrite Hinit).
  rewrite (bind_inr _ _ _ _ _ _ Hawait).
  rewrite writtenThenYielded_app.
  destruct (authPasses runtime request) eqn:Hauth.
  - rewrite (bind_inr _ _ _ _ _ _ (checkAuthMode_passes request s2 Hauth)).
    assert (Hrun : run =
      query (if startsWith "/" (ChatRequest.message request)
             then String.substring 1 (String.length (ChatRequest.message request) - 1)
                    (ChatRequest.message request)
             else ChatRequest.message request)
        (ChatRequest.sessionId request) (ChatRequest.allowedTools request)
        (ChatRequest.workingDirectory request))
      by (subst run; unfold runOf; now rewrite Hauth).
    rewrite <- Hrun.
    pose proof (forAwait_written name requestId (sdkMessages run) (ending run)
                  s2 s3 Htruthy Hdata) as Hloop.
    destruct (ending run) as [|e] eqn:Hend.
    + rewrite (bind_inr _ _ _ _ _ _ Hloop). cbn [terminalOf] in Hterm.
      rewrite (writeThenYield_written _ _ _ _ _ Htruthy Hterm). reflexivity.
    + rewrite (bind_inl _ _ _ _ _ _ Hloop).
      assert (Hhandler :
        match e with
        | AbortError _ =>
            writeThenYield runtime (Some name) requestId abortedResponse
        | OtherError text =>
            writeThenYield runtime (Some name) requestId (errorResponse text)
        end = writeThenYield runtime (Some name) requestId (terminalOf (Throws e)))
        by now destruct e.
      rewrite Hhandler, (writeThenYield_written _ _ _ _ _ Htruthy Hterm).
      reflexivity.
  - rewrite (bind_inl _ _ _ _ _ _ (checkAuthMode_throws request s2 Hauth)).
    assert (Hrun : sdkMessages run = [] /\
                   ending run = Throws (OtherError "API Key mode requested but ANTHROPIC_API_KEY not found"))
      by (subst run; unfold runOf; now rewrite Hauth).
    destruct Hrun as [Hmsgs Hend]. rewrite Hmsgs, Hend in *.
    simpl in Hdata. injection Hdata as <-. cbn [terminalOf] in Hterm.
    rewrite (writeThenYield_written _ _ _ _ _ Htruthy Hterm). reflexivity.
Qed.

End Generator.

(** *** What every run respects *)

Section GeneratorInvariant.

Context {Data : Type} `{!JsonCodec Data}.
Variable runtime : Runtime.
Variable query : Engine Data.
Variable request : ChatRequest.

Local Abbreviation requestId := (ChatRequest.requestId request).
Local Abbreviation encodedProjectName :=
  (getEncodedProjectName (ChatRequest.workingDirectory request)).

(** A set of traces that holds the empty trace, is closed under
    concatenation, holds a write followed by its yield and, when the
    request has no project, a lone yield. *)
Variable T : list (Event Data) -> Prop.
Hypothesis T_nil : T [].
Hypothesis T_app : forall t1 t2, T t1 -> T t2 -> T (t1 ++ t2).
Hypothesis T_written : forall m, T [Persisted requestId m; Yielded m].
Hypothesis T_yielded : encodedProjectName = None -> forall m, T [Yielded m].

(** A state invariant that the writes of the generator keep. *)
Variable P : Server -> Prop.
Hypothesis P_appendMessage : forall name r m s s',
  P s -> appendMessage runtime name r m s = inr s' -> P s'.
Hypothesis P_initializeStreaming : forall name r s s',
  P s -> initializeStreaming runtime name r s = inr s' -> P s'.
Hypothesis P_setControllers : forall c s, P s -> P (setControllers c s).

Lemma writeThenYield_respects m :
  respects P T (writeThenYield runtime encodedProjectName requestId m).
Proof.
  intros s HP. unfold writeThenYield.
  destruct encodedProjectName as [name|] eqn:Hname.
  - destruct (getEncodedProjectName_Some _ _ Hname) as [-> _].
    unfold bind, awaitAppendMessage.
    destruct (appendMessage runtime name requestId m s) as [e|s'] eqn:Happend;
      simpl.
    + now split.
    + split; [|apply T_written].
      eapply P_appendMessage; eassumption.
  - simpl. split; [exact HP | now apply T_yielded].
Qed.

Lemma forAwait_respects items ending :
  respects P T (forAwait runtime encodedProjectName requestId items ending).
Proof.
  induction items as [|d items IH]; cbn [forAwait].
  - destruct ending; [apply respects_ret | apply respects_throw]; assumption.
  - apply respects_bind; [assumption | apply writeThenYield_respects |].
    intros _. exact IH.
Qed.

Lemma checkAuthMode_respects authMode :
  respects P T (checkAuthMode (Data:=Data) runtime authMode).
Proof.
  unfold checkAuthMode. destruct authMode as [mode|];
    [|now apply respects_ret].
  destruct (String.eqb mode "api_key"); [|now apply respects_ret].
  destruct (getEnv runtime "ANTHROPIC_API_KEY") as [key|];
    [|now apply respects_throw].
  destruct (truthy key); [now apply respects_ret | now apply respects_throw].
Qed.

Lemma executeClaudeCommand_respects :
  respects P T (executeClaudeCommand runtime query request).
Proof.
  unfold executeClaudeCommand.
  apply respects_tryFinally; [|intros s Hs; now apply P_setControllers].
  apply respects_tryCatch; [assumption| |].
  - apply respects_bind; [assumption | |intros _].
    { apply respects_modify; [assumption|].
      intros s Hs. now apply P_setControllers. }
    apply respects_bind; [assumption | |intros _].
    { destruct encodedProjectName as [name|]; [|now apply respects_ret].
      destruct (truthy name); [|now apply respects_ret].
      apply respects_await; [assumption|]. intros s s' Hs Hinit.
      eapply P_initializeStreaming; eassumption. }
    apply respects_bind; [assumption | apply checkAuthMode_respects |intros _].
    apply respects_bind; [assumption | apply forAwait_respects |intros _].
    apply writeThenYield_respects.
  - intros [text|text]; apply writeThenYield_respects.
Qed.

End GeneratorInvariant.

Section GeneratorFacts.

Context {Data : Type} `{!JsonCodec Data}.
Variable runtime : Runtime.
Variable query : Engine Data.


(** With a project, the trace of a run is made of writes, each followed
    by the yield of the same message. *)
Lemma executeClaudeCommand_trace request name s :
  getEncodedProjectName (ChatRequest.workingDirectory request) = Some name ->
  exists entries,
    (executeClaudeCommand runtime query request s).1.2
    = writtenThenYielded (ChatRequest.requestId request) entries.
Proof.
  intros Hname.
  assert (Hresp :
    respects (fun _ => True)
      (fun t => exists entries,
         t = writtenThenYielded (ChatRequest.requestId request) entries)
      (executeClaudeCommand runtime query request)).
  { apply executeClaudeCommand_respects; auto.
    - now exists [].
    - intros t1 t2 [e1 ->] [e2 ->]. exists (e1 ++ e2).
      now rewrite writtenThenYielded_app.
    - intros m. now exists [m].
    - congruence. }
  apply (Hresp s I).
Qed.

(** In such a trace, at every point, what has been yielded so far is an
    initial segment of what has been written so far. *)
Lemma writtenThenYielded_prefix requestId
    (entries : list (StreamResponse Data)) t1 t2 :
  writtenThenYielded requestId entries = t1 ++ t2 ->
  yielded t1 `prefix_of` persisted requestId t1.
Proof.
  revert t1. induction entries as [|m entries IH]; intros t1 Heq.
  - destruct t1; [|discriminate]. simpl. apply prefix_nil.
  - cbn [writtenThenYielded flat_map] in Heq.
    destruct t1 as [|ev1 t1]; [apply prefix_nil|].
    injection Heq as <- Heq.
    destruct t1 as [|ev2 t1].
    + simpl. rewrite String.eqb_refl. apply prefix_nil.
    + injection Heq as <- Heq. simpl. rewrite String.eqb_refl. simpl.
      apply prefix_cons. now apply IH.
Qed.

Lemma persisted_writtenThenYielded requestId
    (entries : list (StreamResponse Data)) :
  persisted requestId (writtenThenYielded requestId entries) = entries.
Proof.
  induction entries as [|m entries IH]; [reflexivity|].
  cbn [writtenThenYielded flat_map persisted app]. rewrite String.eqb_refl.
  simpl. f_equal. exact IH.
Qed.


(** The writes of the trace are the writes to the log: when the log path
    can be made, the file ends up as its old content followed by the
    text of the persisted messages, and the new registry entry counts
    them. *)
Lemma executeClaudeCommand_logged request name path s :
  getEncodedProjectName (ChatRequest.workingDirectory request) = Some name ->
  getStreamingFilePath runtime name (ChatRequest.requestId request) = inr path ->
  let requestId := ChatRequest.requestId request in
  let s' := (executeClaudeCommand runtime query request s).1.1 in
  let trace := (executeClaudeCommand runtime query request s).1.2 in
  default EmptyString (files s' !! path)
  = default EmptyString (files s !! path) +:+ logText (persisted requestId trace) /\
  exists info,
    requestStatuses s' !! requestId = Some info /\
    StreamingFileInfo.totalMessages info = length (persisted requestId trace).
Proof.
  intros Hname Hpath requestId s' trace.
  destruct (executeClaudeCommand_project runtime query request name path s
              Hname Hpath) as (s2 & s4 & Hinit & Hall & Hexec).
  subst s' trace. rewrite Hexec. cbn [fst snd].
  rewrite persisted_writtenThenYielded.
  rewrite (initializeStreaming_inr runtime _ _ _ _ Hpath) in Hinit.
  injection Hinit as <-.
  set (s1 := setControllers _ s) in *. set (s2 := setStatuses _ s1) in *.
  assert (Hentry : requestStatuses s2 !! requestId
                   = Some (StreamingFileInfo.mk requestId path IN_PROGRESS 0 (clock s1)))
    by apply lookup_insert_eq.
  destruct (appendAll_effect runtime name requestId path
              (map dataResponse (sdkMessages (runOf runtime query request))
               ++ [terminalOf (ending (runOf runtime query request))])
              Hpath s2 _ Hentry)
    as (s4' & info & Hrun & Hl & _ & _ & Htot & _ & Hfile & _).
  fold requestId in Hall. rewrite Hall in Hrun. injection Hrun as <-.
  split; [exact Hfile|]. exists info. split; [exact Hl | exact Htot].
Qed.


Lemma handleChatRequest_state request s :
  (handleChatRequest runtime query request s).1
  = (executeClaudeCommand runtime query request s).1.1.
Proof.
  unfold handleChatRequest.
  now destruct (executeClaudeCommand runtime query request s) as [[s' trace] [e|u]].
Qed.


End GeneratorFacts.

(** ** The client's recovery loop *)

Module RecoveryFacts.

Import Recovery.

(** *** The delay *)

Lemma calculateRetryDelay_formula options retryCount random :
  (calculateRetryDelay options retryCount random
   == Qmin (initialRetryDelay options * 2 ^ Z.of_nat retryCount)
           (maxRetryDelay options) + random * 1000)%Q.
Proof. reflexivity. Qed.

(** With the default options the base delays are 1 s, 2 s, 4 s, 8 s,
    16 s and then 30 s for ever. *)
Lemma default_base_delays :
  map (fun n => Qred (calculateRetryDelay defaultOptions n 0)) [0; 1; 2; 3; 4; 5; 6]
  = [1000; 2000; 4000; 8000; 16000; 30000; 30000]%Q.
Proof. vm_compute. reflexivity. Qed.

Section Loop.

Context {Data : Type} `{!JsonCodec Data}.
Variable options : Options.
Variable network : Network (Data:=Data).

Implicit Types (c : Client) (what : Call).

Lemma attempts_call what c :
  attempts (call what c)
  = attempts c + match what with FetchStatus _ => 1 | _ => 0 end.
Proof.
  unfold attempts, call. simpl. rewrite List.filter_app, length_app.
  now destruct what.
Qed.

Lemma timers_call what c :
  timers (call what c)
  = timers c + match what with SetTimeout _ => 1 | _ => 0 end.
Proof.
  unfold timers, call. simpl. rewrite List.filter_app, length_app.
  now destruct what.
Qed.

Lemma onResumeMessages_calls (messages : list (StreamResponse Data)) c :
  calls (onResumeMessages messages c) = calls c /\
  messageIndexRef (onResumeMessages messages c) = messageIndexRef c /\
  retryTimeoutRef (onResumeMessages messages c) = retryTimeoutRef c /\
  processed (onResumeMessages messages c)
  = processed c ++ map JSON_stringify messages.
Proof.
  unfold onResumeMessages. revert c.
  induction messages as [|m l IH]; intros c; simpl.
  - now rewrite app_nil_r.
  - destruct (IH (processStreamLine (JSON_stringify m) c)) as (-> & -> & -> & ->).
    simpl. now rewrite <- app_assoc.
Qed.

(** What an attempt's [try] block does with what the network gives it. *)
Lemma tryRecover_inl attempt requestId c error :
  networkOutcome network attempt (messageIndexRef c) = inl error ->
  exists c',
    tryRecover network attempt requestId c = (c', inl error) /\
    attempts c' = S (attempts c) /\ timers c' = timers c /\
    messageIndexRef c' = messageIndexRef c /\ processed c' = processed c.
Proof.
  unfold networkOutcome, tryRecover, checkRequestStatus, resumeStreaming.
  destruct (statusFetch network attempt) as [e|ok code status].
  - intros [= <-]. eexists. split; [reflexivity|].
    rewrite attempts_call, timers_call. simpl. repeat split; lia.
  - destruct ok; simpl.
    + destruct (RequestStatus_eqb (StatusResponse.status status) NOT_FOUND).
      * intros [= <-]. eexists. split; [reflexivity|].
        rewrite attempts_call, timers_call. simpl. repeat split; lia.
      * destruct (resumeFetch network attempt (messageIndexRef c))
          as [e|ok' code' body].
        -- intros [= <-]. eexists. split; [reflexivity|].
           rewrite !attempts_call, !timers_call. simpl. repeat split; lia.
        -- destruct ok'; [discriminate|]. intros [= <-].
           eexists. split; [reflexivity|].
           rewrite !attempts_call, !timers_call. simpl. repeat split; lia.
    + intros [= <-]. eexists. split; [reflexivity|].
      rewrite attempts_call, timers_call. simpl. repeat split; lia.
Qed.

Lemma tryRecover_inr attempt requestId c response :
  networkOutcome network attempt (messageIndexRef c) = inr response ->
  exists c',
    tryRecover network attempt requestId c = (c', inr tt) /\
    attempts c' = S (attempts c) /\ timers c' = timers c /\
    messageIndexRef c' = messageIndexRef c /\
    processed c'
    = processed c ++ map JSON_stringify (ResumeResponse.messages response) /\
    isRecovering c' = false /\ retryCount c' = 0 /\ lastError c' = None /\
    last (calls c') = Some OnRecoverySuccess.
Proof.
  unfold networkOutcome, tryRecover, checkRequestStatus, resumeStreaming.
  destruct (statusFetch network attempt) as [e|ok code status]; [discriminate|].
  destruct ok; simpl; [|discriminate].
  destruct (RequestStatus_eqb (StatusResponse.status status) NOT_FOUND);
    [discriminate|].
  destruct (resumeFetch network attempt (messageIndexRef c))
    as [e|ok' code' body]; [discriminate|].
  destruct ok'; [|discriminate]. intros [= <-].
  eexists. split; [reflexivity|].
  set (c2 := call (FetchResume requestId (messageIndexRef c))
               (call (FetchStatus requestId) c)).
  assert (Hc3 : forall c3,
    c3 = (if 0 <? length (ResumeResponse.messages body)
          then onResumeMessages (ResumeResponse.messages body) c2 else c2) ->
    calls c3 = calls c2 /\ messageIndexRef c3 = messageIndexRef c2 /\
    processed c3 = processed c2 ++ map JSON_stringify (ResumeResponse.messages body)).
  { intros c3 ->. destruct (ResumeResponse.messages body) as [|m l] eqn:Hm.
    - simpl. now rewrite app_nil_r.
    - change (0 <? length (m :: l)) with true. cbv iota.
      destruct (onResumeMessages_calls (m :: l) c2) as (-> & -> & _ & ->).
      auto. }
  destruct (Hc3 _ eq_refl) as (Hcalls & Hidx & Hproc).
  rewrite attempts_call, timers_call. unfold attempts, timers. simpl.
  rewrite Hcalls, Hidx, Hproc. subst c2. simpl.
  rewrite !List.filter_app, !length_app. simpl.
  repeat split; try lia. apply last_snoc.
Qed.

Lemma tryRecover_cursor attempt requestId c :
  messageIndexRef (tryRecover network attempt requestId c).1 = messageIndexRef c.
Proof.
  destruct (networkOutcome network attempt (messageIndexRef c)) as [e|resp] eqn:Hout.
  - destruct (tryRecover_inl _ requestId _ _ Hout) as (c' & -> & _ & _ & Hidx & _).
    exact Hidx.
  - destruct (tryRecover_inr _ requestId _ _ Hout) as (c' & -> & _ & _ & Hidx & _).
    exact Hidx.
Qed.

(** The recovery loop never moves the cursor. *)
Lemma attemptRecovery_cursor rounds requestId retryCount c result c' :
  attemptRecovery options network rounds requestId retryCount c
  = Some (result, c') ->
  messageIndexRef c' = messageIndexRef c.
Proof.
  revert retryCount c. induction rounds as [|rounds IH]; intros j c;
    [discriminate|].
  cbn [attemptRecovery].
  destruct (maxRetries options <=? j); [now intros [= <- <-]|].
  set (c2 := if j =? 0 then _ else _).
  assert (Hc2 : messageIndexRef c2 = messageIndexRef c)
    by (subst c2; now destruct (j =? 0)).
  pose proof (tryRecover_cursor j requestId c2) as Hcur.
  destruct (tryRecover network j requestId c2) as [c3 [e|[]]]; simpl in Hcur.
  - destruct (negb (isNetworkError e)).
    + intros [= <- <-]. simpl. congruence.
    + intros Hrec. apply IH in Hrec. simpl in Hrec. congruence.
  - intros [= <- <-]. congruence.
Qed.

Lemma handleNetworkError_cursor error requestId c result c' :
  handleNetworkError options network error requestId c = Some (result, c') ->
  messageIndexRef c' = messageIndexRef c.
Proof.
  unfold handleNetworkError.
  destruct (negb (isNetworkError error)); [now intros [= <- <-]|].
  intros Hrec. apply attemptRecovery_cursor in Hrec. rewrite Hrec.
  now destruct (retryTimeoutRef _).
Qed.

(** The loop ends: [maxRetries - retryCount + 1] rounds are enough. *)
Lemma attemptRecovery_total rounds requestId retryCount c :
  maxRetries options - retryCount < rounds ->
  is_Some (attemptRecovery options network rounds requestId retryCount c).
Proof.
  revert retryCount c. induction rounds as [|rounds IH]; intros j c Hlt; [lia|].
  cbn [attemptRecovery].
  destruct (Nat.leb_spec (maxRetries options) j); [eauto|].
  destruct (tryRecover network j requestId _) as [c3 [e|[]]]; [|eauto].
  destruct (negb (isNetworkError e)); [eauto|]. apply IH. lia.
Qed.

Lemma handleNetworkError_total error requestId c :
  is_Some (handleNetworkError options network error requestId c).
Proof.
  unfold handleNetworkError. destruct (negb (isNetworkError error)); [eauto|].
  apply attemptRecovery_total. lia.
Qed.

(** The start of an attempt changes neither the counts nor the cursor. *)
Lemma attempt_start retryCount c :
  let c2 :=
    if retryCount =? 0
    then call OnRecoveryStart (setRecovering true (retryCount + 1) c)
    else setRecovering true (retryCount + 1) c in
  attempts c2 = attempts c /\ timers c2 = timers c /\
  messageIndexRef c2 = messageIndexRef c /\ processed c2 = processed c.
Proof.
  destruct (retryCount =? 0); unfold attempts, timers; simpl; [|auto].
  rewrite !List.filter_app, !length_app. simpl. repeat split; lia.
Qed.

(** After failures that classify as network errors, a success at attempt
    [N] below [maxRetries] ends the loop with [true]: [d] failed attempts
    and timers on the way, then one more attempt. *)
Lemma attemptRecovery_recovers requestId N cursor d :
  N < maxRetries options ->
  succeeds network N cursor ->
  forall retryCount c rounds,
    retryCount + d = N -> d < rounds -> messageIndexRef c = cursor ->
    (forall i, retryCount <= i < N -> networkFails network i cursor) ->
    exists c' response,
      attemptRecovery options network rounds requestId retryCount c
      = Some (true, c') /\
      networkOutcome network N cursor = inr response /\
      attempts c' = attempts c + d + 1 /\ timers c' = timers c + d /\
      messageIndexRef c' = cursor /\
      processed c'
      = processed c ++ map JSON_stringify (ResumeResponse.messages response) /\
      isRecovering c' = false /\
      last (calls c') = Some OnRecoverySuccess.
Proof.
  intros HN [response Hsucc].
  induction d as [|d IH]; intros j c rounds Hj Hrounds Hcur Hfail;
    (destruct rounds as [|rounds]; [lia|]); cbn [attemptRecovery].
  - replace j with N in * by lia.
    destruct (Nat.leb_spec (maxRetries options) N); [lia|].
    destruct (attempt_start N c) as (Ha & Ht & Hi & Hp).
    set (c2 := if N =? 0 then _ else _) in *.
    rewrite <- Hcur, <- Hi in Hsucc.
    destruct (tryRecover_inr N requestId c2 response Hsucc)
      as (c' & -> & Ha' & Ht' & Hi' & Hp' & Hrec & _ & _ & Hlast).
    exists c', response. rewrite Hi, Hcur in Hsucc.
    repeat split; try congruence; lia.
  - destruct (Nat.leb_spec (maxRetries options) j); [lia|].
    destruct (attempt_start j c) as (Ha & Ht & Hi & Hp).
    set (c2 := if j =? 0 then _ else _) in *.
    destruct (Hfail j ltac:(lia)) as (error & Hout & Hnet).
    rewrite <- Hcur, <- Hi in Hout.
    destruct (tryRecover_inl j requestId c2 error Hout)
      as (c3 & -> & Ha3 & Ht3 & Hi3 & Hp3).
    rewrite Hnet. cbn [negb].
    set (c4 := setRetryTimeout _ _).
    assert (Hc4 : attempts c4 = S (attempts c) /\ timers c4 = S (timers c) /\
                  messageIndexRef c4 = cursor /\ processed c4 = processed c).
    { subst c4. unfold attempts, timers in *. simpl.
      rewrite !List.filter_app, !length_app. simpl.
      repeat split; try congruence; lia. }
    destruct Hc4 as (Ha4 & Ht4 & Hi4 & Hp4).
    destruct (IH (S j) c4 rounds ltac:(lia) ltac:(lia) Hi4)
      as (c' & response' & -> & Hresp & Ha' & Ht' & Hi' & Hp' & Hrec & Hlast).
    { intros i Hi'. apply Hfail. lia. }
    exists c', response'. repeat split; try congruence; lia.
Qed.

(** After [maxRetries] failures that classify as network errors the loop
    ends with [false]: no attempt and no timer beyond them. *)
Lemma attemptRecovery_gives_up requestId cursor d :
  forall failed c rounds,
    failed + d = maxRetries options -> d < rounds ->
    messageIndexRef c = cursor ->
    (forall i, failed <= i < maxRetries options ->
       networkFails network i cursor) ->
    exists c',
      attemptRecovery options network rounds requestId failed c
      = Some (false, c') /\
      attempts c' = attempts c + d /\ timers c' = timers c + d /\
      messageIndexRef c' = cursor /\ processed c' = processed c /\
      isRecovering c' = false /\ retryCount c' = 0 /\
      last (calls c') = Some OnRecoveryFailed.
Proof.
  induction d as [|d IH]; intros j c rounds Hj Hrounds Hcur Hfail;
    (destruct rounds as [|rounds]; [lia|]); cbn [attemptRecovery].
  - destruct (Nat.leb_spec (maxRetries options) j); [|lia].
    eexists. split; [reflexivity|].
    rewrite attempts_call, timers_call. simpl.
    repeat split; try lia; try assumption. apply last_snoc.
  - destruct (Nat.leb_spec (maxRetries options) j); [lia|].
    destruct (attempt_start j c) as (Ha & Ht & Hi & Hp).
    set (c2 := if j =? 0 then _ else _) in *.
    destruct (Hfail j ltac:(lia)) as (error & Hout & Hnet).
    rewrite <- Hcur, <- Hi in Hout.
    destruct (tryRecover_inl j requestId c2 error Hout)
      as (c3 & -> & Ha3 & Ht3 & Hi3 & Hp3).
    rewrite Hnet. cbn [negb].
    set (c4 := setRetryTimeout _ _).
    assert (Hc4 : attempts c4 = S (attempts c) /\ timers c4 = S (timers c) /\
                  messageIndexRef c4 = cursor /\ processed c4 = processed c).
    { subst c4. unfold attempts, timers in *. simpl.
      rewrite !List.filter_app, !length_app. simpl.
      repeat split; try congruence; lia. }
    destruct Hc4 as (Ha4 & Ht4 & Hi4 & Hp4).
    destruct (IH (S j) c4 rounds ltac:(lia) ltac:(lia) Hi4)
      as (c' & -> & Ha' & Ht' & Hi' & Hp' & Hrec & Hcount & Hlast).
    { intros i Hi'. apply Hfail. lia. }
    exists c'. repeat split; try congruence; lia.
Qed.

(** The entry of [handleNetworkError] into the loop. *)
Lemma handleNetworkError_enters error requestId c :
  isNetworkError error = true ->
  exists c2,
    handleNetworkError options network error requestId c
    = attemptRecovery options network (S (maxRetries options)) requestId 0 c2 /\
    attempts c2 = attempts c /\ timers c2 = timers c /\
    messageIndexRef c2 = messageIndexRef c /\ processed c2 = processed c.
Proof.
  intros Hnet. unfold handleNetworkError. rewrite Hnet. cbn [negb].
  eexists. split; [reflexivity|].
  assert (Hset : attempts (setLastError (Some error) c) = attempts c /\
                 timers (setLastError (Some error) c) = timers c) by now split.
  destruct Hset as [Ha Ht].
  destruct (retryTimeoutRef _); rewrite ?attempts_call, ?timers_call; simpl;
    rewrite ?attempts_call, ?timers_call; simpl; repeat split; lia.
Qed.

End Loop.

End RecoveryFacts.

(** ** From a run to what the handlers see *)

Section RunFacts.

Context {Data : Type} `{!JsonCodec Data}.
Variable runtime : Runtime.

Implicit Types (m : StreamResponse Data) (entries : list (StreamResponse Data)).





Lemma logText_nil_inv entries :
  logText entries = EmptyString -> entries = [].
Proof.
  destruct entries as [|m l]; [reflexivity|]. simpl.
  destruct (JSON_stringify m); discriminate.
Qed.

(** The resume handler on a request whose log holds exactly the given
    entries (no file yet when there are none), when the handler finds the
    log. *)
Lemma handleResumeRequest_log home encodedProjectName requestId query s
    info entries k :
  getEnv runtime "HOME" = Some home -> truthy home = true ->
  ~ List.In "projects"%string (split "/" home) ->
  lacks "/" encodedProjectName = true ->
  truthy requestId = true ->
  requestStatuses s !! requestId = Some info ->
  StreamingFileInfo.filePath info
  = home +:+ "/.claude/projects/" +:+ encodedProjectName
    +:+ "/streaming/" +:+ requestId +:+ ".jsonl" ->
  default EmptyString (files s !! StreamingFileInfo.filePath info)
  = logText entries ->
  Forall wellEncoded entries ->
  parseInt (fromIndexText query) = Num (Z.of_nat k) ->
  handleResumeRequest runtime requestId query s
  = Json (ResumeResponse.mk (drop k entries)
            (StreamingFileInfo.totalMessages info)
            (negb (RequestStatus_eqb (StreamingFileInfo.status info) IN_PROGRESS))).
Proof.
  intros Hhome Htruthy Hnoproj Hslash Hr Hinfo Hfp Hfile Hall Hk.
  destruct (files s !! StreamingFileInfo.filePath info) as [content|] eqn:Hc.
  - simpl in Hfile. subst content.
    now apply (handleResumeRequest_suffix runtime home encodedProjectName).
  - simpl in Hfile. symmetry in Hfile. apply logText_nil_inv in Hfile. subst entries.
    destruct (logPath_projectName home encodedProjectName requestId Hnoproj Hslash)
      as (i & Hi & Hlen & Hnth).
    unfold handleResumeRequest, getRequestStatus.
    rewrite Hr, Hinfo. simpl. rewrite Hfp, Hi, Hlen, Hnth, Hk.
    unfold resumeBody, readStreamingFile.
    rewrite (getStreamingFilePath_home runtime home _ _ Hhome Htruthy).
    rewrite <- Hfp, Hc. now rewrite drop_nil.
Qed.

(** The claim of the specification about resuming, for every machine on
    which the handler finds the log: after a request was registered and
    [entries] were appended in order to its new log, resuming from [k]
    returns the entries from [k] on (none for [k] at or beyond their
    number), and [totalMessages] is their number. *)
Lemma resume_of_appended home encodedProjectName requestId query s0 s1 s2
    entries k :
  getEnv runtime "HOME" = Some home -> truthy home = true ->
  ~ List.In "projects"%string (split "/" home) ->
  lacks "/" encodedProjectName = true ->
  truthy requestId = true ->
  files s0 !! (home +:+ "/.claude/projects/" +:+ encodedProjectName
               +:+ "/streaming/" +:+ requestId +:+ ".jsonl") = None ->
  initializeStreaming runtime encodedProjectName requestId s0 = inr s1 ->
  appendAll runtime encodedProjectName requestId entries s1 = inr s2 ->
  Forall wellEncoded entries ->
  parseInt (fromIndexText query) = Num (Z.of_nat k) ->
  handleResumeRequest runtime requestId query s2
  = Json (ResumeResponse.mk (drop k entries) (length entries)
            (negb (RequestStatus_eqb (statusAfterAll entries IN_PROGRESS) IN_PROGRESS))).
Proof.
  intros Hhome Htruthy Hnoproj Hslash Hr Hfresh Hinit Hall Hwell Hk.
  pose proof (getStreamingFilePath_home runtime home encodedProjectName requestId
                Hhome Htruthy) as Hpath.
  rewrite (initializeStreaming_inr runtime _ _ _ s0 Hpath) in Hinit.
  injection Hinit as <-.
  set (path := home +:+ _) in *.
  set (s1 := setStatuses _ s0) in *.
  assert (Hentry : requestStatuses s1 !! requestId
                   = Some (StreamingFileInfo.mk requestId path IN_PROGRESS 0 (clock s0)))
    by apply lookup_insert_eq.
  destruct (appendAll_effect runtime encodedProjectName requestId path entries
              Hpath s1 _ Hentry)
    as (s' & info' & Hrun & Hl & Hid & Hfp & Htot & Hst & Hfile & _).
  rewrite Hall in Hrun. injection Hrun as <-.
  simpl in Hfp, Htot, Hst.
  rewrite (handleResumeRequest_log home encodedProjectName requestId query s2
             info' entries k); try assumption.
  - now rewrite Htot, Hst.
  - rewrite Hfp, Hfile. subst s1. simpl. fold path. now rewrite Hfresh.
Qed.

End RunFacts.

(** ** Facts about the concrete codec and scenarios *)

Module ScenarioFacts.

Import BoolJson Scenario.

Lemma wellEncoded_data (b : bool) : wellEncoded (dataResponse b).
Proof.
  split; [|split].
  - now destruct b.
  - now destruct b.
  - exists (String.substring 1
              (String.length (JSON_stringify (dataResponse b)) - 2)
              (JSON_stringify (dataResponse b))).
    now destruct b.
Qed.

Lemma wellEncoded_done : wellEncoded (doneResponse (Data:=bool)).
Proof.
  split; [|split]; [reflexivity..|].
  exists (String.substring 1
            (String.length (JSON_stringify (doneResponse (Data:=bool))) - 2)
            (JSON_stringify (doneResponse (Data:=bool)))).
  reflexivity.
Qed.

Lemma fetchFailed_isNetworkError : Recovery.isNetworkError fetchFailed = true.
Proof. reflexivity. Qed.

Lemma flaky_fails failures cursor i :
  i < failures -> Recovery.networkFails (flaky failures) i cursor.
Proof.
  intros Hlt. exists fetchFailed. split; [|reflexivity].
  unfold Recovery.networkOutcome. simpl.
  destruct (Nat.ltb_spec i failures); [reflexivity | lia].
Qed.

Lemma flaky_succeeds failures cursor :
  Recovery.succeeds (flaky failures) failures cursor.
Proof.
  eexists. unfold Recovery.networkOutcome. simpl.
  rewrite Nat.ltb_irrefl. reflexivity.
Qed.

(** The resume handler on a machine where it finds the log. *)
Example resume_from_1 :
  handleResumeRequest (runtimeAt "/home/user") "r1" (Some "1"%string)
    (afterTurn "/home/user")
  = Json (ResumeResponse.mk [dataResponse false; doneResponse] 3 true).
Proof. vm_compute. reflexivity. Qed.

Example resume_beyond_the_end :
  handleResumeRequest (Data:=bool) (runtimeAt "/home/user") "r1"
    (Some "7"%string) (afterTurn "/home/user")
  = Json (ResumeResponse.mk [] 3 true).
Proof. vm_compute. reflexivity. Qed.

Example parseInt_examples :
  parseInt "12" = Num 12 /\ parseInt " 12abc" = Num 12 /\
  parseInt "-7" = Num (-7) /\ parseInt "abc" = NaN /\ parseInt "x12" = NaN /\
  parseInt "-" = NaN /\ parseInt " " = NaN.
Proof. vm_compute. repeat split; reflexivity. Qed.

(** A sweep on a runtime whose every removal throws: the entry goes, the
    log file stays. *)
Example sweep_with_failing_removal :
  let swept :=
    cleanupExpiredFiles (runtimeNoRemove "/home/user")
      (advance 300001 (afterTurn "/home/user")) in
  requestStatuses swept !! "r1"%string = None /\
  files swept !! logPath "/home/user"
  = files (afterTurn "/home/user") !! logPath "/home/user".
Proof. vm_compute. split; reflexivity. Qed.

(** Exactly at the retention window nothing is evicted yet. *)
Example sweep_at_the_window :
  requestStatuses
    (cleanupExpiredFiles (runtimeAt "/home/user")
       (advance 300000 (afterTurn "/home/user"))) !! "r1"%string
  = requestStatuses (afterTurn "/home/user") !! "r1"%string.
Proof. vm_compute. reflexivity. Qed.

End ScenarioFacts.

(** * Part III: the claims *)

Section Claims.

Import BoolJson Scenario ScenarioFacts.

(** ** C1 *)

(** C1, at a machine where the claim fails.  The claim: resuming from
    index 0 returns the whole log in order, from [k] the entries from [k]
    on.  On a machine whose [HOME] has a directory called [projects] on
    its way (here [/home/projects]), one chat turn in project [/w] leaves
    a log of three entries in the file of request [r1], the registry
    counts three messages, and the resume handler, asked from index 0,
    answers with no message at all: it takes the project name from the
    first [projects] component of the stored path, which is the one in
    [HOME], and so reads a file that does not exist.  ([resume_of_appended]
    proves the claim for every other machine.) *)
Theorem resume_finds_no_log_under_home_projects :
  let runtime := runtimeAt "/home/projects" in
  let s := afterTurn "/home/projects" in
  files s !! logPath "/home/projects"
  = Some (logText [dataResponse true; dataResponse false; doneResponse]) /\
  split "/" (logPath "/home/projects")
  = [EmptyString; "home"; "projects"; ".claude"; "projects"; "_w"; "streaming";
     "r1.jsonl"]%string /\
  handleResumeRequest runtime "r1" (Some "0"%string) s
  = Json (ResumeResponse.mk [] 3 true).
Proof. vm_compute. repeat split; reflexivity. Qed.

(** ** C2 *)

(** C2, refuted as stated: a chat request without a working directory has
    no stream log; its messages are yielded and none is ever written, so
    what was yielded is not an initial segment of what was persisted. *)
Lemma yielded_without_project_never_persisted :
  let '(s', trace, _) :=
    executeClaudeCommand (runtimeAt "/home/user") twoMessages
      (chat "r1" None) emptyServer in
  yielded trace = [dataResponse true; dataResponse false; doneResponse] /\
  persisted "r1" trace = [] /\
  requestStatuses s' !! "r1"%string = None /\
  ~ yielded trace `prefix_of` persisted "r1" trace.
Proof.
  vm_compute. repeat split; try reflexivity.
  intros [rest Hrest]. discriminate Hrest.
Qed.

(** C2, amended: for a request that carries a working directory, at every
    point of a run of the generator (every initial segment [t1] of its
    trace) the messages yielded so far are an initial segment of the
    messages already appended to the stream log and recorded in the
    registry; the consumer of the generator, connected or not, plays no
    part in this.  The appends of the trace are those of the log: when
    the log path can be made, the file ends as its old content followed
    by the text of the persisted messages, and the registry entry counts
    them. *)
Theorem persisted_before_yielded {Data} `{!JsonCodec Data}
    (runtime : Runtime) (query : Engine Data) (request : ChatRequest)
    (s : Server) (name : string) :
  getEncodedProjectName (ChatRequest.workingDirectory request) = Some name ->
  let requestId := ChatRequest.requestId request in
  let s' := (executeClaudeCommand runtime query request s).1.1 in
  let trace := (executeClaudeCommand runtime query request s).1.2 in
  (forall t1 t2,
     trace = t1 ++ t2 -> yielded t1 `prefix_of` persisted requestId t1) /\
  (forall path,
     getStreamingFilePath runtime name requestId = inr path ->
     default EmptyString (files s' !! path)
     = default EmptyString (files s !! path)
       +:+ logText (persisted requestId trace) /\
     exists info,
       requestStatuses s' !! requestId = Some info /\
       StreamingFileInfo.totalMessages info
       = length (persisted requestId trace)).
Proof.
  intros Hname requestId s' trace. split.
  - intros t1 t2 Htrace.
    destruct (executeClaudeCommand_trace runtime query request name s Hname)
      as [entries Hentries].
    subst trace. rewrite Hentries in Htrace.
    now apply (writtenThenYielded_prefix _ entries t1 t2).
  - intros path Hpath.
    now apply (executeClaudeCommand_logged runtime query request name path s).
Qed.

Lemma persisted_before_yielded_witness :
  let runtime := runtimeAt "/home/user" in
  let request := chat "r1" (Some "/w"%string) in
  let s' := (executeClaudeCommand runtime twoMessages request emptyServer).1.1 in
  let trace := (executeClaudeCommand runtime twoMessages request emptyServer).1.2 in
  getEncodedProjectName (Some "/w"%string) = Some "_w"%string /\
  trace = take 3 trace ++ drop 3 trace /\
  getStreamingFilePath runtime "_w" "r1" = inr (logPath "/home/user") /\
  yielded (take 3 trace) `prefix_of` persisted "r1" (take 3 trace) /\
  default EmptyString (files s' !! logPath "/home/user")
  = EmptyString +:+ logText (persisted "r1" trace).
Proof.
  intros runtime request s' trace.
  assert (Hname : getEncodedProjectName (Some "/w"%string) = Some "_w"%string)
    by reflexivity.
  assert (Hsplit : trace = take 3 trace ++ drop 3 trace)
    by (symmetry; apply take_drop).
  assert (Hpath : getStreamingFilePath runtime "_w" "r1"
                  = inr (logPath "/home/user")) by reflexivity.
  split; [exact Hname|]. split; [exact Hsplit|]. split; [exact Hpath|].
  destruct (persisted_before_yielded runtime twoMessages request emptyServer
              "_w" Hname) as [Hprefix Hlog].
  split.
  - exact (Hprefix (take 3 trace) (drop 3 trace) Hsplit).
  - exact (proj1 (Hlog (logPath "/home/user") Hpath)).
Defined.

(** ** C3 *)




(** ** C4 *)

(** C4, refuted as stated: five minutes and one millisecond after the
    turn has completed, a sweep evicts the request, and the resume
    handler then answers with the error response 404, not with an empty
    list of messages. *)
Lemma resume_after_eviction_is_an_error :
  let runtime := runtimeAt "/home/user" in
  let swept :=
    cleanupExpiredFiles runtime (advance 300001 (afterTurn "/home/user")) in
  handleResumeRequest (Data:=bool) runtime "r1" (Some "0"%string) swept
  = JsonError 404 "Request not found" /\
  ~ exists body,
      handleResumeRequest (Data:=bool) runtime "r1" (Some "0"%string) swept
      = Json body.
Proof.
  assert (Heval :
    handleResumeRequest (Data:=bool) (runtimeAt "/home/user") "r1"
      (Some "0"%string)
      (cleanupExpiredFiles (runtimeAt "/home/user")
         (advance 300001 (afterTurn "/home/user")))
    = JsonError 404 "Request not found") by (vm_compute; reflexivity).
  split; [exact Heval|]. intros [body Hbody].
  rewrite Heval in Hbody. discriminate Hbody.
Qed.

(** C4, amended: once a sweep has evicted a terminal request (its
    [lastUpdated] older than the retention window), the resume handler
    answers that request id with the error response 404 "Request not
    found"; it is the status handler that answers without an error, with
    status not_found and no messages. *)
Theorem resume_after_eviction {Data} `{!JsonCodec Data} (runtime : Runtime)
    (requestId : string) (query : option string) (s : Server)
    (info : StreamingFileInfo) :
  truthy requestId = true ->
  requestStatuses s !! requestId = Some info ->
  StreamingFileInfo.status info <> IN_PROGRESS ->
  (CLEANUP_INTERVAL_MS < clock s - StreamingFileInfo.lastUpdated info)%Z ->
  handleResumeRequest (Data:=Data) runtime requestId query
    (cleanupExpiredFiles runtime s)
  = JsonError 404 "Request not found" /\
  handleStatusRequest requestId (cleanupExpiredFiles runtime s)
  = Json (StatusResponse.mk requestId NOT_FOUND 0 (clock s)).
Proof.
  intros Hr Hinfo Hterminal Hold.
  assert (Hgone : requestStatuses (cleanupExpiredFiles runtime s) !! requestId
                  = None).
  { rewrite cleanupExpiredFiles_lookup, Hinfo. unfold isExpired.
    destruct (Z.ltb_spec CLEANUP_INTERVAL_MS
                (clock s - StreamingFileInfo.lastUpdated info)); [|lia].
    now destruct (StreamingFileInfo.status info). }
  split.
  - now apply handleResumeRequest_unknown.
  - rewrite handleStatusRequest_unknown by assumption.
    now rewrite cleanupExpiredFiles_clock.
Qed.

Lemma resume_after_eviction_witness :
  let runtime := runtimeAt "/home/user" in
  let s := advance 300001 (afterTurn "/home/user") in
  let info :=
    StreamingFileInfo.mk "r1" (logPath "/home/user") COMPLETED 3 0 in
  truthy "r1" = true /\
  requestStatuses s !! "r1"%string = Some info /\
  StreamingFileInfo.status info <> IN_PROGRESS /\
  (CLEANUP_INTERVAL_MS < clock s - StreamingFileInfo.lastUpdated info)%Z /\
  handleResumeRequest (Data:=bool) runtime "r1" None
    (cleanupExpiredFiles runtime s)
  = JsonError 404 "Request not found".
Proof.
  intros runtime s info.
  assert (Hr : truthy "r1" = true) by reflexivity.
  assert (Hinfo : requestStatuses s !! "r1"%string = Some info)
    by (vm_compute; reflexivity).
  assert (Hterminal : StreamingFileInfo.status info <> IN_PROGRESS)
    by discriminate.
  assert (Hold : (CLEANUP_INTERVAL_MS
                  < clock s - StreamingFileInfo.lastUpdated info)%Z)
    by (vm_compute; reflexivity).
  split; [exact Hr|]. split; [exact Hinfo|]. split; [exact Hterminal|].
  split; [exact Hold|].
  apply (resume_after_eviction (Data:=bool) runtime "r1" None s info
           Hr Hinfo Hterminal Hold).
Defined.

(** ** C5 *)

(** C5, refuted as stated: registering request [r1] again after its turn
    has completed with three messages does not fail; the entry is back to
    in progress with no message. *)
Lemma registering_again_resets_the_entry :
  let runtime := runtimeAt "/home/user" in
  let s := afterTurn "/home/user" in
  requestStatuses s !! "r1"%string
  = Some (StreamingFileInfo.mk "r1" (logPath "/home/user") COMPLETED 3 0) /\
  exists s',
    initializeStreaming runtime "_w" "r1" s = inr s' /\
    requestStatuses s' !! "r1"%string
    = Some (StreamingFileInfo.mk "r1" (logPath "/home/user") IN_PROGRESS 0 0).
Proof.
  split; [vm_compute; reflexivity|].
  eexists. split; [reflexivity|]. vm_compute. reflexivity.
Qed.

(** C5, amended: registering a request never fails because an entry
    exists.  Whenever the log path can be made, [initializeStreaming]
    succeeds and puts a new entry, in progress and with no message, in
    place of whatever entry the request id had; other entries and all
    files, the old log included, are left as they were.  (The chat
    handler likewise puts its abort controller in place of an old one.) *)
Theorem registering_replaces_the_entry (runtime : Runtime)
    (encodedProjectName requestId path : string) (s : Server) :
  getStreamingFilePath runtime encodedProjectName requestId = inr path ->
  exists s',
    initializeStreaming runtime encodedProjectName requestId s = inr s' /\
    requestStatuses s' !! requestId
    = Some (StreamingFileInfo.mk requestId path IN_PROGRESS 0 (clock s)) /\
    files s' = files s /\
    forall other, other <> requestId ->
      requestStatuses s' !! other = requestStatuses s !! other.
Proof.
  intros Hpath. eexists.
  split; [apply (initializeStreaming_inr runtime _ _ _ s Hpath)|].
  simpl. split; [apply lookup_insert_eq|]. split; [reflexivity|].
  intros other Hne. now apply lookup_insert_ne.
Qed.

Lemma registering_replaces_the_entry_witness :
  let runtime := runtimeAt "/home/user" in
  let s := afterTurn "/home/user" in
  getStreamingFilePath runtime "_w" "r1" = inr (logPath "/home/user") /\
  exists s',
    initializeStreaming runtime "_w" "r1" s = inr s' /\
    requestStatuses s' !! "r1"%string
    = Some (StreamingFileInfo.mk "r1" (logPath "/home/user") IN_PROGRESS 0 (clock s)).
Proof.
  intros runtime s. split; [reflexivity|].
  destruct (registering_replaces_the_entry runtime "_w" "r1"
              (logPath "/home/user") s eq_refl) as (s' & Hinit & Hl & _).
  exists s'. split; assumption.
Defined.

(** ** C6 *)

(** C6, at an input where the code does not do what the claim says.  The
    client has received two lines of the live stream, so its cursor is 2.
    The transport fails; the first recovery attempt gets through, sends
    [fromIndex = 2] and receives the three remaining messages, which are
    handed to the message processor.  The cursor is 2 afterwards, not 5:
    the resume path processes the messages without tracking them, unlike
    the live path ([receiveLine]).  [RecoveryFacts.handleNetworkError_cursor]
    shows that no recovery ever moves the cursor. *)
Theorem recovery_leaves_cursor_behind :
  Recovery.messageIndexRef twoLinesIn = 2 /\
  exists c',
    Recovery.handleNetworkError Recovery.defaultOptions (flaky 0) fetchFailed
      "r1" twoLinesIn = Some (true, c') /\
    Recovery.calls c'
    = [Recovery.OnNetworkError; Recovery.OnRecoveryStart;
       Recovery.FetchStatus "r1"; Recovery.FetchResume "r1" 2;
       Recovery.OnRecoverySuccess] /\
    Recovery.processed c'
    = Recovery.processed twoLinesIn
      ++ map JSON_stringify [dataResponse true; dataResponse false; doneResponse] /\
    Recovery.messageIndexRef c' = 2.
Proof.
  split; [reflexivity|]. eexists. split; [vm_compute; reflexivity|].
  vm_compute. repeat split; reflexivity.
Qed.

(** ** C7 *)

(** C7: after a transport failure that classifies as a network error,
    when the first [N] recovery attempts fail with network errors and
    attempt [N] succeeds, [N] below [maxRetries], the loop makes exactly
    [N + 1] attempts (one status poll each), sets [N] timers and reports
    success; when [maxRetries] attempts in a row fail with network
    errors, it makes exactly these [maxRetries] attempts, reports the
    failure ([onRecoveryFailed], result [false], not recovering any more)
    and nothing is attempted or scheduled after that. *)
Theorem recovery_attempts {Data} `{!JsonCodec Data}
    (options : Recovery.Options) (network : Recovery.Network (Data:=Data))
    (error : Recovery.JsError) (requestId : string) (c : Recovery.Client) :
  Recovery.isNetworkError error = true ->
  (forall N,
     N < Recovery.maxRetries options ->
     (forall i, i < N ->
        Recovery.networkFails network i (Recovery.messageIndexRef c)) ->
     Recovery.succeeds network N (Recovery.messageIndexRef c) ->
     exists c',
       Recovery.handleNetworkError options network error requestId c
       = Some (true, c') /\
       Recovery.attempts c' = Recovery.attempts c + (N + 1) /\
       Recovery.timers c' = Recovery.timers c + N /\
       Recovery.isRecovering c' = false /\
       last (Recovery.calls c') = Some Recovery.OnRecoverySuccess) /\
  ((forall i, i < Recovery.maxRetries options ->
      Recovery.networkFails network i (Recovery.messageIndexRef c)) ->
   exists c',
     Recovery.handleNetworkError options network error requestId c
     = Some (false, c') /\
     Recovery.attempts c' = Recovery.attempts c + Recovery.maxRetries options /\
     Recovery.timers c' = Recovery.timers c + Recovery.maxRetries options /\
     Recovery.isRecovering c' = false /\
     last (Recovery.calls c') = Some Recovery.OnRecoveryFailed).
Proof.
  intros Hnet.
  destruct (RecoveryFacts.handleNetworkError_enters options network error
              requestId c Hnet) as (c2 & -> & Ha & Ht & Hi & _).
  split.
  - intros N HN Hfail Hsucc.
    destruct (RecoveryFacts.attemptRecovery_recovers options network requestId
                N (Recovery.messageIndexRef c) N HN Hsucc 0 c2
                (S (Recovery.maxRetries options)) eq_refl ltac:(lia) Hi)
      as (c' & response & -> & _ & Ha' & Ht' & _ & _ & Hrec & Hlast).
    { intros i Hlt. apply Hfail. lia. }
    exists c'. repeat split; try assumption; lia.
  - intros Hfail.
    destruct (RecoveryFacts.attemptRecovery_gives_up options network requestId
                (Recovery.messageIndexRef c) (Recovery.maxRetries options) 0 c2
                (S (Recovery.maxRetries options)) eq_refl ltac:(lia) Hi)
      as (c' & -> & Ha' & Ht' & _ & _ & Hrec & _ & Hlast).
    { intros i Hlt. apply Hfail. lia. }
    exists c'. repeat split; try assumption; lia.
Qed.

Lemma recovery_attempts_witness :
  Recovery.isNetworkError fetchFailed = true /\
  (exists c',
     Recovery.handleNetworkError Recovery.defaultOptions (flaky 2) fetchFailed
       "r1" twoLinesIn = Some (true, c') /\
     Recovery.attempts c' = Recovery.attempts twoLinesIn + (2 + 1)) /\
  (exists c',
     Recovery.handleNetworkError Recovery.defaultOptions (flaky 5) fetchFailed
       "r1" twoLinesIn = Some (false, c') /\
     Recovery.attempts c' = Recovery.attempts twoLinesIn + 5).
Proof.
  split; [reflexivity|]. split.
  - destruct (proj1 (recovery_attempts Recovery.defaultOptions (flaky 2)
                       fetchFailed "r1" twoLinesIn eq_refl) 2)
      as (c' & Hrun & Ha & _).
    + simpl. lia.
    + intros i Hlt. now apply flaky_fails.
    + apply flaky_succeeds.
    + exists c'. split; [exact Hrun | exact Ha].
  - destruct (proj2 (recovery_attempts Recovery.defaultOptions (flaky 5)
                       fetchFailed "r1" twoLinesIn eq_refl))
      as (c' & Hrun & Ha & _).
    + intros i Hlt. now apply flaky_fails.
    + exists c'. split; [exact Hrun | exact Ha].
Defined.

(** ** C8 *)



(** ** C9 *)

(** C9: one sweep removes from the registry exactly the entries that are
    not in progress and whose [lastUpdated] lies more than the retention
    window (five minutes) before the time of the sweep, and leaves every
    other entry as it was: an entry in progress stays whatever its age.
    This holds for every runtime, so also when the removal of a log file
    throws. *)
Theorem sweep_evicts_old_terminal_entries (runtime : Runtime) (s : Server)
    (requestId : string) :
  requestStatuses (cleanupExpiredFiles runtime s) !! requestId
  = match requestStatuses s !! requestId with
    | Some info =>
        match StreamingFileInfo.status info with
        | IN_PROGRESS => Some info
        | _ =>
            if (300000 <? clock s - StreamingFileInfo.lastUpdated info)%Z
            then None else Some info
        end
    | None => None
    end.
Proof.
  rewrite cleanupExpiredFiles_lookup.
  destruct (requestStatuses s !! requestId) as [info|]; [|reflexivity].
  unfold isExpired. change CLEANUP_INTERVAL_MS with 300000%Z.
  destruct (StreamingFileInfo.status info); simpl;
    rewrite ?andb_false_r, ?andb_true_r; reflexivity.
Qed.

(** ** C10 *)



End Claims.

(** * Part IV: further properties of the code *)

Section Further.

Import BoolJson Scenario ScenarioFacts MoreScenarios.

(** ** Strings and lines *)

Section LineFacts.



Lemma trimStart_length s : String.length (trimStart s) <= String.length s.
Proof.
  induction s as [|c s IH]; simpl; [lia|].
  destruct (isWhiteSpace c); simpl; lia.
Qed.

Lemma trimEnd_length s : String.length (trimEnd s) <= String.length s.
Proof.
  induction s as [|c s IH]; simpl; [lia|].
  destruct (trimEnd s); [destruct (isWhiteSpace c)|]; simpl in *; lia.
Qed.

Lemma trimEnd_blank s t :
  trimEnd t = EmptyString -> trimEnd (s +:+ t) = trimEnd s.
Proof.
  intros Ht. induction s as [|c s IH]; simpl; [exact Ht | now rewrite IH].
Qed.

(** A clean line is untouched by either trim. *)
Lemma cleanLine_trims line :
  cleanLine line -> trimStart line = line /\ trimEnd line = line.
Proof.
  intros (_ & _ & Htrim). unfold trim in Htrim.
  assert (Hs : trimStart line = line).
  { destruct line as [|c line]; [reflexivity|]. simpl in *.
    destruct (isWhiteSpace c); [|reflexivity].
    pose proof (trimStart_length line) as H1.
    pose proof (trimEnd_length (trimStart line)) as H2.
    rewrite Htrim in H2. simpl in H2. lia. }
  split; [exact Hs | now rewrite Hs in Htrim].
Qed.

Lemma cleanLine_nonempty line : cleanLine line -> line <> EmptyString.
Proof. intros (_ & Ht & _). now apply truthy_true. Qed.

Lemma cleanLine_trimStart line rest :
  cleanLine line -> trimStart (line +:+ rest) = line +:+ rest.
Proof.
  intros Hc. pose proof (cleanLine_nonempty _ Hc) as Hne.
  destruct (cleanLine_trims _ Hc) as [Hs _].
  destruct line as [|c line]; [contradiction|]. simpl in *.
  destruct (isWhiteSpace c); [|reflexivity].
  pose proof (trimStart_length line) as Hl. rewrite Hs in Hl. simpl in Hl. lia.
Qed.

Lemma cleanLine_trimEnd line :
  cleanLine line -> trimEnd (line +:+ String LF EmptyString) = line.
Proof.
  intros Hc. rewrite trimEnd_blank by reflexivity.
  apply (cleanLine_trims _ Hc).
Qed.

Lemma linesText_app lines1 lines2 :
  linesText (lines1 ++ lines2) = linesText lines1 +:+ linesText lines2.
Proof.
  induction lines1 as [|l lines1 IH]; simpl; [reflexivity|].
  now rewrite IH, append_assoc.
Qed.

Lemma split_linesText lines last :
  Forall cleanLine lines -> lacks LF last = true ->
  split LF (linesText lines +:+ last) = lines ++ [last].
Proof.
  intros Hall Hlast. induction Hall as [|l lines (Hl & _) _ IH]; simpl.
  - now apply split_lacks.
  - rewrite append_assoc. cbn [String.append].
    rewrite split_app, (split_lacks _ _ Hl), IH. reflexivity.
Qed.

Lemma filter_clean lines :
  Forall cleanLine lines ->
  List.filter (fun line => truthy (trim line)) lines = lines.
Proof.
  induction 1 as [|l lines (_ & Ht & Htrim) _ IH]; simpl; [reflexivity|].
  now rewrite Htrim, Ht, IH.
Qed.

(** The lines of a chunk that carries whole lines. *)
Lemma chunkLines_linesText lines :
  Forall cleanLine lines -> ChatPage.chunkLines (linesText lines) = lines.
Proof.
  intros Hall. unfold ChatPage.chunkLines.
  rewrite <- (append_empty_r (linesText lines)).
  rewrite (split_linesText _ EmptyString Hall eq_refl).
  rewrite List.filter_app, (filter_clean _ Hall). simpl. apply app_nil_r.
Qed.

(** The lines of a file that holds whole lines. *)
Lemma fileLines_linesText lines :
  Forall cleanLine lines -> fileLines (linesText lines) = lines.
Proof.
  intros Hall. unfold fileLines.
  destruct (decide (lines = [])) as [-> | Hne]; [reflexivity|].
  assert (exists front last, lines = front ++ [last]) as (front & last & ->).
  { destruct (exists_last Hne) as (front & last & E). now exists front, last. }
  apply Forall_app in Hall as [Hfront Hlast].
  apply Forall_cons_1 in Hlast as [Hlast _].
  assert (Htrim : trim (linesText (front ++ [last])) = linesText front +:+ last).
  { unfold trim.
    assert (Hstart : trimStart (linesText (front ++ [last]))
                     = linesText (front ++ [last])).
    { destruct front as [|first front]; simpl.
      - now apply cleanLine_trimStart.
      - apply Forall_cons_1 in Hfront as [Hfirst _].
        now apply cleanLine_trimStart. }
    rewrite Hstart, linesText_app. simpl.
    rewrite trimEnd_app; rewrite (cleanLine_trimEnd _ Hlast);
      [reflexivity | now apply cleanLine_nonempty]. }
  rewrite Htrim, (split_linesText _ _ Hfront (proj1 Hlast)).
  apply filter_clean. apply Forall_app. split; [exact Hfront | now constructor].
Qed.

End LineFacts.

Section WrittenLines.

Context {Data : Type} `{!JsonCodec Data}.

Lemma wellEncoded_cleanLine (m : StreamResponse Data) :
  wellEncoded m -> cleanLine (JSON_stringify m).
Proof.
  intros Hm. pose proof Hm as (_ & Hlf & body & E).
  split; [exact Hlf|]. split.
  - rewrite E. reflexivity.
  - unfold trim. rewrite <- (append_empty_r (JSON_stringify m)) at 1.
    rewrite (wellEncoded_trimStart _ _ Hm), append_empty_r.
    rewrite E. change (String "{" (body +:+ "}")) with (String "{" body +:+ "}")%string.
    now rewrite trimEnd_app.
Qed.

Lemma logText_linesText (entries : list (StreamResponse Data)) :
  logText entries = linesText (map JSON_stringify entries).
Proof.
  induction entries as [|m entries IH]; [reflexivity|].
  change (logText (m :: entries))
    with (JSON_stringify m +:+ String LF (logText entries)).
  rewrite IH. reflexivity.
Qed.

Lemma readLoop_negative (lines : list string) n rounds :
  readLoop (Data:=Data) (n + rounds) (- Z.of_nat n) lines
  = readLoop rounds 0 lines.
Proof.
  induction n as [|n IH]; [reflexivity|].
  cbn [Nat.add readLoop].
  assert (Hlt : (- Z.of_nat (S n) <? Z.of_nat (length lines))%Z = true)
    by (apply Z.ltb_lt; lia).
  rewrite Hlt. unfold lineAt.
  assert (Hneg : (- Z.of_nat (S n) <? 0)%Z = true) by (apply Z.ltb_lt; lia).
  rewrite Hneg. simpl parseLine. cbn [app].
  replace (- Z.of_nat (S n) + 1)%Z with (- Z.of_nat n)%Z by lia.
  exact IH.
Qed.

Lemma readMessages_negative (lines : list string) i :
  (i < 0)%Z ->
  readMessages (Data:=Data) (Num i) lines = readMessages (Num 0) lines.
Proof.
  intros Hi. unfold readMessages.
  replace (Z.to_nat (Z.of_nat (length lines) - i))
    with (Z.to_nat (- i) + length lines) by lia.
  replace i with (- Z.of_nat (Z.to_nat (- i)))%Z at 2 by lia.
  rewrite readLoop_negative. f_equal. lia.
Qed.

End WrittenLines.

(** ** The stream log, read back *)

Section LogReader.

Context {Data : Type} `{!JsonCodec Data}.
Variable runtime : Runtime.

(** X1: what [appendMessage] has added to a log is what
    [readStreamingFile] returns after the messages already there: for a
    registered request whose log holds [old], after appending [entries]
    the reader returns, from index [k], the list [old ++ entries] without
    its first [k] messages. *)
Theorem log_read_back_after_appends encodedProjectName requestId path s s'
    info (old entries : list (StreamResponse Data)) k :
  getStreamingFilePath runtime encodedProjectName requestId = inr path ->
  requestStatuses s !! requestId = Some info ->
  default EmptyString (files s !! path) = logText old ->
  Forall wellEncoded (old ++ entries) ->
  appendAll runtime encodedProjectName requestId entries s = inr s' ->
  readStreamingFile runtime encodedProjectName requestId (Num (Z.of_nat k)) s'
  = inr (drop k (old ++ entries)).
Proof.
  intros Hpath Hinfo Hold Hall Happ.
  destruct (appendAll_effect runtime encodedProjectName requestId path entries
              Hpath s info Hinfo)
    as (s2 & info' & Happ' & _ & _ & _ & _ & _ & Hfile & _).
  rewrite Happ in Happ'. injection Happ' as <-.
  rewrite Hold, <- logText_app in Hfile.
  unfold readStreamingFile. rewrite Hpath.
  destruct (files s' !! path) as [content|]; simpl in Hfile.
  - rewrite Hfile. now rewrite readMessages_logText.
  - symmetry in Hfile. apply logText_nil_inv in Hfile. rewrite Hfile.
    now rewrite drop_nil.
Qed.

(** X2: a line of the log that is not JSON costs only itself: the reader
    returns the messages before and after it, in order.  Indices count
    lines, not messages: reading from an index up to the corrupt line
    drops that many messages, reading from an index beyond it drops one
    message less. *)
Theorem corrupt_log_line_is_skipped encodedProjectName requestId path s
    (before after : list (StreamResponse Data)) (bad : string) (k : nat) :
  getStreamingFilePath runtime encodedProjectName requestId = inr path ->
  files s !! path
  = Some (logText before +:+ bad +:+ String LF (logText after)) ->
  Forall wellEncoded before -> Forall wellEncoded after ->
  cleanLine bad -> JSON_parse bad = None ->
  readStreamingFile runtime encodedProjectName requestId (Num (Z.of_nat k)) s
  = inr (if k <=? length before then drop k before ++ after
         else drop (k - S (length before)) after).
Proof.
  intros Hpath Hfile Hbefore Hafter Hbad Hparse.
  unfold readStreamingFile. rewrite Hpath, Hfile. f_equal.
  assert (Htext :
    (logText before +:+ bad +:+ String LF (logText after))%string
    = linesText (map JSON_stringify before ++ bad :: map JSON_stringify after)).
  { rewrite linesText_app, !logText_linesText. reflexivity. }
  rewrite Htext, fileLines_linesText.
  2:{ apply Forall_app. split; [|constructor; [exact Hbad|]].
      - apply Forall_forall. intros line Hin.
        apply list_elem_of_In, in_map_iff in Hin as (m & <- & Hin).
        apply wellEncoded_cleanLine.
        rewrite Forall_forall in Hbefore. apply Hbefore. now apply list_elem_of_In.
      - apply Forall_forall. intros line Hin.
        apply list_elem_of_In, in_map_iff in Hin as (m & <- & Hin).
        apply wellEncoded_cleanLine.
        rewrite Forall_forall in Hafter. apply Hafter. now apply list_elem_of_In. }
  rewrite readMessages_nat, List.skipn_app, flat_map_app, length_map.
  rewrite List.skipn_map, parse_written by now apply Forall_drop.
  destruct (Nat.leb_spec k (length before)) as [Hle | Hgt].
  - replace (k - length before) with 0 by lia.
    rewrite drop_0.
    change (flat_map ?f (bad :: ?l)) with (f bad ++ flat_map f l).
    unfold parseLine at 1. rewrite Hparse. cbn [app].
    now rewrite parse_written.
  - rewrite drop_ge by lia. cbn [app].
    replace (k - length before) with (S (k - S (length before))) by lia.
    rewrite skipn_cons, List.skipn_map, parse_written by now apply Forall_drop.
    reflexivity.
Qed.

(** X3: a negative [fromIndex] is as good as 0: the loop of the reader
    spends its first rounds on lines that do not exist ([lines[i]] is
    [undefined], whose parse throws and is skipped), so the resume handler
    answers as for [fromIndex=0] in every state.  (From -2^53 down the
    increment of the loop variable is no longer exact.) *)
Theorem resume_from_negative_index_reads_all requestId query s i :
  parseInt (fromIndexText query) = Num i ->
  (- 2 ^ 53 < i < 0)%Z ->
  handleResumeRequest (Data:=Data) runtime requestId query s
  = handleResumeRequest runtime requestId (Some "0"%string) s.
Proof.
  intros Hparse [_ Hneg]. unfold handleResumeRequest. rewrite Hparse.
  change (parseInt (fromIndexText (Some "0"%string))) with (Num 0).
  destruct (negb (truthy requestId)); [reflexivity|].
  destruct (getRequestStatus requestId s) as [status|]; [|reflexivity].
  destruct (indexOf _ _) as [projectsIndex|]; [|reflexivity].
  destruct (_ <=? _); [reflexivity|].
  unfold resumeBody, readStreamingFile.
  destruct (getStreamingFilePath _ _ _) as [e|path]; [reflexivity|].
  destruct (files s !! path) as [content|]; [|reflexivity].
  now rewrite readMessages_negative.
Qed.

End LogReader.

Lemma corrupt_log_line_is_skipped_witness :
  readStreamingFile (runtimeAt "/home/user") "_w" "r1" (Num 1)
    damagedLog
  = inr [doneResponse (Data:=bool)].
Proof.
  apply (corrupt_log_line_is_skipped (runtimeAt "/home/user") "_w" "r1"
           (logPath "/home/user") damagedLog
           [dataResponse true] [doneResponse] "garbage" 1).
  - reflexivity.
  - reflexivity.
  - constructor; [apply wellEncoded_data | constructor].
  - constructor; [apply wellEncoded_done | constructor].
  - split; [reflexivity | split; reflexivity].
  - reflexivity.
Defined.

Lemma log_read_back_after_appends_witness :
  readStreamingFile (runtimeAt "/home/user") "_w" "r1" (Num 2) afterOneMore
  = inr [doneResponse (Data:=bool); dataResponse true].
Proof.
  eapply (log_read_back_after_appends (runtimeAt "/home/user") "_w" "r1"
            (logPath "/home/user") (afterTurn "/home/user") afterOneMore _
            [dataResponse true; dataResponse false; doneResponse]
            [dataResponse true] 2).
  - reflexivity.
  - vm_compute. reflexivity.
  - vm_compute. reflexivity.
  - repeat constructor; first [apply wellEncoded_data | apply wellEncoded_done].
  - vm_compute. reflexivity.
Defined.

Lemma resume_from_negative_index_reads_all_witness :
  handleResumeRequest (Data:=bool) (runtimeAt "/home/user") "r1"
    (Some "-3"%string) (afterTurn "/home/user")
  = handleResumeRequest (runtimeAt "/home/user") "r1"
      (Some "0"%string) (afterTurn "/home/user").
Proof.
  apply (resume_from_negative_index_reads_all (runtimeAt "/home/user")
           "r1" (Some "-3"%string) (afterTurn "/home/user") (-3)%Z).
  - reflexivity.
  - lia.
Defined.

(** ** The cursor in the resume URL *)

Section Decimal.

Lemma decimalDigit_facts d :
  d < 10 ->
  isWhiteSpace (decimalDigit d) = false /\
  digitValue (decimalDigit d) = Some (Z.of_nat d) /\
  decimalDigit d <> "-"%char /\ decimalDigit d <> "+"%char.
Proof.
  intros Hd.
  do 10 (destruct d as [|d];
         [split; [reflexivity | split; [reflexivity | split; discriminate]]|]).
  lia.
Qed.

Lemma decimalFrom_parse rounds :
  forall n, n < rounds ->
  exists scale : Z, forall text acc,
    parseDigits (decimalFrom rounds n text) acc
    = parseDigits text (Some (scale * default 0%Z acc + Z.of_nat n)%Z).
Proof.
  induction rounds as [|rounds IH]; intros n Hn; [lia|].
  cbn [decimalFrom].
  destruct (decimalDigit_facts (n mod 10)) as (_ & Hvalue & _).
  { apply Nat.mod_upper_bound. lia. }
  destruct (Nat.ltb_spec n 10) as [Hsmall | Hbig].
  - exists 10%Z. intros text acc. cbn [parseDigits]. rewrite Hvalue.
    rewrite Nat.mod_small by exact Hsmall. reflexivity.
  - destruct (IH (n / 10)) as (scale & Hscale).
    { pose proof (Nat.div_lt n 10). lia. }
    exists (10 * scale)%Z. intros text acc.
    rewrite Hscale. cbn [parseDigits]. rewrite Hvalue. cbn [default].
    do 2 f_equal. pose proof (Nat.div_mod_eq n 10).
    unfold id. rewrite <- Z.mul_assoc. lia.
Qed.

Lemma decimalFrom_head rounds :
  forall n text, n < rounds ->
  exists d rest, d < 10 /\ decimalFrom rounds n text = String (decimalDigit d) rest.
Proof.
  induction rounds as [|rounds IH]; intros n text Hn; [lia|].
  cbn [decimalFrom].
  destruct (Nat.ltb_spec n 10) as [Hsmall | Hbig].
  - exists (n mod 10), text. split; [apply Nat.mod_upper_bound; lia | reflexivity].
  - apply IH. pose proof (Nat.div_lt n 10). lia.
Qed.

Lemma parseInt_decimal n :
  parseInt (decimal n) = Num (Z.of_nat n) /\ truthy (decimal n) = true.
Proof.
  unfold decimal.
  destruct (decimalFrom_head (S n) n EmptyString) as (d & rest & Hd & Hhead); [lia|].
  destruct (decimalFrom_parse (S n) n) as (scale & Hscale); [lia|].
  destruct (decimalDigit_facts d Hd) as (Hws & _ & Hminus & Hplus).
  split; [|now rewrite Hhead].
  unfold parseInt.
  assert (Hstart : trimStart (decimalFrom (S n) n EmptyString)
                   = decimalFrom (S n) n EmptyString).
  { rewrite Hhead. cbn [trimStart]. now rewrite Hws. }
  assert (Hsign : afterSign (decimalFrom (S n) n EmptyString)
                  = decimalFrom (S n) n EmptyString).
  { unfold afterSign. rewrite Hstart, Hhead.
    destruct (decimalDigit d) as [[] [] [] [] [] [] [] []]; try reflexivity;
      congruence. }
  rewrite Hsign, Hscale, Hstart, Hhead. cbn [parseDigits default].
  assert (Hneg : startsWith "-" (String (decimalDigit d) rest) = false).
  { cbn [startsWith]. apply andb_false_iff. left.
    apply Ascii.eqb_neq. congruence. }
  rewrite Hneg. f_equal. lia.
Qed.

(** X4: the cursor survives the trip through the URL: the text the
    client's [resumeStreaming] puts after [fromIndex=] is read back by the
    resume handler as the same number. *)
Theorem fromIndex_text_round_trip n :
  parseInt (fromIndexText (Some (decimal n))) = Num (Z.of_nat n).
Proof.
  destruct (parseInt_decimal n) as [Hparse Htruthy].
  unfold fromIndexText. now rewrite Htruthy.
Qed.

End Decimal.

(** ** What counts as a network error *)


(** ** Project names *)

Section ProjectNames.





Lemma replaceAll_idempotent c d s :
  c <> d -> replaceAll c d (replaceAll c d s) = replaceAll c d s.
Proof.
  intros Hcd. induction s as [|a s IH]; simpl; [reflexivity|].
  rewrite IH. f_equal.
  destruct (Ascii.eqb_spec a c) as [-> | Hac].
  - destruct (Ascii.eqb_spec d c); congruence.
  - destruct (Ascii.eqb_spec a c); congruence.
Qed.


(** X7: the encoding does not tell a slash from an underscore: a working
    directory and the same text with its slashes written as underscores
    have the same encoded name, hence the same streaming directory and
    the same log file for a given request id. *)
Theorem project_names_collide runtime dir requestId :
  getEncodedProjectName (Some (replaceAll "/" "_" dir))
  = getEncodedProjectName (Some dir) /\
  forall name other,
    getEncodedProjectName (Some dir) = Some name ->
    getEncodedProjectName (Some (replaceAll "/" "_" dir)) = Some other ->
    getStreamingFilePath runtime other requestId
    = getStreamingFilePath runtime name requestId.
Proof.
  assert (Hsame : getEncodedProjectName (Some (replaceAll "/" "_" dir))
                  = getEncodedProjectName (Some dir)).
  { unfold getEncodedProjectName.
    rewrite replaceAll_idempotent by discriminate.
    destruct dir; reflexivity. }
  split; [exact Hsame|].
  intros name other Hname Hother. rewrite Hsame, Hname in Hother.
  now injection Hother as <-.
Qed.

End ProjectNames.

(** ** The authentication mode in local storage *)

(** X8: a mode set with [setAuthMode] is the mode the hook loads on its
    next mount, whatever the storage held before and whatever the initial
    state is. *)
Theorem auth_mode_survives_reload mode localStorage initial :
  AuthMode.loadAuthMode (AuthMode.setAuthMode mode localStorage).2 initial = mode.
Proof.
  unfold AuthMode.loadAuthMode, AuthMode.setAuthMode. cbn [snd].
  rewrite lookup_insert_eq. now destruct mode.
Qed.

(** ** The sweeper's timer and the shutdown *)

Section Shutdown.

Context {Data : Type} `{!JsonCodec Data}.
Variable runtime : Runtime.

(** X9: however [startCleanupInterval] and [stopCleanupInterval] are
    called, at most one sweeper timer runs: the running timers are the
    one held in [cleanupInterval], or none. *)
Theorem at_most_one_cleanup_timer calls :
  let t := foldl CleanupTimer.call CleanupTimer.initial calls in
  CleanupTimer.running t
  = match CleanupTimer.cleanupInterval t with
    | Some handle => {[handle]}
    | None => ∅
    end.
Proof.
  induction calls as [|what calls IH] using rev_ind; [reflexivity|].
  cbv zeta in *. rewrite foldl_app. cbn [foldl].
  set (t := foldl CleanupTimer.call CleanupTimer.initial calls) in *.
  destruct what; cbn [CleanupTimer.call].
  - unfold CleanupTimer.startCleanupInterval.
    destruct (CleanupTimer.cleanupInterval t) eqn:E.
    + now rewrite E.
    + cbn. rewrite IH. apply (right_id_L ∅ (∪)).
  - unfold CleanupTimer.stopCleanupInterval.
    destruct (CleanupTimer.cleanupInterval t) eqn:E.
    + cbn. rewrite IH. apply difference_diag_L.
    + now rewrite E.
Qed.

(** X10: [cleanupAllStreamingFiles] for one project forgets the requests
    of every project.  When the directory is removed, the registry is
    empty afterwards, exactly the files under that project's streaming
    directory are gone, and the next [appendMessage] of any request, of
    any project, throws; when the removal fails nothing changes. *)
Theorem shutdown_cleanup_forgets_every_request encodedProjectName dir s :
  getStreamingDir runtime encodedProjectName = inr dir ->
  cleanupAllStreamingFiles runtime true encodedProjectName s = inr s /\
  exists s',
    cleanupAllStreamingFiles runtime false encodedProjectName s = inr s' /\
    requestStatuses s' = ∅ /\
    (forall path,
       files s' !! path
       = if underDirectory dir path then None else files s !! path) /\
    (forall other requestId (m : StreamResponse Data),
       appendMessage runtime other requestId m s'
       = inl (OtherError ("Request " +:+ requestId +:+ " not initialized"))).
Proof.
  intros Hdir. unfold cleanupAllStreamingFiles. rewrite Hdir.
  split; [reflexivity|]. eexists. split; [reflexivity|].
  split; [reflexivity|]. split.
  - intros path. cbn [files setStatuses setFiles]. unfold removeDir.
    destruct (underDirectory dir path) eqn:Hunder.
    + apply map_lookup_filter_None_2. right. intros value _. cbn.
      now rewrite Hunder.
    + destruct (files s !! path) as [value|] eqn:Hfile.
      * now apply map_lookup_filter_Some_2.
      * apply map_lookup_filter_None_2. now left.
  - intros other requestId m. unfold appendMessage, getStreamingFilePath.
    unfold getStreamingDir in *.
    destruct (getEnv runtime "HOME") as [home|]; [|discriminate].
    destruct (truthy home); [|discriminate].
    cbn [requestStatuses setStatuses]. now rewrite lookup_empty.
Qed.

End Shutdown.

Lemma shutdown_cleanup_forgets_every_request_witness :
  exists s',
    cleanupAllStreamingFiles (runtimeAt "/home/user") false "_w"
      (afterTurn "/home/user") = inr s' /\
    appendMessage (runtimeAt "/home/user") "_other" "r2" (dataResponse true) s'
    = inl (OtherError "Request r2 not initialized").
Proof.
  destruct (shutdown_cleanup_forgets_every_request (Data:=bool)
              (runtimeAt "/home/user") "_w"
              "/home/user/.claude/projects/_w/streaming"
              (afterTurn "/home/user") eq_refl)
    as (_ & s' & Hclean & _ & _ & Happend).
  exists s'. split; [exact Hclean | apply Happend].
Defined.

(** ** The sweeper, once more *)

Section SweeperFiles.

Variable runtime : Runtime.

Lemma sweep_files_other (requestIds : list string) path :
  forall s,
    (forall r info, r ∈ requestIds -> requestStatuses s !! r = Some info ->
       StreamingFileInfo.filePath info <> path \/
       removeThrows runtime path = true) ->
    files (foldl (sweepOne runtime) s requestIds) !! path = files s !! path.
Proof.
  induction requestIds as [|r requestIds IH]; intros s Hother; [reflexivity|].
  cbn [foldl]. rewrite IH.
  - unfold sweepOne.
    destruct (requestStatuses s !! r) as [info|] eqn:Hinfo; [|reflexivity].
    destruct (removeThrows runtime (StreamingFileInfo.filePath info)) eqn:Hrm;
      [reflexivity|].
    cbn [files setStatuses setFiles].
    destruct (Hother r info) as [Hne | Hthrows];
      [left | exact Hinfo | | ].
    + now apply lookup_delete_ne.
    + destruct (decide (StreamingFileInfo.filePath info = path)) as [E | Hne].
      * rewrite E in Hrm. congruence.
      * now apply lookup_delete_ne.
  - intros r' info' Hin Hl. rewrite sweepOne_statuses in Hl.
    apply lookup_delete_Some in Hl as [_ Hl].
    apply (Hother r' info'); [now right | exact Hl].
Qed.

(** X11: the sweeper removes the log files of the entries it evicts and
    no other file: a path loses its file when it is the log path of an
    expired entry and its removal works, and keeps what it holds
    otherwise. *)
Theorem sweep_removes_exactly_the_evicted_logs s path :
  let evicted :=
    exists r info,
      requestStatuses s !! r = Some info /\
      isExpired (clock s) info = true /\
      StreamingFileInfo.filePath info = path /\
      removeThrows runtime path = false in
  (evicted -> files (cleanupExpiredFiles runtime s) !! path = None) /\
  (~ evicted -> files (cleanupExpiredFiles runtime s) !! path = files s !! path).
Proof.
  intros evicted. split.
  - intros (r & info & Hinfo & Hexp & <- & Hrm).
    now apply (cleanupExpiredFiles_removes_log runtime s r info).
  - intros Hnot. unfold cleanupExpiredFiles. apply sweep_files_other.
    intros r info Hin Hinfo.
    apply elem_of_expiredRequests in Hin as (info' & Hinfo' & Hexp).
    rewrite Hinfo in Hinfo'. injection Hinfo' as <-.
    destruct (decide (StreamingFileInfo.filePath info = path)) as [E | Hne];
      [|now left].
    destruct (removeThrows runtime path) eqn:Hrm; [now right|].
    exfalso. apply Hnot. now exists r, info.
Qed.

(** X12: sweeping twice at the same time is sweeping once: after a sweep
    no entry is left that the sweeper would evict. *)
Theorem sweep_is_idempotent s :
  cleanupExpiredFiles runtime (cleanupExpiredFiles runtime s)
  = cleanupExpiredFiles runtime s.
Proof.
  set (s' := cleanupExpiredFiles runtime s).
  unfold cleanupExpiredFiles at 1.
  destruct (expiredRequests (clock s') (requestStatuses s')) as [|r rest] eqn:E;
    [reflexivity|].
  exfalso.
  assert (Hin : r ∈ expiredRequests (clock s') (requestStatuses s'))
    by (rewrite E; left).
  apply elem_of_expiredRequests in Hin as (info & Hinfo & Hexp).
  subst s'. rewrite cleanupExpiredFiles_clock in Hexp.
  rewrite cleanupExpiredFiles_lookup in Hinfo.
  destruct (requestStatuses s !! r) as [info0|]; [|discriminate].
  destruct (isExpired (clock s) info0) eqn:Hexp0; [discriminate|].
  injection Hinfo as ->. congruence.
Qed.

End SweeperFiles.

(** ** Chat turns that cannot write a log *)

Section ChatTurns.

Context {Data : Type} `{!JsonCodec Data}.
Variable runtime : Runtime.

Lemma forAwait_yielded requestId items ending s :
  forAwait (Data:=Data) runtime None requestId items ending s
  = (s, map Yielded (map dataResponse items),
     match ending with
     | Returns => inr tt
     | Throws e => inl e
     end).
Proof.
  induction items as [|d items IH]; cbn [forAwait map].
  - now destruct ending.
  - unfold bind. cbn [writeThenYield yield]. rewrite IH.
    now destruct ending.
Qed.


(** Without a project the run writes nothing and yields everything. *)
Lemma executeClaudeCommand_no_project query request s :
  getEncodedProjectName (ChatRequest.workingDirectory request) = None ->
  let requestId := ChatRequest.requestId request in
  let run := runOf runtime query request in
  executeClaudeCommand runtime query request s
  = (setControllers
       (({[requestId]} ∪ requestAbortControllers s) ∖ {[requestId]}) s,
     map Yielded (map dataResponse (sdkMessages run) ++ [terminalOf (ending run)]),
     inr tt).
Proof.
  intros Hname requestId run.
  unfold executeClaudeCommand, tryFinally, tryCatch. fold requestId.
  rewrite Hname.
  set (s1 := setControllers ({[requestId]} ∪ requestAbortControllers s) s).
  assert (Hstart :
    modify (Data:=Data)
      (fun s => setControllers ({[requestId]} ∪ requestAbortControllers s) s) s
    = (s1, [], inr tt)) by reflexivity.
  rewrite (bind_inr _ _ _ _ _ _ Hstart).
  assert (Hskip : ret (Data:=Data) tt s1 = (s1, [], inr tt)) by reflexivity.
  rewrite (bind_inr _ _ _ _ _ _ Hskip).
  rewrite map_app.
  destruct (authPasses runtime request) eqn:Hauth.
  - rewrite (bind_inr _ _ _ _ _ _ (checkAuthMode_passes runtime request s1 Hauth)).
    assert (Hrun : run =
      query (if startsWith "/" (ChatRequest.message request)
             then String.substring 1 (String.length (ChatRequest.message request) - 1)
                    (ChatRequest.message request)
             else ChatRequest.message request)
        (ChatRequest.sessionId request) (ChatRequest.allowedTools request)
        (ChatRequest.workingDirectory request))
      by (subst run; unfold runOf; now rewrite Hauth).
    rewrite <- Hrun.
    pose proof (forAwait_yielded requestId (sdkMessages run) (ending run) s1)
      as Hloop.
    destruct (ending run) as [|e] eqn:Hend.
    + rewrite (bind_inr _ _ _ _ _ _ Hloop). reflexivity.
    + rewrite (bind_inl _ _ _ _ _ _ Hloop). now destruct e.
  - rewrite (bind_inl _ _ _ _ _ _ (checkAuthMode_throws runtime request s1 Hauth)).
    assert (Hrun : sdkMessages run = [] /\
                   ending run = Throws (OtherError "API Key mode requested but ANTHROPIC_API_KEY not found"))
      by (subst run; unfold runOf; now rewrite Hauth).
    destruct Hrun as [-> ->]. reflexivity.
Qed.

(** With a project but no log path the run stops at once: the error of
    the path computation leaves the generator. *)
Lemma executeClaudeCommand_no_path query request name e s :
  getEncodedProjectName (ChatRequest.workingDirectory request) = Some name ->
  getStreamingFilePath runtime name (ChatRequest.requestId request) = inl e ->
  let requestId := ChatRequest.requestId request in
  executeClaudeCommand runtime query request s
  = (setControllers
       (({[requestId]} ∪ requestAbortControllers s) ∖ {[requestId]}) s,
     [], inl e).
Proof.
  intros Hname Hpath requestId.
  destruct (getEncodedProjectName_Some _ _ Hname) as [Htruthy _].
  unfold executeClaudeCommand, tryFinally, tryCatch. fold requestId.
  rewrite Hname, Htruthy.
  set (s1 := setControllers ({[requestId]} ∪ requestAbortControllers s) s).
  assert (Hstart :
    modify (Data:=Data)
      (fun s => setControllers ({[requestId]} ∪ requestAbortControllers s) s) s
    = (s1, [], inr tt)) by reflexivity.
  rewrite (bind_inr _ _ _ _ _ _ Hstart).
  assert (Hawait :
    await (Data:=Data) (initializeStreaming runtime name requestId) s1
    = (s1, [], inl e)).
  { unfold await. now rewrite (initializeStreaming_inl runtime _ _ _ _ Hpath). }
  rewrite (bind_inl _ _ _ _ _ _ Hawait).
  assert (Hwrite : forall m,
    writeThenYield runtime (Some name) requestId m s1 = (s1, [], inl e)).
  { intros m. apply writeThenYield_throws; [exact Htruthy|].
    unfold appendMessage. fold requestId in Hpath. now rewrite Hpath. }
  destruct e as [text|text]; rewrite Hwrite; reflexivity.
Qed.

End ChatTurns.

(** ** Chat turns, case by case *)

Section ChatTurnFacts.

Context {Data : Type} `{!JsonCodec Data}.
Variable runtime : Runtime.


(** X14: however a chat turn goes, its abort controller is gone when it
    ends: the controllers afterwards are the ones from before without the
    one of this request id, and the clock is not touched. *)
Theorem chat_turn_releases_its_abort_controller query request s :
  let s' := (handleChatRequest runtime query request s).1 in
  requestAbortControllers s'
  = requestAbortControllers s ∖ {[ChatRequest.requestId request]} /\
  clock s' = clock s.
Proof.
  intros s'. subst s'. rewrite handleChatRequest_state.
  assert (Hset : forall (r : string) (C : gset string),
    ({[r]} ∪ C) ∖ {[r]} = C ∖ {[r]}).
  { intros r C. apply set_eq. intros x.
    rewrite !elem_of_difference, elem_of_union. tauto. }
  destruct (getEncodedProjectName (ChatRequest.workingDirectory request))
    as [name|] eqn:Hname.
  - destruct (getStreamingFilePath runtime name (ChatRequest.requestId request))
      as [e|path] eqn:Hpath.
    + rewrite (executeClaudeCommand_no_path runtime query request name e s
                 Hname Hpath).
      cbn. now rewrite Hset.
    + destruct (executeClaudeCommand_project runtime query request name path s
                  Hname Hpath) as (s2 & s4 & Hinit & Hall & ->).
      rewrite (initializeStreaming_inr runtime _ _ _ _ Hpath) in Hinit.
      injection Hinit as <-.
      set (s1 := setControllers _ s) in *. set (s2 := setStatuses _ s1) in *.
      assert (Hentry : requestStatuses s2 !! ChatRequest.requestId request
        = Some (StreamingFileInfo.mk (ChatRequest.requestId request) path
                  IN_PROGRESS 0 (clock s1)))
        by apply lookup_insert_eq.
      destruct (appendAll_effect runtime name (ChatRequest.requestId request) path
                  (map dataResponse (sdkMessages (runOf runtime query request))
                   ++ [terminalOf (ending (runOf runtime query request))])
                  Hpath s2 _ Hentry)
        as (s4' & info & Hrun & _ & _ & _ & _ & _ & _ & _ & _ & _ & Hctl & Hclock).
      rewrite Hall in Hrun. injection Hrun as <-.
      cbn [fst requestAbortControllers clock setControllers].
      rewrite Hctl, Hclock. subst s2 s1. cbn. now rewrite Hset.
  - rewrite (executeClaudeCommand_no_project runtime query request s Hname).
    cbn. now rewrite Hset.
Qed.

(** X15: a chat turn that cannot write a log leaves no trace: when the
    request names no project, or the log path cannot be made, the
    registry and the files are as before, and so are the answers of the
    status and resume handlers for every request id. *)
Theorem chat_turn_without_log_leaves_no_trace query request s :
  match getEncodedProjectName (ChatRequest.workingDirectory request) with
  | Some name =>
      exists e,
        getStreamingFilePath runtime name (ChatRequest.requestId request) = inl e
  | None => True
  end ->
  let s' := (handleChatRequest runtime query request s).1 in
  requestStatuses s' = requestStatuses s /\ files s' = files s /\
  forall requestId fromIndex,
    handleStatusRequest requestId s' = handleStatusRequest requestId s /\
    handleResumeRequest (Data:=Data) runtime requestId fromIndex s'
    = handleResumeRequest runtime requestId fromIndex s.
Proof.
  intros Hcase s'. subst s'. rewrite handleChatRequest_state.
  assert (Hstate : exists C,
    (executeClaudeCommand runtime query request s).1.1 = setControllers C s).
  { destruct (getEncodedProjectName (ChatRequest.workingDirectory request))
      as [name|] eqn:Hname.
    - destruct Hcase as [e Hpath].
      rewrite (executeClaudeCommand_no_path runtime query request name e s
                 Hname Hpath).
      now eexists.
    - rewrite (executeClaudeCommand_no_project runtime query request s Hname).
      now eexists. }
  destruct Hstate as [C ->].
  split; [reflexivity|]. split; [reflexivity|].
  intros requestId fromIndex. split; reflexivity.
Qed.



(** X17: in [api_key] mode without a key the engine is not consulted:
    the whole turn, state and chunks, is the same whatever the engine
    would have done. *)
Theorem api_key_mode_without_key_skips_the_engine query query' request s :
  authPasses runtime request = false ->
  handleChatRequest runtime query request s
  = handleChatRequest runtime query' request s.
Proof.
  intros Hauth.
  assert (Hrun : runOf runtime query request = runOf runtime query' request)
    by (unfold runOf; now rewrite Hauth).
  unfold handleChatRequest.
  assert (Hexec : executeClaudeCommand runtime query request s
                  = executeClaudeCommand runtime query' request s).
  { destruct (getEncodedProjectName (ChatRequest.workingDirectory request))
      as [name|] eqn:Hname.
    - destruct (getStreamingFilePath runtime name (ChatRequest.requestId request))
        as [e|path] eqn:Hpath.
      + now rewrite !(executeClaudeCommand_no_path runtime _ request name e s
                        Hname Hpath).
      + destruct (executeClaudeCommand_project runtime query request name path s
                    Hname Hpath) as (s2 & s4 & Hinit & Hall & ->).
        destruct (executeClaudeCommand_project runtime query' request name path s
                    Hname Hpath) as (s2' & s4' & Hinit' & Hall' & ->).
        rewrite Hinit in Hinit'. injection Hinit' as <-.
        rewrite <- Hrun in Hall'. rewrite Hall in Hall'. injection Hall' as <-.
        now rewrite Hrun.
    - rewrite !(executeClaudeCommand_no_project runtime _ request s Hname).
      now rewrite Hrun. }
  now rewrite Hexec.
Qed.

End ChatTurnFacts.

Lemma chat_turn_without_log_leaves_no_trace_witness :
  requestStatuses
    (handleChatRequest runtimeNoEnv twoMessages (chat "r2" (Some "/w"%string))
       (afterTurn "/home/user")).1
  = requestStatuses (afterTurn "/home/user").
Proof.
  refine (proj1 (chat_turn_without_log_leaves_no_trace runtimeNoEnv twoMessages
                   (chat "r2" (Some "/w"%string)) (afterTurn "/home/user") _)).
  eexists. reflexivity.
Defined.


Lemma api_key_mode_without_key_skips_the_engine_witness :
  handleChatRequest (runtimeAt "/home/user") twoMessages apiKeyChat emptyServer
  = handleChatRequest (runtimeAt "/home/user") silent apiKeyChat emptyServer.
Proof.
  apply (api_key_mode_without_key_skips_the_engine (runtimeAt "/home/user")
           twoMessages silent apiKeyChat emptyServer).
  reflexivity.
Defined.

(** ** The registry's entries *)

Section RegistrySoundness.

Context {Data : Type} `{!JsonCodec Data}.
Variable runtime : Runtime.







End RegistrySoundness.



(** ** The live stream on the client *)

Section LiveStream.

Import Recovery ChatPage.

Implicit Types (c : Client) (line : string).

(** The lines of the live stream, received one after the other. *)
Local Abbreviation received start lines :=
  (foldl (fun client text => receiveLine text client) start lines).

Lemma tail_drop {A} (l : list A) : tail l = drop 1 l.
Proof. now destruct l. Qed.

Lemma receiveLine_effect line c :
  length (messageHistoryRef c) <= 100 ->
  let c' := receiveLine line c in
  let pushed := messageHistoryRef c ++ [(messageIndexRef c, line)] in
  messageIndexRef c' = S (messageIndexRef c) /\
  processed c' = processed c ++ [line] /\
  messageHistoryRef c' = drop (length pushed - 100) pushed /\
  length (messageHistoryRef c') <= 100 /\
  calls c' = calls c /\ retryTimeoutRef c' = retryTimeoutRef c.
Proof.
  intros Hlen c' pushed. subst c'. unfold receiveLine, trackMessage.
  cbn [snd messageIndexRef processed messageHistoryRef calls retryTimeoutRef
       processStreamLine setTracking].
  fold pushed.
  assert (Hpushed : length pushed = S (length (messageHistoryRef c)))
    by (subst pushed; rewrite length_app; simpl; lia).
  split; [reflexivity|]. split; [reflexivity|].
  destruct (Nat.ltb_spec 100 (length pushed)) as [Hover | Hfits].
  - replace (length pushed - 100) with 1 by lia. rewrite tail_drop.
    split; [reflexivity|]. rewrite length_drop.
    split; [lia | now split].
  - replace (length pushed - 100) with 0 by lia. rewrite drop_0.
    split; [reflexivity|]. split; [lia | now split].
Qed.

Lemma received_effect lines :
  forall c,
    length (messageHistoryRef c) <= 100 ->
    let c' := received c lines in
    let full :=
      messageHistoryRef c
      ++ imap (fun i line => (messageIndexRef c + i, line)) lines in
    messageIndexRef c' = messageIndexRef c + length lines /\
    processed c' = processed c ++ lines /\
    messageHistoryRef c' = drop (length full - 100) full /\
    length (messageHistoryRef c') <= 100 /\
    calls c' = calls c /\ retryTimeoutRef c' = retryTimeoutRef c.
Proof.
  induction lines as [|line lines IH]; intros c Hlen.
  - cbn [foldl imap length]. rewrite !app_nil_r, Nat.add_0_r.
    replace (length (messageHistoryRef c) - 100) with 0 by lia.
    now rewrite drop_0.
  - cbn [foldl].
    destruct (receiveLine_effect line c Hlen)
      as (Hidx & Hproc & Hhist & Hlen1 & Hcalls & Htimer).
    destruct (IH (receiveLine line c) Hlen1)
      as (Hidx' & Hproc' & Hhist' & Hlen' & Hcalls' & Htimer').
    cbv zeta in *.
    split; [rewrite Hidx', Hidx; cbn [length]; lia|].
    split; [rewrite Hproc', Hproc; now rewrite <- app_assoc|].
    split; [|split; [exact Hlen'|split; congruence]].
    rewrite Hhist', Hhist, Hidx. clear IH Hhist' Hhist.
    rewrite imap_cons, Nat.add_0_r.
    set (pushed := messageHistoryRef c ++ [(messageIndexRef c, line)]).
    assert (Himap :
      imap (fun i l => (S (messageIndexRef c) + i, l)) lines
      = imap ((fun i l => (messageIndexRef c + i, l)) ∘ S) lines).
    { apply imap_ext. intros i l _. cbn. f_equal. lia. }
    rewrite Himap.
    set (later := imap _ lines).
    replace (messageHistoryRef c ++ (messageIndexRef c, line) :: later)
      with (pushed ++ later)
      by (subst pushed; now rewrite <- app_assoc).
    assert (Hpushed : length pushed = S (length (messageHistoryRef c)))
      by (subst pushed; rewrite length_app; simpl; lia).
    rewrite !length_app, length_drop.
    destruct (le_lt_dec (length pushed) 100) as [Hfits | Hover].
    + replace (length pushed - 100) with 0 by lia. rewrite drop_0.
      f_equal. lia.
    + replace (length pushed - 100) with 1 by lia.
      replace (length pushed - 1 + length later - 100) with (length later) by lia.
      replace (length pushed + length later - 100) with (1 + length later) by lia.
      rewrite <- drop_drop, (drop_app_le pushed later 1) by lia. reflexivity.
Qed.

Lemma received_counts lines :
  forall c,
    messageIndexRef (received c lines) = messageIndexRef c + length lines /\
    processed (received c lines) = processed c ++ lines /\
    calls (received c lines) = calls c.
Proof.
  induction lines as [|line lines IH]; intros c.
  - cbn [foldl length]. now rewrite app_nil_r, Nat.add_0_r.
  - cbn [foldl]. destruct (IH (receiveLine line c)) as (-> & -> & ->).
    cbn. split; [lia|]. split; [now rewrite <- app_assoc | reflexivity].
Qed.

Variable aborts : string -> bool.

Lemma processLines_all lines :
  forall c,
    (forall line, line ∈ lines -> aborts line = false) ->
    processLines aborts lines c = (false, received c lines).
Proof.
  induction lines as [|line lines IH]; intros c Hno; [reflexivity|].
  cbn [processLines foldl]. rewrite Hno by left.
  apply IH. intros l Hin. apply Hno. now right.
Qed.

Lemma processLines_abort before line rest :
  forall c,
    (forall l, l ∈ before -> aborts l = false) -> aborts line = true ->
    processLines aborts (before ++ line :: rest) c
    = (true, received c (before ++ [line])).
Proof.
  induction before as [|l before IH]; intros c Hno Habort.
  - cbn [app processLines foldl]. now rewrite Habort.
  - cbn [app processLines foldl]. rewrite Hno by left.
    apply IH; [|exact Habort]. intros l' Hin. apply Hno. now right.
Qed.

Lemma readStream_whole_lines groups more :
  forall c,
    Forall (Forall cleanLine) groups ->
    (forall line, line ∈ concat groups -> aborts line = false) ->
    readStream aborts (map linesText groups ++ more) c
    = readStream aborts more (received c (concat groups)).
Proof.
  induction groups as [|group groups IH]; intros c Hclean Hno; [reflexivity|].
  apply Forall_cons_1 in Hclean as [Hgroup Hclean].
  cbn [map app readStream concat].
  rewrite (chunkLines_linesText _ Hgroup), processLines_all.
  - rewrite foldl_app. apply IH; [exact Hclean|].
    intros line Hin. apply Hno. cbn [concat]. apply elem_of_app. now right.
  - intros line Hin. apply Hno. cbn [concat]. apply elem_of_app. now left.
Qed.

Section Send.

Context {Data : Type} `{!JsonCodec Data}.
Variable options : Options.
Variable network : Network (Data:=Data).

(** X20: a response stream whose chunks carry whole lines is tracked
    line by line.  When no line asks for an abort and the stream ends
    normally, [sendMessage] hands every line to the message processor, in
    order; the cursor ends as the number of lines of this request; and
    the history is the last 100 entries of the old history followed by
    the lines with their indices (it is not emptied between requests). *)
Theorem live_stream_is_tracked_line_by_line requestId groups c :
  Forall (Forall cleanLine) groups ->
  (forall line, line ∈ concat groups -> aborts line = false) ->
  length (messageHistoryRef c) <= 100 ->
  let lines := concat groups in
  let full := messageHistoryRef c ++ imap (fun i line => (i, line)) lines in
  exists c',
    sendMessage options network aborts requestId (map linesText groups) Done c
    = Some (None, c') /\
    messageIndexRef c' = length lines /\
    processed c' = processed c ++ lines /\
    messageHistoryRef c' = drop (length full - 100) full /\
    calls c' = calls c.
Proof.
  intros Hclean Hno Hlen lines full. unfold sendMessage.
  rewrite <- (app_nil_r (map linesText groups)).
  rewrite (readStream_whole_lines groups [] _ Hclean Hno).
  cbn [readStream]. eexists. split; [reflexivity|].
  destruct (received_effect lines (resetTracking c) Hlen)
    as (Hidx & Hproc & Hhist & _ & Hcalls & _).
  fold lines. rewrite Hidx, Hproc, Hhist, Hcalls.
  now cbn [messageIndexRef resetTracking setTracking Nat.add].
Qed.

(** X21: once a line has asked for an abort nothing after it is tracked
    or processed, whatever else the stream carries, and a read error
    after it starts no recovery: no call is made. *)
Theorem abort_stops_the_read_loop requestId groups before line rest later
    ending c :
  Forall (Forall cleanLine) groups ->
  Forall cleanLine (before ++ line :: rest) ->
  (forall l, l ∈ concat groups ++ before -> aborts l = false) ->
  aborts line = true ->
  exists c',
    sendMessage options network aborts requestId
      (map linesText groups ++ linesText (before ++ line :: rest) :: later)
      ending c
    = Some (None, c') /\
    processed c' = processed c ++ concat groups ++ before ++ [line] /\
    messageIndexRef c' = S (length (concat groups ++ before)) /\
    calls c' = calls c.
Proof.
  intros Hclean Hchunk Hno Habort. unfold sendMessage.
  rewrite (readStream_whole_lines groups _ _ Hclean).
  2:{ intros l Hin. apply Hno, elem_of_app. now left. }
  cbn [readStream]. rewrite (chunkLines_linesText _ Hchunk).
  rewrite processLines_abort; [|intros l Hin; apply Hno, elem_of_app; now right
                               |exact Habort].
  eexists. split; [reflexivity|].
  rewrite <- foldl_app.
  set (lines := concat groups ++ before ++ [line]).
  destruct (received_counts lines (resetTracking c)) as (-> & -> & ->).
  split; [reflexivity|]. split; [|reflexivity].
  subst lines. cbn [messageIndexRef resetTracking setTracking].
  rewrite !length_app. cbn [length]. lia.
Qed.

End Send.

Lemma cleanLine_app a b : cleanLine a -> cleanLine b -> cleanLine (a +:+ b).
Proof.
  intros Ha Hb.
  destruct (cleanLine_trims _ Hb) as [_ Heb].
  pose proof (cleanLine_nonempty _ Ha) as Hna.
  pose proof (cleanLine_nonempty _ Hb) as Hnb.
  pose proof (cleanLine_trimStart a b Ha) as Hstart.
  destruct Ha as (Hla & _ & _), Hb as (Hlb & _ & _).
  split; [now rewrite lacks_app, Hla, Hlb|]. split.
  - destruct a; [contradiction | reflexivity].
  - unfold trim. rewrite Hstart.
    rewrite trimEnd_app; rewrite Heb; [reflexivity | exact Hnb].
Qed.

Lemma chunkLines_one line : cleanLine line -> chunkLines line = [line].
Proof.
  intros (Hlf & Htruthy & Htrim). unfold chunkLines.
  rewrite (split_lacks _ _ Hlf). cbn [List.filter]. now rewrite Htrim, Htruthy.
Qed.

(** X22: the read loop has no buffer between chunks.  A line that
    arrives whole is processed once and moves the cursor by one; the same
    line cut in two by a chunk boundary is processed as two fragments and
    moves the cursor by two. *)
Theorem line_cut_by_a_chunk_boundary_counts_twice a b c :
  cleanLine a -> cleanLine b ->
  aborts a = false -> aborts b = false -> aborts (a +:+ b) = false ->
  let whole := (readStream aborts [linesText [a +:+ b]] c).2 in
  let cut := (readStream aborts [a; linesText [b]] c).2 in
  processed whole = processed c ++ [a +:+ b] /\
  messageIndexRef whole = S (messageIndexRef c) /\
  processed cut = processed c ++ [a; b] /\
  messageIndexRef cut = S (S (messageIndexRef c)).
Proof.
  intros Ha Hb Hna Hnb Hnab whole cut. subst whole cut.
  cbn [readStream].
  rewrite (chunkLines_linesText [a +:+ b]), (chunkLines_linesText [b]),
    (chunkLines_one a Ha);
    try (constructor;
         [first [assumption | now apply cleanLine_app] | constructor]).
  cbn [processLines]. rewrite Hna, Hnb, Hnab. cbn.
  split; [reflexivity|]. split; [reflexivity|].
  split; [now rewrite <- app_assoc | reflexivity].
Qed.

End LiveStream.

Lemma live_stream_is_tracked_line_by_line_witness :
  exists c',
    ChatPage.sendMessage Recovery.defaultOptions (flaky 0) (fun _ => false) "r1"
      (map linesText [["a"; "b"]; ["c"]]%string) ChatPage.Done
      Recovery.initialClient
    = Some (None, c') /\
    Recovery.messageIndexRef c' = 3.
Proof.
  destruct (live_stream_is_tracked_line_by_line (fun _ => false)
              Recovery.defaultOptions (flaky 0) "r1"
              [["a"; "b"]; ["c"]]%string Recovery.initialClient)
    as (c' & Hsend & Hidx & _).
  - repeat constructor.
  - reflexivity.
  - cbn. lia.
  - exists c'. split; [exact Hsend | exact Hidx].
Defined.

Lemma abort_stops_the_read_loop_witness :
  exists c',
    ChatPage.sendMessage Recovery.defaultOptions (flaky 0) (String.eqb "stop")
      "r1" [linesText ["a"%string]; linesText ["b"; "stop"; "c"]%string;
            "junk"%string]
      (ChatPage.ReadThrows fetchFailed) Recovery.initialClient
    = Some (None, c') /\
    Recovery.processed c' = ["a"; "b"; "stop"]%string.
Proof.
  destruct (abort_stops_the_read_loop (String.eqb "stop")
              Recovery.defaultOptions (flaky 0) "r1"
              [["a"%string]] ["b"%string] "stop" ["c"%string] ["junk"%string]
              (ChatPage.ReadThrows fetchFailed) Recovery.initialClient)
    as (c' & Hsend & Hproc & _).
  - repeat constructor.
  - repeat constructor.
  - intros l Hin. cbn in Hin.
    apply elem_of_cons in Hin as [-> | Hin]; [reflexivity|].
    apply elem_of_cons in Hin as [-> | Hin]; [reflexivity|].
    now apply elem_of_nil in Hin.
  - reflexivity.
  - exists c'. split; [exact Hsend | exact Hproc].
Defined.

Lemma line_cut_by_a_chunk_boundary_counts_twice_witness :
  Recovery.messageIndexRef
    (ChatPage.readStream (fun _ => false) ["ab"; linesText ["cd"]]%string
       Recovery.initialClient).2
  = 2.
Proof.
  refine (proj2 (proj2 (proj2
    (line_cut_by_a_chunk_boundary_counts_twice (fun _ => false) "ab" "cd"
       Recovery.initialClient _ _ eq_refl eq_refl eq_refl)))).
  - split; [reflexivity | split; reflexivity].
  - split; [reflexivity | split; reflexivity].
Defined.

(** ** The recovery loop, once more *)

Section RecoveryMore.

Import Recovery ChatPage RecoveryFacts.

Context {Data : Type} `{!JsonCodec Data}.
Variable options : Options.
Variable network : Network (Data:=Data).

Implicit Types (c : Client) (what : Call).

Lemma delays_calls c c' : calls c = calls c' -> delays c = delays c'.
Proof. unfold delays. now intros ->. Qed.

Lemma delays_call what c :
  delays (call what c)
  = delays c ++ match what with SetTimeout delay => [delay] | _ => [] end.
Proof.
  unfold delays, call. cbn [calls]. rewrite flat_map_app.
  destruct what; cbn; now rewrite ?app_nil_r.
Qed.

Lemma tryRecover_delays attempt requestId c :
  delays (tryRecover network attempt requestId c).1 = delays c.
Proof.
  unfold tryRecover, checkRequestStatus, resumeStreaming.
  destruct (statusFetch network attempt) as [e|ok code status]; cbn [fst].
  { now rewrite delays_call, app_nil_r. }
  destruct ok; cbn [fst]; [|now rewrite delays_call, app_nil_r].
  destruct (RequestStatus_eqb (StatusResponse.status status) NOT_FOUND);
    cbn [fst]; [now rewrite delays_call, app_nil_r|].
  destruct (resumeFetch network attempt _) as [e|ok' code' body]; cbn [fst].
  { now rewrite !delays_call, !app_nil_r. }
  destruct ok'; cbn [fst]; [|now rewrite !delays_call, !app_nil_r].
  rewrite delays_call, app_nil_r.
  set (c2 := call (FetchResume _ _) (call (FetchStatus _) c)).
  transitivity (delays c2); [|subst c2; now rewrite !delays_call, !app_nil_r].
  apply delays_calls. cbn [calls setLastError setRecovering].
  destruct (0 <? length (ResumeResponse.messages body)); [|reflexivity].
  apply (onResumeMessages_calls (ResumeResponse.messages body) c2).
Qed.

Lemma handleNetworkError_start error requestId c :
  isNetworkError error = true ->
  exists c2,
    handleNetworkError options network error requestId c
    = attemptRecovery options network (S (maxRetries options)) requestId 0 c2 /\
    attempts c2 = attempts c /\ timers c2 = timers c /\
    delays c2 = delays c /\
    messageIndexRef c2 = messageIndexRef c /\ processed c2 = processed c.
Proof.
  intros Hnet.
  destruct (handleNetworkError_enters options network error requestId c Hnet)
    as (c2 & Heq & Ha & Ht & Hi & Hp).
  unfold handleNetworkError in *. rewrite Hnet in *. cbn [negb] in *.
  eexists. split; [reflexivity|].
  assert (Hdelays :
    delays match retryTimeoutRef (call OnNetworkError (setLastError (Some error) c)) with
           | Some timer =>
               call (ClearTimeout timer)
                 (call OnNetworkError (setLastError (Some error) c))
           | None => call OnNetworkError (setLastError (Some error) c)
           end = delays c).
  { destruct (retryTimeoutRef _); rewrite ?delays_call, ?app_nil_r;
      apply delays_calls; reflexivity. }
  split; [|split; [|split; [exact Hdelays|]]].
  - destruct (retryTimeoutRef _); rewrite ?attempts_call; cbn;
      rewrite ?attempts_call; cbn; unfold attempts; cbn; lia.
  - destruct (retryTimeoutRef _); rewrite ?timers_call; cbn;
      rewrite ?timers_call; cbn; unfold timers; cbn; lia.
  - destruct (retryTimeoutRef _); split; reflexivity.
Qed.

(** A run of attempts that all fail with network errors. *)
Lemma attemptRecovery_failures requestId cursor d :
  forall j c rounds,
    d <= rounds -> j + d <= maxRetries options ->
    messageIndexRef c = cursor ->
    (forall i, j <= i < j + d -> networkFails network i cursor) ->
    exists c1,
      attemptRecovery options network rounds requestId j c
      = attemptRecovery options network (rounds - d) requestId (j + d) c1 /\
      attempts c1 = attempts c + d /\ timers c1 = timers c + d /\
      delays c1
      = delays c ++ map (fun k => calculateRetryDelay options k (random network k))
                      (seq (S j) d) /\
      messageIndexRef c1 = cursor /\ processed c1 = processed c.
Proof.
  induction d as [|d IH]; intros j c rounds Hrounds Hj Hcur Hfail.
  - exists c. rewrite Nat.sub_0_r, !Nat.add_0_r. cbn [seq map].
    now rewrite app_nil_r.
  - destruct rounds as [|rounds]; [lia|]. cbn [attemptRecovery].
    destruct (Nat.leb_spec (maxRetries options) j); [lia|].
    destruct (attempt_start j c) as (Ha & Ht & Hi & Hp).
    set (c2 := if j =? 0 then _ else _) in *.
    assert (Hd2 : delays c2 = delays c).
    { subst c2. destruct (j =? 0); [|reflexivity].
      now rewrite delays_call, app_nil_r. }
    destruct (Hfail j ltac:(lia)) as (error & Hout & Hnet).
    rewrite <- Hcur, <- Hi in Hout.
    pose proof (tryRecover_delays j requestId c2) as Hd3.
    destruct (tryRecover_inl network j requestId c2 error Hout)
      as (c3 & Hc3 & Ha3 & Ht3 & Hi3 & Hp3).
    rewrite Hc3 in Hd3 |- *. cbn [fst] in Hd3.
    rewrite Hnet. cbn [negb].
    set (c4 := setRetryTimeout _ _).
    assert (Hc4 : attempts c4 = S (attempts c) /\ timers c4 = S (timers c) /\
                  messageIndexRef c4 = cursor /\ processed c4 = processed c /\
                  delays c4
                  = delays c ++ [calculateRetryDelay options (S j)
                                   (random network (S j))]).
    { subst c4. split; [|split; [|split; [|split]]].
      - transitivity (attempts (call (SetTimeout (calculateRetryDelay options (S j)
                                                    (random network (S j)))) c3));
          [reflexivity|]. rewrite attempts_call. lia.
      - transitivity (timers (call (SetTimeout (calculateRetryDelay options (S j)
                                                  (random network (S j)))) c3));
          [reflexivity|]. rewrite timers_call. lia.
      - cbn. congruence.
      - cbn. congruence.
      - transitivity (delays (call (SetTimeout (calculateRetryDelay options (S j)
                                                  (random network (S j)))) c3));
          [reflexivity|]. rewrite delays_call. congruence. }
    destruct Hc4 as (Ha4 & Ht4 & Hi4 & Hp4 & Hd4).
    destruct (IH (S j) c4 rounds ltac:(lia) ltac:(lia) Hi4)
      as (c1 & Heq & Ha1 & Ht1 & Hd1 & Hi1 & Hp1).
    { intros i Hi'. apply Hfail. lia. }
    exists c1. rewrite Heq.
    replace (S rounds - S d) with (rounds - d) by lia.
    replace (j + S d) with (S j + d) by lia.
    split; [reflexivity|]. split; [lia|]. split; [lia|].
    split; [|split; congruence].
    rewrite Hd1, Hd4, <- app_assoc. reflexivity.
Qed.

(** X23: an error that is not a network error ends the recovery at
    once.  After [N] attempts that failed with network errors, an attempt
    that fails otherwise (the status check or the resume call answers
    with an error status, or the request is unknown to the backend) is
    the last one: recovery reports failure after [N + 1] attempts and [N]
    timers, and hands nothing to the message processor. *)
Theorem recovery_stops_at_a_non_network_error error requestId c N reason :
  isNetworkError error = true ->
  N < maxRetries options ->
  (forall i, i < N -> networkFails network i (messageIndexRef c)) ->
  networkOutcome network N (messageIndexRef c) = inl reason ->
  isNetworkError reason = false ->
  exists c',
    handleNetworkError options network error requestId c = Some (false, c') /\
    attempts c' = attempts c + N + 1 /\ timers c' = timers c + N /\
    processed c' = processed c /\ isRecovering c' = false /\
    last (calls c') = Some OnRecoveryFailed.
Proof.
  intros Hnet HN Hfail Hout Hreason.
  destruct (handleNetworkError_start error requestId c Hnet)
    as (c0 & -> & Ha0 & Ht0 & _ & Hi0 & Hp0).
  destruct (attemptRecovery_failures requestId (messageIndexRef c) N 0 c0
              (S (maxRetries options)) ltac:(lia) ltac:(lia) Hi0)
    as (c1 & -> & Ha1 & Ht1 & _ & Hi1 & Hp1).
  { intros i Hi. apply Hfail. lia. }
  replace (S (maxRetries options) - N) with (S (maxRetries options - N)) by lia.
  cbn [attemptRecovery Nat.add].
  destruct (Nat.leb_spec (maxRetries options) N); [lia|].
  destruct (attempt_start N c1) as (Ha & Ht & Hi & Hp).
  set (c2 := if N =? 0 then _ else _) in *.
  rewrite <- Hi1, <- Hi in Hout.
  destruct (tryRecover_inl network N requestId c2 reason Hout)
    as (c3 & -> & Ha3 & Ht3 & Hi3 & Hp3).
  rewrite Hreason. cbn [negb].
  eexists. split; [reflexivity|].
  rewrite attempts_call, timers_call. cbn [processed isRecovering calls call
    setRecovering].
  split; [unfold attempts in *; cbn; lia|].
  split; [unfold timers in *; cbn; lia|].
  split; [congruence|]. split; [reflexivity | apply last_snoc].
Qed.

(** X24: the waits of a recovery, in order.  After [N] attempts that
    failed with network errors, whatever ends the recovery (a success, an
    error of another kind, or the retry limit), the timers that were set
    carry the delays for the retry counts 1, 2, ..., [N], each with the
    random value drawn for it: the first wait is already the doubled
    initial delay, and a wait is served even before the attempt that
    only finds the limit reached. *)
Theorem recovery_waits_in_order error requestId c N :
  isNetworkError error = true ->
  N <= maxRetries options ->
  (forall i, i < N -> networkFails network i (messageIndexRef c)) ->
  (N < maxRetries options -> ~ networkFails network N (messageIndexRef c)) ->
  exists recovered c',
    handleNetworkError options network error requestId c
    = Some (recovered, c') /\
    delays c'
    = delays c ++ map (fun k => calculateRetryDelay options k (random network k))
                    (seq 1 N).
Proof.
  intros Hnet HN Hfail Hlast.
  destruct (handleNetworkError_start error requestId c Hnet)
    as (c0 & -> & _ & _ & Hd0 & Hi0 & _).
  destruct (attemptRecovery_failures requestId (messageIndexRef c) N 0 c0
              (S (maxRetries options)) ltac:(lia) ltac:(lia) Hi0)
    as (c1 & -> & _ & _ & Hd1 & Hi1 & _).
  { intros i Hi. apply Hfail. lia. }
  rewrite Hd0 in Hd1. rewrite <- Hd1.
  replace (S (maxRetries options) - N) with (S (maxRetries options - N)) by lia.
  cbn [attemptRecovery Nat.add].
  destruct (Nat.leb_spec (maxRetries options) N) as [Hlimit | Hbelow].
  { eexists _, _. split; [reflexivity|]. now rewrite delays_call, app_nil_r. }
  destruct (attempt_start N c1) as (_ & _ & Hi & _).
  set (c2 := if N =? 0 then _ else _) in *.
  assert (Hd2 : delays c2 = delays c1).
  { subst c2. destruct (N =? 0); [|reflexivity].
    now rewrite delays_call, app_nil_r. }
  pose proof (tryRecover_delays N requestId c2) as Hd3.
  destruct (networkOutcome network N (messageIndexRef c)) as [reason|response]
    eqn:Hout.
  - assert (Hreason : isNetworkError reason = false).
    { destruct (isNetworkError reason) eqn:E; [|reflexivity].
      exfalso. apply (Hlast Hbelow). now exists reason. }
    rewrite <- Hi1, <- Hi in Hout.
    destruct (tryRecover_inl network N requestId c2 reason Hout)
      as (c3 & Hc3 & _).
    rewrite Hc3 in Hd3 |- *. cbn [fst] in Hd3. rewrite Hreason. cbn [negb].
    eexists _, _. split; [reflexivity|].
    rewrite delays_call, app_nil_r.
    transitivity (delays c3); [now apply delays_calls | congruence].
  - rewrite <- Hi1, <- Hi in Hout.
    destruct (tryRecover_inr network N requestId c2 response Hout)
      as (c3 & Hc3 & _).
    rewrite Hc3 in Hd3 |- *. cbn [fst] in Hd3.
    eexists _, _. split; [reflexivity | congruence].
Qed.

End RecoveryMore.

Lemma reconnecting_fails failures runtime s cursor i :
  i < failures ->
  Recovery.networkFails (reconnecting failures runtime s) i cursor.
Proof.
  intros Hlt. exists fetchFailed. split; [|reflexivity].
  unfold Recovery.networkOutcome, reconnecting.
  cbn [Recovery.statusFetch].
  destruct (Nat.ltb_spec i failures); [reflexivity | lia].
Qed.

Lemma recovery_stops_at_a_non_network_error_witness :
  exists c',
    Recovery.handleNetworkError Recovery.defaultOptions
      (reconnecting 2 (runtimeAt "/home/user") emptyServer) fetchFailed "r1"
      twoLinesIn
    = Some (false, c') /\
    Recovery.attempts c' = 3.
Proof.
  destruct (recovery_stops_at_a_non_network_error Recovery.defaultOptions
              (reconnecting 2 (runtimeAt "/home/user") emptyServer)
              fetchFailed "r1" twoLinesIn 2
              (Recovery.httpError "Request not found"))
    as (c' & Hrec & Hattempts & _).
  - reflexivity.
  - cbn. lia.
  - intros i Hi. now apply reconnecting_fails.
  - reflexivity.
  - reflexivity.
  - exists c'. split; [exact Hrec | exact Hattempts].
Defined.

Lemma recovery_waits_in_order_witness :
  exists recovered c',
    Recovery.handleNetworkError Recovery.defaultOptions (flaky 2) fetchFailed
      "r1" twoLinesIn
    = Some (recovered, c') /\
    ChatPage.delays c'
    = [Recovery.calculateRetryDelay Recovery.defaultOptions 1 (1 # 2);
       Recovery.calculateRetryDelay Recovery.defaultOptions 2 (1 # 2)].
Proof.
  apply (recovery_waits_in_order Recovery.defaultOptions (flaky 2) fetchFailed
           "r1" twoLinesIn 2).
  - reflexivity.
  - cbn. lia.
  - intros i Hi. now apply flaky_fails.
  - intros _ (reason & Hout & _). vm_compute in Hout. discriminate.
Defined.

(** ** The delay *)



(** ** From the broken stream to the whole one *)

Section EndToEnd.

Import Recovery RecoveryFacts.

Context {Data : Type} `{!JsonCodec Data}.
Variable runtime : Runtime.
Variable options : Options.
Variable network : Network (Data:=Data).

(** What a recovery that reaches the backend hands to the message
    processor: the entries from the cursor on. *)
Lemma handleNetworkError_resumes home encodedProjectName requestId s info
    (entries : list (StreamResponse Data)) error c N :
  getEnv runtime "HOME" = Some home -> truthy home = true ->
  ~ List.In "projects"%string (split "/" home) ->
  lacks "/" encodedProjectName = true ->
  truthy requestId = true ->
  requestStatuses s !! requestId = Some info ->
  StreamingFileInfo.filePath info
  = home +:+ "/.claude/projects/" +:+ encodedProjectName
    +:+ "/streaming/" +:+ requestId +:+ ".jsonl" ->
  StreamingFileInfo.status info <> NOT_FOUND ->
  default EmptyString (files s !! StreamingFileInfo.filePath info)
  = logText entries ->
  Forall wellEncoded entries ->
  isNetworkError error = true ->
  N < maxRetries options ->
  (forall i, i < N -> networkFails network i (messageIndexRef c)) ->
  (exists code body,
     statusFetch network N = Resolves true code body /\
     handleStatusRequest requestId s = Json body) ->
  (exists code body,
     resumeFetch network N (messageIndexRef c) = Resolves true code body /\
     handleResumeRequest runtime requestId
       (Some (decimal (messageIndexRef c))) s = Json body) ->
  exists c',
    handleNetworkError options network error requestId c = Some (true, c') /\
    processed c'
    = processed c ++ map JSON_stringify (drop (messageIndexRef c) entries) /\
    (processed c = map JSON_stringify (take (messageIndexRef c) entries) ->
     processed c' = map JSON_stringify entries).
Proof.
  intros Hhome Hth Hproj Hlacks Htruthy Hinfo Hpath Hstatus Hlog Hall Hnet HN
    Hfail (code & sbody & Hsfetch & Hsbody) (code' & rbody & Hrfetch & Hrbody).
  assert (Hindex :
    parseInt (fromIndexText (Some (decimal (messageIndexRef c))))
    = Num (Z.of_nat (messageIndexRef c))).
  { destruct (parseInt_decimal (messageIndexRef c)) as [Hparse Hdec].
    unfold fromIndexText. now rewrite Hdec. }
  rewrite (handleResumeRequest_log runtime home encodedProjectName requestId
             _ s info entries (messageIndexRef c)) in Hrbody by assumption.
  injection Hrbody as <-.
  unfold handleStatusRequest, getRequestStatus in Hsbody.
  rewrite Htruthy, Hinfo in Hsbody. cbn [negb] in Hsbody.
  injection Hsbody as <-.
  assert (Hout : networkOutcome network N (messageIndexRef c)
    = inr (ResumeResponse.mk (drop (messageIndexRef c) entries)
             (StreamingFileInfo.totalMessages info)
             (negb (RequestStatus_eqb (StreamingFileInfo.status info) IN_PROGRESS)))).
  { unfold networkOutcome. rewrite Hsfetch, Hrfetch. cbn.
    destruct (StreamingFileInfo.status info); try reflexivity. congruence. }
  destruct (handleNetworkError_enters options network error requestId c Hnet)
    as (c0 & -> & _ & _ & Hi0 & Hp0).
  destruct (attemptRecovery_recovers options network requestId N
              (messageIndexRef c) N HN (ex_intro _ _ Hout) 0 c0
              (S (maxRetries options)) eq_refl ltac:(lia) Hi0)
    as (c' & response & Hrec & Hout' & _ & _ & _ & Hproc & _).
  { intros i Hi. apply Hfail. lia. }
  rewrite Hout in Hout'. injection Hout' as <-.
  cbn [ResumeResponse.messages] in Hproc. rewrite Hp0 in Hproc.
  exists c'. split; [exact Hrec|]. split; [exact Hproc|].
  intros Hseen. rewrite Hproc, Hseen, <- map_app. now rewrite take_drop.
Qed.

Variable aborts : string -> bool.

(** X26: a broken stream is completed by the recovery.  On a machine
    where the resume handler finds the log: the backend's log of the
    request holds [entries]; the client gets the first [k] of them from
    the live stream, one line a chunk, and then the read fails with a
    network error; [N] recovery attempts fail with network errors and
    the next one reaches the backend.  Then [sendMessage] ends recovered
    and the message processor has got the text of every entry of the
    log, in order and once. *)
Theorem interrupted_stream_is_completed home encodedProjectName requestId s
    info (entries : list (StreamResponse Data)) error c N k :
  getEnv runtime "HOME" = Some home -> truthy home = true ->
  ~ List.In "projects"%string (split "/" home) ->
  lacks "/" encodedProjectName = true ->
  truthy requestId = true ->
  requestStatuses s !! requestId = Some info ->
  StreamingFileInfo.filePath info
  = home +:+ "/.claude/projects/" +:+ encodedProjectName
    +:+ "/streaming/" +:+ requestId +:+ ".jsonl" ->
  StreamingFileInfo.status info <> NOT_FOUND ->
  default EmptyString (files s !! StreamingFileInfo.filePath info)
  = logText entries ->
  Forall wellEncoded entries ->
  k <= length entries ->
  (forall m, m ∈ take k entries -> aborts (JSON_stringify m) = false) ->
  isNetworkError error = true ->
  N < maxRetries options ->
  (forall i, i < N -> networkFails network i k) ->
  (exists code body,
     statusFetch network N = Resolves true code body /\
     handleStatusRequest requestId s = Json body) ->
  (exists code body,
     resumeFetch network N k = Resolves true code body /\
     handleResumeRequest runtime requestId (Some (decimal k)) s = Json body) ->
  exists c',
    ChatPage.sendMessage options network aborts requestId
      (map (fun m => linesText [JSON_stringify m]) (take k entries))
      (ChatPage.ReadThrows error) c
    = Some (Some true, c') /\
    processed c' = processed c ++ map JSON_stringify entries.
Proof.
  intros Hhome Hth Hproj Hlacks Htruthy Hinfo Hpath Hstatus Hlog Hall Hk
    Hno Hnet HN Hfail Hsfetch Hrfetch.
  unfold ChatPage.sendMessage.
  set (groups := map (fun m => [JSON_stringify m]) (take k entries)).
  assert (Hchunks : map (fun m => linesText [JSON_stringify m]) (take k entries)
                    = map linesText groups ++ [])
    by (subst groups; now rewrite map_map, app_nil_r).
  assert (Hlines : concat groups = map JSON_stringify (take k entries)).
  { subst groups. generalize (take k entries). intros l.
    induction l as [|m l IH]; [reflexivity|].
    cbn [map concat app]. now rewrite IH. }
  assert (Hseen : Forall wellEncoded (take k entries)) by now apply Forall_take.
  rewrite Hchunks, (readStream_whole_lines aborts groups []).
  2:{ subst groups. apply Forall_forall. intros group Hin.
      apply list_elem_of_In, in_map_iff in Hin as (m & <- & Hin).
      constructor; [|constructor]. apply wellEncoded_cleanLine.
      rewrite Forall_forall in Hseen. apply Hseen. now apply list_elem_of_In. }
  2:{ rewrite Hlines. intros line Hin.
      apply list_elem_of_In, in_map_iff in Hin as (m & <- & Hin).
      apply Hno. now apply list_elem_of_In. }
  cbn [ChatPage.readStream]. rewrite Hlines.
  destruct (received_counts (map JSON_stringify (take k entries)) (resetTracking c))
    as (Hidx & Hproc & _).
  set (c1 := foldl _ (resetTracking c) _) in *.
  rewrite length_map, length_take in Hidx.
  cbn [messageIndexRef resetTracking setTracking Nat.add] in Hidx.
  replace (k `min` length entries) with k in Hidx by lia.
  rewrite <- Hidx in Hfail, Hrfetch.
  destruct (handleNetworkError_resumes home encodedProjectName requestId s info
              entries error c1 N)
    as (c' & -> & Hproc' & _); try assumption.
  exists c'. split; [reflexivity|].
  rewrite Hproc', Hproc, Hidx. cbn [processed resetTracking setTracking].
  rewrite <- app_assoc, <- map_app. now rewrite take_drop.
Qed.

End EndToEnd.


Lemma interrupted_stream_is_completed_witness :
  exists c',
    ChatPage.sendMessage Recovery.defaultOptions
      (reconnecting 1 (runtimeAt "/home/user") (afterTurn "/home/user"))
      (fun _ => false) "r1"
      [linesText [JSON_stringify (dataResponse true)];
       linesText [JSON_stringify (dataResponse false)]]
      (ChatPage.ReadThrows fetchFailed) Recovery.initialClient
    = Some (Some true, c') /\
    Recovery.processed c'
    = map JSON_stringify [dataResponse true; dataResponse false; doneResponse].
Proof.
  apply (interrupted_stream_is_completed (runtimeAt "/home/user")
           Recovery.defaultOptions
           (reconnecting 1 (runtimeAt "/home/user") (afterTurn "/home/user"))
           (fun _ => false)
           "/home/user" "_w" "r1" (afterTurn "/home/user") turnInfo
           [dataResponse true; dataResponse false; doneResponse]
           fetchFailed Recovery.initialClient 1 2).
  - reflexivity.
  - reflexivity.
  - vm_compute. intuition discriminate.
  - reflexivity.
  - reflexivity.
  - vm_compute. reflexivity.
  - reflexivity.
  - discriminate.
  - vm_compute. reflexivity.
  - repeat constructor; first [apply wellEncoded_data | apply wellEncoded_done].
  - cbn. lia.
  - reflexivity.
  - reflexivity.
  - cbn. lia.
  - intros i Hi. now apply reconnecting_fails.
  - eexists _, _. split; vm_compute; reflexivity.
  - eexists _, _. split; vm_compute; reflexivity.
Defined.

(** ** One log file for one request *)

Section SeparateLogs.

Variable runtime : Runtime.

Lemma append_cancel_l s t t' : s +:+ t = s +:+ t' -> t = t'.
Proof.
  induction s as [|a s IH]; simpl; [auto|]. intros [= H]. auto.
Qed.

Lemma append_length s t :
  String.length (s +:+ t) = String.length s + String.length t.
Proof. induction s as [|a s IH]; simpl; [reflexivity | now rewrite IH]. Qed.

Lemma append_cancel_r u : forall s s', s +:+ u = s' +:+ u -> s = s'.
Proof.
  induction s as [|a s IH]; intros [|b s'] H; simpl in H.
  - reflexivity.
  - exfalso. apply (f_equal String.length) in H. simpl in H.
    rewrite append_length in H. lia.
  - exfalso. apply (f_equal String.length) in H. simpl in H.
    rewrite append_length in H. lia.
  - injection H as -> H. f_equal. now apply IH.
Qed.

(** Two texts that agree and whose first parts lack the separator agree
    part by part. *)
Lemma append_until c t t' :
  forall p p',
    lacks c p = true -> lacks c p' = true ->
    p +:+ String c t = p' +:+ String c t' -> p = p' /\ t = t'.
Proof.
  induction p as [|a p IH]; intros [|b p'] Hp Hp' H; simpl in *.
  - injection H as ->. now split.
  - injection H as <- _. rewrite Ascii.eqb_refl in Hp'. discriminate.
  - injection H as -> _. rewrite Ascii.eqb_refl in Hp. discriminate.
  - injection H as -> H.
    apply andb_true_iff in Hp as [_ Hp]. apply andb_true_iff in Hp' as [_ Hp'].
    destruct (IH p' Hp Hp' H) as [-> ->]. now split.
Qed.

Lemma getStreamingFilePath_injective name name' requestId requestId' path :
  lacks "/" name = true -> lacks "/" name' = true ->
  getStreamingFilePath runtime name requestId = inr path ->
  getStreamingFilePath runtime name' requestId' = inr path ->
  name = name' /\ requestId = requestId'.
Proof.
  intros Hname Hname' Hpath Hpath'.
  apply getStreamingFilePath_inr in Hpath as (home & Hhome & _ & ->).
  apply getStreamingFilePath_inr in Hpath' as (home' & Hhome' & _ & E).
  rewrite Hhome in Hhome'. injection Hhome' as <-.
  apply append_cancel_l, append_cancel_l in E.
  apply append_until in E as [-> E]; [|assumption..].
  split; [reflexivity|].
  apply (append_cancel_l "streaming/") in E.
  now apply append_cancel_r in E.
Qed.

(** X27: requests do not share a log file: for the project names the
    chat handler makes, two requests that differ in their project or in
    their request id have different log paths.  (Paths are compared as
    texts; what the file system makes of a request id that holds [..]
    is not modelled.) *)
Theorem log_files_are_separate workingDirectory workingDirectory' name name'
    requestId requestId' path path' :
  getEncodedProjectName workingDirectory = Some name ->
  getEncodedProjectName workingDirectory' = Some name' ->
  getStreamingFilePath runtime name requestId = inr path ->
  getStreamingFilePath runtime name' requestId' = inr path' ->
  name <> name' \/ requestId <> requestId' ->
  path <> path'.
Proof.
  intros Hname Hname' Hpath Hpath' Hdiffer ->.
  destruct (getEncodedProjectName_Some _ _ Hname) as [_ Hlacks].
  destruct (getEncodedProjectName_Some _ _ Hname') as [_ Hlacks'].
  destruct (getStreamingFilePath_injective name name' requestId requestId' path'
              Hlacks Hlacks' Hpath Hpath') as [E E'].
  destruct Hdiffer; contradiction.
Qed.

End SeparateLogs.

Lemma log_files_are_separate_witness :
  logPath "/home/user" <> "/home/user/.claude/projects/_w/streaming/r2.jsonl"%string.
Proof.
  apply (log_files_are_separate (runtimeAt "/home/user")
           (Some "/w"%string) (Some "/w"%string) "_w" "_w" "r1" "r2").
  - reflexivity.
  - reflexivity.
  - reflexivity.
  - reflexivity.
  - right. discriminate.
Defined.

End Further.
